(** * Progress display, history listing and record deletion of TradingAgents-CN

    A shallow embedding of
    - [web/components/async_progress_display.py]  (module [Display]),
    - [web/modules/analysis_history.py]           (module [History]),
    - [analyze_data_storage.py]                   (module [Storage]),
    with the properties of the progress-tracking specification that concern
    them.

    Conventions of the embedding.
    - A JSON payload is a [gmap string value]; [value] is the type of the
      Python objects a decoded payload can hold.
    - Python numbers are integers ([Z]): timestamps and durations are counted
      in whole time units, percentages in whole percent.  The only place where
      a fraction is computed, the statistics summary, uses [Q].
    - Effects are explicit: a computation maps a [world] to a result, the
      world it leaves behind and the chronological list of the [event]s it
      emitted (widget calls, log lines, session writes, sleeps, fetches).
    - Exceptions are results: [PyException] stands for any subclass of
      Python's [Exception]; [RerunException] is what [st.rerun()] raises, a
      [BaseException] that [except Exception] does not catch.
    - [import] of a module of this repository or of a required package
      succeeds; [import redis] can fail, the package being optional
      ([start_web_enhanced.py], "可选功能"). *)

From stdpp Require Import gmap strings list pretty.
From Stdlib Require Import QArith.

Set Warnings "-register-all".
Open Scope Z_scope.

(** ** Python values *)

Inductive value :=
  | VNone
  | VBool (b : bool)
  | VNum (z : Z)
  | VStr (s : string)
  | VList (l : list value)
  | VDict (d : gmap string value).

(** [bool(v)]. *)
Definition truthy (v : value) : bool :=
  match v with
  | VNone => false
  | VBool b => b
  | VNum z => negb (z =? 0)
  | VStr s => negb (String.eqb s "")
  | VList l => match l with [] => false | _ => true end
  | VDict d => negb (bool_decide (d = ∅))
  end.

(** The number a value stands for in arithmetic and comparisons; [bool] is a
    subclass of [int].  [None] when the operation raises [TypeError]. *)
Definition as_num (v : value) : option Z :=
  match v with
  | VNum z => Some z
  | VBool b => Some (if b then 1 else 0)
  | _ => None
  end.

(** [v == 'literal']. *)
Definition is_str (s : string) (v : value) : bool :=
  match v with
  | VStr s' => String.eqb s' s
  | _ => false
  end.

(** [v == n] for an integer literal [n]. *)
Definition is_int (n : Z) (v : value) : bool :=
  match as_num v with
  | Some z => z =? n
  | None => false
  end.

(** [d.get(k, dflt)]: the default is used only when the key is absent. *)
Definition dget (d : gmap string value) (k : string) (dflt : value) : value :=
  default dflt (d !! k).

(** [not progress_data] for an [Optional[Dict]]. *)
Definition no_data (o : option (gmap string value)) : bool :=
  match o with
  | None => true
  | Some d => bool_decide (d = ∅)
  end.

(** ** Results, events and the world *)

(** The classes of [Exception] the modelled code can meet; [ExternalError]
    is whatever a call into Streamlit, Redis or the OS raises. *)
Inductive pyclass :=
  | TypeError | ValueError | KeyError | AttributeError
  | ZeroDivisionError | ImportError | ExternalError.

Inductive exn :=
  | PyException (cls : pyclass) (msg : string)
  | RerunException.

Inductive res (A : Type) :=
  | Ok (a : A)
  | Raise (e : exn).
Arguments Ok {A} a.
Arguments Raise {A} e.

Inductive level := LDebug | LInfo | LWarning | LError.

(** A Streamlit call, on [st] itself or on a placeholder. *)
Inductive call :=
  | Markdown (s : string)
  | Subheader (s : string)
  | Info (s : string)
  | Success (s : string)
  | Warn (s : string)
  | Err (s : string)
  | Write (s : string)
  | Metric (label val : string) (delta : option string)
  | Progress (pct : Z)
  | Columns (n : nat)
  | Empty
  | Button (label key : string)
  | Checkbox (label key : string).

Inductive event :=
  | St (c : call)                       (* st.<call>  *)
  | Slot (name : string) (c : call)     (* self.<name>.<call> *)
  | Log (l : level) (msg : string)      (* logger.<level>(msg) *)
  | Fetch (id : string)                 (* get_progress_by_id(id) *)
  | FormatResults (raw : value)         (* format_analysis_results(raw) *)
  | Sleep (secs : Z)                    (* time.sleep(secs) *)
  | SessionSet (k : string) (v : value) (* st.session_state[k] = v *)
  | SessionDel (k : string)             (* del st.session_state[k] *)
  | OsRemove (path : string)            (* os.remove(path) *)
  | RedisDelete (key : string).         (* redis_client.delete(key) *)

(** The instance of [AsyncProgressDisplay] a method runs on. *)
Record display := {
  analysis_id : string;
  refresh_interval : Z;
  dom_lock : bool;
  last_update : Z;
  is_completed : bool
}.

Record world := {
  session : gmap string value;   (* st.session_state of this viewer *)
  clock : Z;                     (* what time.time() returns *)
  self : display;
  files : gset string;           (* the paths that exist on disk *)
  redis : gset string            (* the keys the Redis server holds *)
}.

(** What the code reads from outside this repository's sources. *)
Class Env := {
  get_progress_by_id : string → option (gmap string value);
  format_analysis_results : value → value;
  format_time : value → string;
  fmt_1f : Q → string;            (* the format spec [.1f] *)
  repr : value → string;          (* [str()] of a list or a dict *)
  clicked : string → bool;        (* does the button with this key report a click *)
  getenv : string → option string;(* os.getenv *)
  py_int : string → option Z;     (* int() of a string; None for ValueError *)
  importable : string → bool;     (* is the optional package installed *)
  fault : event → option string   (* the external call raises, with this message *)
}.

(** ** The effect monad *)

Definition M (A : Type) : Type := world → res A * world * list event.

Definition ret {A} (a : A) : M A := λ w, (Ok a, w, []).

Definition bind {A B} (m : M A) (k : A → M B) : M B := λ w,
  match m w with
  | (Ok a, w1, ev1) =>
      match k a w1 with
      | (r, w2, ev2) => (r, w2, ev1 ++ ev2)
      end
  | (Raise e, w1, ev1) => (Raise e, w1, ev1)
  end.

Declare Scope py_scope.
Delimit Scope py_scope with py.
Notation "x <- m ;; k" := (bind m (λ x, k))
  (at level 100, m at next level, right associativity) : py_scope.
Notation "m ;;; k" := (bind m (λ _, k))
  (at level 100, right associativity) : py_scope.
Open Scope py_scope.

Definition raise {A} (e : exn) : M A := λ w, (Raise e, w, []).
Definition type_error {A} (what : string) : M A := raise (PyException TypeError what).

(** A computation without effects that may raise. *)
Definition lift {A} (r : res A) : M A := λ w, (r, w, []).

(** [st.rerun()]. *)
Definition rerun {A} : M A := raise RerunException.

(** An internal effect that cannot raise. *)
Definition emit (e : event) : M unit := λ w, (Ok tt, w, [e]).

(** [try: m  except Exception as e: h e]. *)
Definition try_except {A} (m : M A) (h : string → M A) : M A := λ w,
  match m w with
  | (Raise (PyException _ msg), w1, ev1) =>
      match h msg w1 with
      | (r, w2, ev2) => (r, w2, ev1 ++ ev2)
      end
  | other => other
  end.

(** [try: m  except: h] (a bare [except] catches everything). *)
Definition try_bare {A} (m : M A) (h : M A) : M A := λ w,
  match m w with
  | (Raise e, w1, ev1) =>
      match h w1 with
      | (r, w2, ev2) => (r, w2, ev1 ++ ev2)
      end
  | other => other
  end.

(** [try: m  finally: c].  The clean-up runs on every exit of [m]; the
    outcome of [m] is kept unless the clean-up itself raises. *)
Definition finally_ {A} (m : M A) (c : M unit) : M A := λ w,
  match m w with
  | (r, w1, ev1) =>
      match c w1 with
      | (Ok _, w2, ev2) => (r, w2, ev1 ++ ev2)
      | (Raise e, w2, ev2) => (Raise e, w2, ev1 ++ ev2)
      end
  end.

Definition when (b : bool) (m : M unit) : M unit := if b then m else ret tt.

(** *** Session state, clock and the receiver object *)

Definition with_session (f : gmap string value → gmap string value) (w : world) : world :=
  {| session := f (session w); clock := clock w; self := self w;
     files := files w; redis := redis w |}.

Definition with_self (f : display → display) (w : world) : world :=
  {| session := session w; clock := clock w; self := f (self w);
     files := files w; redis := redis w |}.

Definition with_clock (f : Z → Z) (w : world) : world :=
  {| session := session w; clock := f (clock w); self := self w;
     files := files w; redis := redis w |}.

Definition with_files (f : gset string → gset string) (w : world) : world :=
  {| session := session w; clock := clock w; self := self w;
     files := f (files w); redis := redis w |}.

Definition with_redis (f : gset string → gset string) (w : world) : world :=
  {| session := session w; clock := clock w; self := self w;
     files := files w; redis := f (redis w) |}.

Definition session_get (k : string) (dflt : value) : M value :=
  λ w, (Ok (dget (session w) k dflt), w, []).

Definition session_contains (k : string) : M bool :=
  λ w, (Ok (bool_decide (is_Some (session w !! k))), w, []).

Definition session_set (k : string) (v : value) : M unit :=
  λ w, (Ok tt, with_session (insert k v) w, [SessionSet k v]).

Definition session_del (k : string) : M unit :=
  λ w, (Ok tt, with_session (delete k) w, [SessionDel k]).

(** [time.time()].  The clock of the model advances in [time.sleep] only:
    the calls between two readings take no time, whereas a wall clock also
    advances during them. *)
Definition time_time : M Z := λ w, (Ok (clock w), w, []).

Definition get_self : M display := λ w, (Ok (self w), w, []).

Definition set_dom_lock (b : bool) : M unit := λ w,
  (Ok tt, with_self (λ s, {| analysis_id := analysis_id s; refresh_interval := refresh_interval s;
                             dom_lock := b; last_update := last_update s;
                             is_completed := is_completed s |}) w, []).

Definition set_last_update (t : Z) : M unit := λ w,
  (Ok tt, with_self (λ s, {| analysis_id := analysis_id s; refresh_interval := refresh_interval s;
                             dom_lock := dom_lock s; last_update := t;
                             is_completed := is_completed s |}) w, []).

Definition set_is_completed (b : bool) : M unit := λ w,
  (Ok tt, with_self (λ s, {| analysis_id := analysis_id s; refresh_interval := refresh_interval s;
                             dom_lock := dom_lock s; last_update := last_update s;
                             is_completed := b |}) w, []).

Arguments ret {_} _ _ /.
Arguments raise {_} _ _ /.
Arguments rerun {_} _ /.
Arguments type_error {_} _ _ /.
Arguments lift {_} _ _ /.
Arguments emit _ _ /.
Arguments when _ _ /.
Arguments session_get _ _ _ /.
Arguments session_contains _ _ /.
Arguments session_set _ _ _ /.
Arguments session_del _ _ /.
Arguments time_time _ /.
Arguments get_self _ /.
Arguments set_dom_lock _ _ /.
Arguments set_last_update _ _ /.
Arguments set_is_completed _ _ /.

(** *** Python operators that can raise

    The interpreter's messages go on to name the operand types (["'>=' not
    supported between instances of 'str' and 'float'"]); here and below they
    are cut after their leading words.  Statements speak of the class of such
    an exception, not of its text. *)

Definition py_sub (a b : value) : M value :=
  match as_num a, as_num b with
  | Some x, Some y => ret (VNum (x - y))
  | _, _ => type_error "unsupported operand type(s) for -"
  end.

Definition py_add (a b : value) : M value :=
  match as_num a, as_num b with
  | Some x, Some y => ret (VNum (x + y))
  | _, _ => type_error "unsupported operand type(s) for +"
  end.

(** [a > n] and [a >= n]. *)
Definition py_gt (a : value) (n : Z) : M bool :=
  match as_num a with
  | Some x => ret (n <? x)
  | None => type_error "'>' not supported"
  end.

Definition py_ge (a : value) (n : Z) : M bool :=
  match as_num a with
  | Some x => ret (n <=? x)
  | None => type_error "'>=' not supported"
  end.

(** [max(a, 0)]. *)
Definition py_max0 (a : value) : M value :=
  match as_num a with
  | Some x => ret (if 0 <? x then a else if x =? 0 then a else VNum 0)
  | None => type_error "'>' not supported"
  end.

(** [{'running': .., 'completed': .., 'failed': ..}.get(status, '🔄')]: the
    key has to be hashable. *)
Definition status_icon (status : value) : M string :=
  match status with
  | VList _ | VDict _ => type_error "unhashable type"
  | _ =>
      ret (if is_str "running" status then "🔄"
           else if is_str "completed" status then "✅"
           else if is_str "failed" status then "❌"
           else "🔄")
  end.

(** [status in ['completed', 'failed']]. *)
Definition is_terminal (status : value) : bool :=
  is_str "completed" status || is_str "failed" status.

(** ** Vocabulary for statements about computations *)

(** [after ev1 x]: the outcome [x] of a continuation, behind the events
    [ev1] already emitted. *)
Definition after {A} (ev1 : list event) (x : res A * world * list event)
    : res A * world * list event :=
  let '(r, w2, ev2) := x in (r, w2, ev1 ++ ev2).

(** [calm K m]: [m] never sleeps, leaves the clock alone and does not touch
    the session entries whose key is in [K]. *)
Definition calm (K : string → Prop) {A} (m : M A) : Prop :=
  ∀ w, (∀ s, Sleep s ∉ (m w).2)
       ∧ clock (m w).1.2 = clock w
       ∧ ∀ k, K k → session (m w).1.2 !! k = session w !! k.

(** [sleeps_only_if P m w]: run from [w], [m] calls [time.sleep] only if
    [P] holds of the events it emits. *)
Definition sleeps_only_if (P : list event → Prop) {A} (m : M A) (w : world) : Prop :=
  ∀ s, Sleep s ∈ (m w).2 → P (m w).2.

(** [P] still holds when events come before and after. *)
Definition stable (P : list event → Prop) : Prop :=
  ∀ pre evs post, P evs → P (pre ++ evs ++ post).

(** [widgets_only m]: [m] touches neither the files nor Redis; all it emits
    are widget calls and log lines. *)
Definition widgets_only {A} (m : M A) : Prop :=
  ∀ w e, e ∈ (m w).2 → ∃ c l msg, e = St c ∨ e = Log l msg.

(** The outcome is not a [ZeroDivisionError]. *)
Definition no_zero_division {A} (out : res A * world * list event) : Prop :=
  ∀ msg, out.1.1 ≠ Raise (PyException ZeroDivisionError msg).

(** ** Calls into Streamlit, the logger and the progress tracker *)

Section Calls.
Context `{!Env}.

(** A call that leaves this repository: it is recorded, and raises when the
    environment says so. *)
Definition ext (e : event) : M unit := λ w,
  match fault e with
  | Some msg => (Raise (PyException ExternalError msg), w, [e])
  | None => (Ok tt, w, [e])
  end.

Definition st (c : call) : M unit := ext (St c).
Definition slot (name : string) (c : call) : M unit := ext (Slot name c).

(** [import name], for an optional package. *)
Definition py_import (name : string) : M unit :=
  if importable name then ret tt
  else raise (PyException ImportError ("No module named '" +:+ name +:+ "'")).

(** [logger.<level>(msg)]. *)
Definition log (l : level) (msg : string) : M unit := emit (Log l msg).

(** [st.button(label, key=key)]. *)
Definition button (label key : string) : M bool :=
  st (Button label key);;; ret (clicked key).

(** [st.checkbox(label, key=key)]: the widget's value is the session entry
    of its key. *)
Definition checkbox (label key : string) : M bool :=
  st (Checkbox label key);;;
  v <- session_get key (VBool false);;
  ret (truthy v).

(** [time.sleep(secs)]. *)
Definition sleep (secs : Z) : M unit := λ w,
  (Ok tt, with_clock (λ t, t + secs) w, [Sleep secs]).

(** [get_progress_by_id(id)]. *)
Definition fetch (id : string) : M (option (gmap string value)) :=
  ext (Fetch id);;; ret (get_progress_by_id id).

(** [format_analysis_results(raw)]. *)
Definition format_results (raw : value) : M value :=
  ext (FormatResults raw);;; ret (format_analysis_results raw).

(** [str(v)], as an f-string field does. *)
Definition py_str (v : value) : string :=
  match v with
  | VStr s => s
  | VNone => "None"
  | VBool b => if b then "True" else "False"
  | VNum z => pretty z
  | _ => repr v
  end.

(** [f"{v:.1f}"]. *)
Definition format_1f (v : value) : M string :=
  match as_num v with
  | Some z => ret (fmt_1f (inject_Z z))
  | None =>
      match v with
      | VStr _ =>
          raise (PyException ValueError "Unknown format code 'f' for object of type 'str'")
      | VList _ => type_error "unsupported format string passed to list.__format__"
      | VDict _ => type_error "unsupported format string passed to dict.__format__"
      | _ => type_error "unsupported format string passed to NoneType.__format__"
      end
  end.

(** The argument of [progress(min(p / 100, 1.0))], kept in percent. *)
Definition progress_arg (p : value) : M Z :=
  match as_num p with
  | Some z => ret (Z.min z 100)
  | None => type_error "unsupported operand type(s) for /"
  end.

End Calls.

(** ** web/components/async_progress_display.py *)

Module Display.

(** The fields [display_static_progress_with_controls] reads from a payload,
    with the defaults of its [.get] calls (lines 284-306). *)
Record static_fields := {
  s_status : value;
  s_current_step : value;
  s_current_step_name : value;
  s_progress_percentage : value;
  s_start_time : value;
  s_estimated_total_time : value;
  s_elapsed_time : value;
  s_current_step_description : value;
  s_last_message : value
}.

Definition parse_static (progress_data : gmap string value) : static_fields := {|
  s_status := dget progress_data "status" (VStr "running");
  s_current_step := dget progress_data "current_step" (VNum 0);
  s_current_step_name := dget progress_data "current_step_name" (VStr "准备阶段");
  s_progress_percentage := dget progress_data "progress_percentage" (VNum 0);
  s_start_time := dget progress_data "start_time" (VNum 0);
  s_estimated_total_time := dget progress_data "estimated_total_time" (VNum 0);
  s_elapsed_time := dget progress_data "elapsed_time" (VNum 0);
  s_current_step_description :=
    dget progress_data "current_step_description" (VStr "初始化分析引擎");
  s_last_message := dget progress_data "last_message" (VStr "准备开始分析")
|}.

(** The fields [AsyncProgressDisplay._render_progress] reads (lines 82-93,
    138-151). *)
Record render_fields := {
  r_current_step : value;
  r_total_steps : value;
  r_progress_percentage : value;
  r_status : value;
  r_step_name : value;
  r_step_description : value;
  r_last_message : value;
  r_start_time : value;
  r_estimated_total_time : value;
  r_elapsed_time : value
}.

Definition parse_render (progress_data : gmap string value) : render_fields := {|
  r_current_step := dget progress_data "current_step" (VNum 0);
  r_total_steps := dget progress_data "total_steps" (VNum 8);
  r_progress_percentage := dget progress_data "progress_percentage" (VNum 0);
  r_status := dget progress_data "status" (VStr "running");
  r_step_name := dget progress_data "current_step_name" (VStr "未知");
  r_step_description := dget progress_data "current_step_description" (VStr "");
  r_last_message := dget progress_data "last_message" (VStr "");
  r_start_time := dget progress_data "start_time" (VNum 0);
  r_estimated_total_time := dget progress_data "estimated_total_time" (VNum 0);
  r_elapsed_time := dget progress_data "elapsed_time" (VNum 0)
|}.

(** The elapsed time shown for a payload (lines 141-151 and 289-301, the same
    code twice): [stored] is [progress_data.get('elapsed_time', 0)]. *)
Definition shown_elapsed (status start_time stored : value) : M value :=
  if is_str "completed" status then
    ret stored
  else
    started <- py_gt start_time 0;;
    if started then
      now <- time_time;;
      py_sub (VNum now) start_time
    else
      ret stored.

(** [steps[0]] for a truthy [steps]. *)
Definition first_step (steps : value) : res value :=
  match steps with
  | VList (x :: _) => Ok x
  | VDict _ => Raise (PyException KeyError "0")
  | VStr s => Ok (VStr (String.substring 0 1 s))
  | _ => Raise (PyException TypeError "object is not subscriptable")
  end.

(** The step plan's research depth (line 381):
    [progress_data.get('steps', [{}])[0].get('research_depth', 2)
     if progress_data.get('steps') else 2]. *)
Definition research_depth_of (progress_data : gmap string value) : res value :=
  if truthy (dget progress_data "steps" VNone) then
    match first_step (dget progress_data "steps" (VList [VDict ∅])) with
    | Ok (VDict step) => Ok (dget step "research_depth" (VNum 2))
    | Ok _ => Raise (PyException AttributeError "object has no attribute 'get'")
    | Raise e => Raise e
    end
  else Ok (VNum 2).

Definition protection_interval (research_depth : value) : Z :=
  if is_int 1 research_depth then 5 else 2.

Definition sleep_time (research_depth : value) : Z :=
  if is_int 1 research_depth then 6 else 3.

(** The condition under which a refresh is forced: the time since the last
    protected refresh is at least the protection interval of the plan's
    depth.  [entry] is the session entry of the refresh protection key. *)
Definition refresh_due (progress_data : gmap string value) (now : Z) (entry : option value)
    : Prop :=
  ∃ depth last,
    research_depth_of progress_data = Ok depth
    ∧ as_num (default (VNum 0) entry) = Some last
    ∧ protection_interval depth ≤ now - last.

(** The defaults as the specification words them (section 4.2): a numeric
    field that is missing reads as [0], a string field that is missing reads
    as a sentinel, which is not the empty string.  The fields are those the
    two decoders read, paired with what they read. *)
Definition numeric_fields_read (d : gmap string value) : list (string * value) :=
  [ ("current_step", r_current_step (parse_render d));
    ("total_steps", r_total_steps (parse_render d));
    ("progress_percentage", r_progress_percentage (parse_render d));
    ("start_time", r_start_time (parse_render d));
    ("estimated_total_time", r_estimated_total_time (parse_render d));
    ("elapsed_time", r_elapsed_time (parse_render d));
    ("current_step", s_current_step (parse_static d));
    ("progress_percentage", s_progress_percentage (parse_static d));
    ("start_time", s_start_time (parse_static d));
    ("estimated_total_time", s_estimated_total_time (parse_static d));
    ("elapsed_time", s_elapsed_time (parse_static d)) ].

Definition string_fields_read (d : gmap string value) : list (string * value) :=
  [ ("current_step_name", r_step_name (parse_render d));
    ("current_step_description", r_step_description (parse_render d));
    ("last_message", r_last_message (parse_render d));
    ("current_step_name", s_current_step_name (parse_static d));
    ("current_step_description", s_current_step_description (parse_static d));
    ("last_message", s_last_message (parse_static d)) ].

Definition defaults_as_specified (d : gmap string value) : Prop :=
  (∀ k v, (k, v) ∈ numeric_fields_read d → d !! k = None → v = VNum 0)
  ∧ (∀ k v, (k, v) ∈ string_fields_read d → d !! k = None →
            ∃ sentinel, v = VStr sentinel ∧ sentinel ≠ "").

Definition display_lock_key (id : string) : string := "progress_display_lock_" +:+ id.
Definition refresh_protection_key (id : string) : string := "refresh_protection_" +:+ id.

(** A forced refresh of job [id] at time [now]: it was due, and [now] is
    stored as the time of the last protected refresh. *)
Definition forced_refresh (id : string) (progress_data : gmap string value) (now : Z)
    (entry : option value) (evs : list event) : Prop :=
  refresh_due progress_data now entry
  ∧ SessionSet (refresh_protection_key id) (VNum now) ∈ evs.

Definition nl : string := String (Ascii.ascii_of_nat 10) "".

Section WithEnv.
Context `{!Env}.

(** ... for the record that the tracker returns for this job. *)
Definition refresh_allowed (id : string) (now : Z) (entry : option value)
    (evs : list event) : Prop :=
  ∃ d, get_progress_by_id id = Some d ∧ d ≠ ∅ ∧ forced_refresh id d now entry evs.

(** *** display_static_progress_with_controls *)

(** The "view report" click handler (lines 346-363). *)
Definition restore_results (id : string) : M unit :=
  have <- session_get "analysis_results" VNone;;
  when (negb (truthy have))
    (try_except
       (progress_data <- fetch id;;
        match progress_data with
        | Some d =>
            if negb (bool_decide (d = ∅)) && truthy (dget d "raw_results" VNone) then
              formatted_results <- format_results (dget d "raw_results" VNone);;
              when (truthy formatted_results)
                (session_set "analysis_results" formatted_results;;;
                 session_set "analysis_running" (VBool false))
            else ret tt
        | None => ret tt
        end)
       (λ e, st (Err ("恢复分析结果失败: " +:+ e)))).

(** Refresh controls of a record that was found (lines 374-411). *)
Definition refresh_controls (id : string) (progress_data : gmap string value)
    (status : value) : M unit :=
  try_except
    (last_refresh_time <- session_get (refresh_protection_key id) (VNum 0);;
     current_time <- time_time;;
     research_depth <- lift (research_depth_of progress_data);;
     st (Columns 2);;;
     pressed <- button "🔄 刷新进度" ("refresh_unified_" +:+ id);;
     when pressed
       (held <- session_contains (refresh_protection_key id);;
        when held (session_del (refresh_protection_key id));;;
        rerun);;;
     let auto_refresh_key := "auto_refresh_unified_" +:+ id in
     known <- session_contains auto_refresh_key;;
     when (negb known) (session_set auto_refresh_key (VBool true));;;
     auto_refresh <- checkbox "🔄 自动刷新" auto_refresh_key;;
     if auto_refresh && is_str "running" status then
       since <- py_sub (VNum current_time) last_refresh_time;;
       due <- py_ge since (protection_interval research_depth);;
       when due
         (session_set (refresh_protection_key id) (VNum current_time);;;
          sleep (sleep_time research_depth);;;
          rerun)
     else if auto_refresh && is_terminal status then
       session_set auto_refresh_key (VBool false)
     else ret tt)
    (λ e, log LWarning ("📊 [DOM保护] 刷新控件更新失败，跳过: " +:+ e)).

(** Refresh controls when no record was found (lines 262-279). *)
Definition default_controls (id : string) (status : value) : M unit :=
  st (Columns 2);;;
  pressed <- button "🔄 刷新进度" ("refresh_unified_default_" +:+ id);;
  when pressed rerun;;;
  let auto_refresh_key := "auto_refresh_unified_default_" +:+ id in
  known <- session_contains auto_refresh_key;;
  when (negb known) (session_set auto_refresh_key (VBool true));;;
  auto_refresh <- checkbox "🔄 自动刷新" auto_refresh_key;;
  if auto_refresh && is_str "running" status then
    sleep 3;;; rerun
  else if auto_refresh && is_terminal status then
    session_set auto_refresh_key (VBool false)
  else ret tt.

(** What is shown for a record that was found (lines 283-415). *)
Definition display_found (id : string) (progress_data : gmap string value)
    (show_refresh_controls show_view_report_button : bool) : M bool :=
  let f := parse_static progress_data in
  let status := s_status f in
  elapsed_time <- shown_elapsed status (s_start_time f) (s_elapsed_time f);;
  left <- py_sub (s_estimated_total_time f) elapsed_time;;
  remaining_time <- py_max0 left;;
  st (Write ("**当前步骤**: " +:+ py_str (s_current_step_name f)));;;
  st (Columns 3);;;
  pct <- format_1f (s_progress_percentage f);;
  st (Metric "进度" (pct +:+ "%") None);;;
  st (Metric "已用时间" (format_time elapsed_time) None);;;
  (if is_str "completed" status then st (Metric "预计剩余" "已完成" None)
   else if is_str "failed" status then st (Metric "预计剩余" "已中断" None)
   else st (Metric "预计剩余" (format_time remaining_time) None));;;
  bar <- progress_arg (s_progress_percentage f);;
  st (Progress bar);;;
  st (Write ("**当前任务**: " +:+ py_str (s_current_step_description f)));;;
  icon <- status_icon status;;
  (if is_str "completed" status then
     st (Success (icon +:+ " **当前状态**: " +:+ py_str (s_last_message f)));;;
     if show_view_report_button then
       pressed <- button "📊 查看分析报告" ("view_report_unified_" +:+ id);;
       when pressed
         (restore_results id;;;
          session_set "show_analysis_results" (VBool true);;;
          session_set "current_analysis_id" (VStr id);;;
          rerun)
     else ret tt
   else if is_str "failed" status then
     st (Err (icon +:+ " **当前状态**: " +:+ py_str (s_last_message f)))
   else
     st (Info (icon +:+ " **当前状态**: " +:+ py_str (s_last_message f))));;;
  when (show_refresh_controls && (is_str "running" status || is_str "initializing" status))
    (refresh_controls id progress_data status);;;
  ret (is_terminal status).

(** What is shown when no record was found (lines 254-281). *)
Definition display_missing (id : string) (show_refresh_controls : bool) : M bool :=
  st (Info "🔄 **当前状态**: 准备开始分析...");;;
  let status := VStr "initializing" in
  when show_refresh_controls (default_controls id status);;;
  ret false.

(** The body of the [try] block (lines 248-415). *)
Definition display_body (id : string) (show_refresh_controls show_view_report_button : bool)
    : M bool :=
  st (Markdown "### 📊 分析进度");;;
  progress_data <- fetch id;;
  if no_data progress_data then
    display_missing id show_refresh_controls
  else
    display_found id (default ∅ progress_data) show_refresh_controls show_view_report_button.

(** The [finally] block (lines 417-420). *)
Definition release_display_lock (id : string) : M unit :=
  held <- session_contains (display_lock_key id);;
  when held (session_del (display_lock_key id)).

Definition display_static_progress_with_controls (id : string)
    (show_refresh_controls show_view_report_button : bool) : M bool :=
  locked <- session_get (display_lock_key id) (VBool false);;
  if truthy locked then
    log LDebug ("📊 [显示锁定] 跳过重复显示: " +:+ id);;;
    ret false
  else
    session_set (display_lock_key id) (VBool true);;;
    finally_ (display_body id show_refresh_controls show_view_report_button)
             (release_display_lock id).

Definition display_unified_progress (id : string)
    (show_refresh_controls show_view_report_button : bool) : M bool :=
  display_static_progress_with_controls id show_refresh_controls show_view_report_button.

(** *** class AsyncProgressDisplay *)

(** [__init__] (lines 19-44). *)
Definition __init__ (id : string) (interval : Z) : M unit :=
  (λ w, (Ok tt, with_self (λ _, {| analysis_id := id; refresh_interval := interval;
                                   dom_lock := false; last_update := 0;
                                   is_completed := false |}) w, []));;;
  me <- get_self;;
  when (negb (dom_lock me))
    (set_dom_lock true;;;
     finally_
       (st (Progress 0);;; st Empty;;; st Empty;;; st Empty;;; st Empty)
       (set_dom_lock false));;;
  set_last_update 0;;;
  set_is_completed false;;;
  log LInfo ("📊 [异步显示] 初始化: " +:+ id +:+ ", 刷新间隔: " +:+ pretty interval +:+ "s").

(** [create_async_progress_display] (lines 187-189). *)
Definition create_async_progress_display (id : string) (interval : Z) : M unit :=
  __init__ id interval.

(** The "view report" click handler of the class (lines 114-131). *)
Definition render_view_report (progress_data : gmap string value) : M unit :=
  let analysis_id := dget progress_data "analysis_id" VNone in
  have <- session_get "analysis_results" VNone;;
  when (negb (truthy have))
    (try_except
       (let raw_results := dget progress_data "raw_results" VNone in
        when (truthy raw_results)
          (formatted_results <- format_results raw_results;;
           when (truthy formatted_results)
             (session_set "analysis_results" formatted_results;;;
              session_set "analysis_running" (VBool false))))
       (λ e, st (Err ("恢复分析结果失败: " +:+ e))));;;
  session_set "show_analysis_results" (VBool true);;;
  session_set "current_analysis_id" analysis_id;;;
  rerun.

(** The [try] block of [_render_progress] (lines 81-174). *)
Definition render_body (progress_data : gmap string value) : M unit :=
  let f := parse_render progress_data in
  let status := r_status f in
  bar <- progress_arg (r_progress_percentage f);;
  slot "progress_bar" (Progress bar);;;
  icon <- status_icon status;;
  slot "status_text" (Info (icon +:+ " **当前状态**: " +:+ py_str (r_last_message f)));;;
  (if is_str "failed" status then
     slot "step_info" (Err ("❌ **分析失败**: " +:+ py_str (r_last_message f)))
   else if is_str "completed" status then
     slot "step_info" (Success "🎉 **分析完成**: 所有步骤已完成");;;
     pressed <- button "📊 查看分析报告"
                  ("view_report_" +:+ py_str (dget progress_data "analysis_id" (VStr "unknown")));;
     when pressed (render_view_report progress_data)
   else
     step <- py_add (r_current_step f) (VNum 1);;
     pct <- format_1f (r_progress_percentage f);;
     slot "step_info"
       (Info ("📊 **进度**: 第 " +:+ py_str step +:+ " 步，共 " +:+ py_str (r_total_steps f)
              +:+ " 步 (" +:+ pct +:+ "%)" +:+ nl +:+ nl
              +:+ "**当前步骤**: " +:+ py_str (r_step_name f) +:+ nl +:+ nl
              +:+ "**步骤说明**: " +:+ py_str (r_step_description f))));;;
  real_elapsed_time <- shown_elapsed status (r_start_time f) (r_elapsed_time f);;
  left <- py_sub (r_estimated_total_time f) real_elapsed_time;;
  remaining_time <- py_max0 left;;
  (if is_str "completed" status then
     slot "time_info" (Success ("⏱️ **已用时间**: " +:+ format_time real_elapsed_time
                                +:+ " | **总耗时**: " +:+ format_time real_elapsed_time))
   else if is_str "failed" status then
     slot "time_info" (Err ("⏱️ **已用时间**: " +:+ format_time real_elapsed_time
                            +:+ " | **分析中断**"))
   else
     slot "time_info" (Info ("⏱️ **已用时间**: " +:+ format_time real_elapsed_time
                             +:+ " | **预计剩余**: " +:+ format_time remaining_time)));;;
  try_except
    (if is_str "running" status then
       st (Columns 3);;;
       me <- get_self;;
       pressed <- button "🔄 手动刷新" ("refresh_" +:+ analysis_id me);;
       when pressed rerun
     else slot "refresh_button" Empty)
    (λ e, log LWarning ("📊 [DOM保护] 刷新按钮更新跳过: " +:+ e)).

(** [_render_progress] (lines 78-185). *)
Definition _render_progress (progress_data : gmap string value) : M unit :=
  finally_
    (try_except
       (render_body progress_data)
       (λ e,
          log LError ("📊 [异步显示] 渲染失败: " +:+ e);;;
          try_bare
            (slot "status_text" (Err ("❌ 显示更新失败: " +:+ e)))
            (log LError ("📊 [DOM严重错误] 无法显示错误信息: " +:+ e))))
    (set_dom_lock false).

(** [update_display] (lines 46-76). *)
Definition update_display : M bool :=
  current_time <- time_time;;
  me <- get_self;;
  if dom_lock me then
    ret (negb (is_completed me))
  else if (current_time - last_update me <? refresh_interval me) && negb (is_completed me) then
    ret (negb (is_completed me))
  else
    progress_data <- fetch (analysis_id me);;
    if no_data progress_data then
      try_except
        (slot "status_text" (Err "❌ 无法获取分析进度，请检查分析是否正在运行"))
        (λ e, log LError ("📊 [DOM错误] 状态文本更新失败: " +:+ e));;;
      ret false
    else
      let progress_data := default ∅ progress_data in
      _render_progress progress_data;;;
      set_last_update current_time;;;
      let status := dget progress_data "status" (VStr "running") in
      set_is_completed (is_terminal status);;;
      ret (negb (is_terminal status)).

End WithEnv.
End Display.

(** ** web/modules/analysis_history.py *)

Module History.

(** What [datetime] answers when [apply_filters] runs. *)
Record calendar := {
  start_of_day : Z;   (* now.replace(hour=0, minute=0, second=0, microsecond=0).timestamp() *)
  days_ago : Z → Z    (* (now - timedelta(days=n)).timestamp() *)
}.

(** [status_map.get(status_filter)] (lines 95-100). *)
Definition status_map (status_filter : string) : option string :=
  if String.eqb status_filter "已完成" then Some "completed"
  else if String.eqb status_filter "运行中" then Some "running"
  else if String.eqb status_filter "失败" then Some "failed"
  else None.

(** Lines 108-116. *)
Definition cutoff_timestamp (cal : calendar) (time_filter : string) : Z :=
  if String.eqb time_filter "今天" then start_of_day cal
  else if String.eqb time_filter "最近7天" then days_ago cal 7
  else if String.eqb time_filter "最近30天" then days_ago cal 30
  else 0.

(** [r.get('status') == target_status]. *)
Definition has_status (target_status : string) (r : gmap string value) : bool :=
  is_str target_status (dget r "status" VNone).

(** [[r for r in filtered if r.get('last_update', 0) >= cutoff_timestamp]]:
    the comparison raises on a value that is not a number. *)
Fixpoint keep_since (cutoff : Z) (filtered : list (gmap string value))
    : res (list (gmap string value)) :=
  match filtered with
  | [] => Ok []
  | r :: rest =>
      match as_num (dget r "last_update" (VNum 0)) with
      | None => Raise (PyException TypeError "'>=' not supported")
      | Some t =>
          match keep_since cutoff rest with
          | Ok kept => Ok (if cutoff <=? t then r :: kept else kept)
          | Raise e => Raise e
          end
      end
  end.

Definition apply_filters (cal : calendar) (records : list (gmap string value))
    (status_filter time_filter : string) : res (list (gmap string value)) :=
  let filtered := records in
  let filtered :=
    if negb (String.eqb status_filter "全部") then
      match status_map status_filter with
      | Some target_status =>
          if truthy (VStr target_status)
          then List.filter (has_status target_status) filtered
          else filtered
      | None => filtered
      end
    else filtered in
  if negb (String.eqb time_filter "全部") then
    keep_since (cutoff_timestamp cal time_filter) filtered
  else Ok filtered.

(** Does the status filter keep the record. *)
Definition keeps_status (status_filter : string) (r : gmap string value) : bool :=
  match status_map status_filter with
  | Some target_status => has_status target_status r
  | None => true
  end.

(** The record's last update, [0] when the field is absent. *)
Definition last_update_of (r : gmap string value) : Z :=
  default 0 (as_num (dget r "last_update" (VNum 0))).

(** Does the time filter keep the record. *)
Definition keeps_time (cal : calendar) (time_filter : string) (r : gmap string value) : bool :=
  String.eqb time_filter "全部" || (cutoff_timestamp cal time_filter <=? last_update_of r).

(** The record's [last_update], when present, is a number. *)
Definition timestamped (r : gmap string value) : bool :=
  match as_num (dget r "last_update" (VNum 0)) with Some _ => true | None => false end.

(** [a / b] on integers. *)
Definition py_truediv (a b : Z) : M Q :=
  if b =? 0 then raise (PyException ZeroDivisionError "division by zero")
  else ret (Qmake (a * Z.sgn b) (Z.to_pos (Z.abs b))).

(** [len([r for r in records if r.get('status') == status])]. *)
Definition count_status (status : string) (records : list (gmap string value)) : Z :=
  Z.of_nat (length (List.filter (has_status status) records)).

Definition progress_file (analysis_id : string) : string :=
  "./data/progress_" +:+ analysis_id +:+ ".json".

Definition redis_key (analysis_id : string) : string :=
  "progress:" +:+ analysis_id.

(** [str.lower()], on the ASCII letters. *)
Definition lower_ascii (c : Ascii.ascii) : Ascii.ascii :=
  let n := Ascii.nat_of_ascii c in
  if ((65 <=? n)%nat && (n <=? 90)%nat)%bool then Ascii.ascii_of_nat (n + 32) else c.

Fixpoint lower (s : string) : string :=
  match s with
  | EmptyString => EmptyString
  | String c rest => String (lower_ascii c) (lower rest)
  end.

Fixpoint for_each {A} (l : list A) (f : A → M unit) : M unit :=
  match l with
  | [] => ret tt
  | x :: rest => f x;;; for_each rest f
  end.

Section WithEnv.
Context `{!Env}.

(** [f"{count/len(records)*100:.1f}%"]. *)
Definition percent_of (count total : Z) : M string :=
  q <- py_truediv count total;;
  ret (fmt_1f (q * 100)%Q +:+ "%").

(** [display_statistics] (lines 123-149). *)
Definition display_statistics (records : list (gmap string value)) : M unit :=
  match records with
  | [] => ret tt
  | _ =>
      let total := Z.of_nat (length records) in
      st (Subheader "📊 统计概览");;;
      st (Columns 4);;;
      st (Metric "总记录数" (pretty total) None);;;
      let completed_count := count_status "completed" records in
      delta <- percent_of completed_count total;;
      st (Metric "已完成" (pretty completed_count) (Some delta));;;
      let running_count := count_status "running" records in
      st (Metric "运行中" (pretty running_count) None);;;
      let failed_count := count_status "failed" records in
      delta <- (if 0 <? failed_count then percent_of failed_count total else ret "0%");;
      st (Metric "失败" (pretty failed_count) (Some delta))
  end.

(** [os.path.exists(path)]. *)
Definition os_path_exists (path : string) : M bool :=
  λ w, (Ok (bool_decide (path ∈ files w)), w, []).

(** [os.remove(path)]. *)
Definition os_remove (path : string) : M unit :=
  ext (OsRemove path);;;
  λ w, (Ok tt, with_files (λ fs, fs ∖ {[path]}) w, []).

(** [redis_client.delete(key)]: the number of keys removed. *)
Definition redis_delete (key : string) : M Z :=
  ext (RedisDelete key);;;
  λ w, (Ok (if bool_decide (key ∈ redis w) then 1 else 0),
        with_redis (λ ks, ks ∖ {[key]}) w, []).

(** [int(os.getenv(name, dflt))].  The interpreter's message goes on with
    the base and the literal; it is cut after its leading words. *)
Definition int_of_env (name : string) (dflt : Z) : res Z :=
  match getenv name with
  | None => Ok dflt
  | Some s =>
      match py_int s with
      | Some n => Ok n
      | None => Raise (PyException ValueError "invalid literal for int()")
      end
  end.

Definition redis_enabled : bool :=
  String.eqb (lower (default "false" (getenv "REDIS_ENABLED"))) "true".

(** The file part of [delete_analysis_record] (lines 441-448): what it adds
    to [success_count] and to [error_messages]. *)
Definition delete_file_record (analysis_id : string) : M (Z * list string) :=
  try_except
    (present <- os_path_exists (progress_file analysis_id);;
     if present then
       os_remove (progress_file analysis_id);;;
       log LInfo ("✅ 删除文件记录: " +:+ progress_file analysis_id);;;
       ret (1, [])
     else ret (0, []))
    (λ e, ret (0, ["文件删除失败: " +:+ e])).

(** The Redis part (lines 451-482). *)
Definition delete_redis_record (analysis_id : string) : M (Z * list string) :=
  try_except
    (if redis_enabled then
       redis_port <- lift (int_of_env "REDIS_PORT" 6379);;
       redis_db <- lift (int_of_env "REDIS_DB" 0);;
       result <- redis_delete (redis_key analysis_id);;
       if 0 <? result then
         log LInfo ("✅ 删除Redis记录: " +:+ redis_key analysis_id);;;
         ret (1, [])
       else ret (0, [])
     else ret (0, []))
    (λ e, ret (0, ["Redis删除失败: " +:+ e])).

(** [delete_analysis_record] (lines 431-500). *)
Definition delete_analysis_record (analysis_id : string) : M unit :=
  try_except
    (py_import "redis";;;
     file_part <- delete_file_record analysis_id;;
     redis_part <- delete_redis_record analysis_id;;
     let success_count := file_part.1 + redis_part.1 in
     let error_messages := file_part.2 ++ redis_part.2 in
     if 0 <? success_count then
       st (Success ("✅ 成功删除 " +:+ pretty success_count +:+ " 项记录"));;;
       for_each error_messages (λ msg, st (Warn ("⚠️ " +:+ msg)));;;
       rerun
     else
       st (Err "❌ 删除失败，没有找到要删除的记录");;;
       for_each error_messages (λ msg, st (Err ("❌ " +:+ msg))))
    (λ e,
       st (Err ("❌ 删除操作失败: " +:+ e));;;
       log LError ("删除分析记录失败: " +:+ analysis_id +:+ ", 错误: " +:+ e)).

(** What became of the removal on one backend. *)
Inductive outcome :=
  | Removed
  | NotFound
  | Failed (msg : string)
  | NotAttempted.

(** The outcome on the file store: it depends on the files and on
    [os.remove] only. *)
Definition durable_outcome (analysis_id : string) (w : world) : outcome :=
  if bool_decide (progress_file analysis_id ∈ files w) then
    match fault (OsRemove (progress_file analysis_id)) with
    | Some msg => Failed msg
    | None => Removed
    end
  else NotFound.

(** The outcome on Redis: it depends on the Redis configuration, on the
    server's keys and on the [delete] command only. *)
Definition expiring_outcome (analysis_id : string) (w : world) : outcome :=
  if redis_enabled then
    match int_of_env "REDIS_PORT" 6379, int_of_env "REDIS_DB" 0 with
    | Ok _, Ok _ =>
        match fault (RedisDelete (redis_key analysis_id)) with
        | Some msg => Failed msg
        | None =>
            if bool_decide (redis_key analysis_id ∈ redis w) then Removed else NotFound
        end
    | Raise (PyException _ msg), _ => Failed msg
    | _, Raise (PyException _ msg) => Failed msg
    | _, _ => NotAttempted
    end
  else NotAttempted.

(** What an outcome adds to [success_count] and to [error_messages]. *)
Definition removed (o : outcome) : Z := match o with Removed => 1 | _ => 0 end.
Definition errors (label : string) (o : outcome) : list string :=
  match o with Failed msg => [label +:+ msg] | _ => [] end.

End WithEnv.
End History.

(** ** analyze_data_storage.py *)

Module Storage.

Definition star : Ascii.ascii := Ascii.ascii_of_nat 42.
Definition slash : Ascii.ascii := Ascii.ascii_of_nat 47.

(** [fnmatch] and Redis' [KEYS], for patterns made of literal characters
    and [*] (the only ones the scans use). *)
Fixpoint glob_match (pattern : string) : string → bool :=
  match pattern with
  | EmptyString => λ s, String.eqb s ""
  | String c rest =>
      if Ascii.eqb c star then
        fix any (s : string) : bool :=
          glob_match rest s ||
          match s with
          | EmptyString => false
          | String _ s' => any s'
          end
      else
        λ s, match s with
             | EmptyString => false
             | String d s' => Ascii.eqb c d && glob_match rest s'
             end
  end.

(** The pattern with its wildcard replaced by [x]. *)
Fixpoint instantiate (pattern x : string) : string :=
  match pattern with
  | EmptyString => EmptyString
  | String c rest =>
      if Ascii.eqb c star then x +:+ instantiate rest x
      else String c (instantiate rest x)
  end.

Fixpoint has_slash (s : string) : bool :=
  match s with
  | EmptyString => false
  | String c rest => Ascii.eqb c slash || has_slash rest
  end.

Fixpoint ends_with_slash (s : string) : bool :=
  match s with
  | EmptyString => false
  | String c EmptyString => Ascii.eqb c slash
  | String _ rest => ends_with_slash rest
  end.

(** [os.path.join(a, b)] of [posixpath]. *)
Definition os_path_join (a b : string) : string :=
  match b with
  | String c _ =>
      if Ascii.eqb c slash then b
      else if String.eqb a "" || ends_with_slash a then a +:+ b
      else a +:+ "/" +:+ b
  | EmptyString =>
      if String.eqb a "" || ends_with_slash a then a else a +:+ "/"
  end.

(** Line 23. *)
Definition data_dir : string := "./data".

(** The argument of [glob.glob] (line 28). *)
Definition file_scan_pattern : string := os_path_join data_dir "progress_*.json".

(** The argument of [redis_client.keys] (line 138). *)
Definition redis_scan_pattern : string := "progress:*".

(** [s] without the prefix [p], when it has it. *)
Fixpoint strip_prefix (p s : string) : option string :=
  match p, s with
  | EmptyString, _ => Some s
  | String c p', String d s' => if Ascii.eqb c d then strip_prefix p' s' else None
  | String _ _, EmptyString => None
  end.

(** [glob.glob(os.path.join(dir, name_pattern))] over the existing paths:
    the entries of [dir] itself whose name matches. *)
Definition glob_in (dir name_pattern : string) (paths : gset string) : list string :=
  List.filter
    (λ path,
       match strip_prefix (dir +:+ "/") path with
       | Some name => negb (has_slash name) && glob_match name_pattern name
       | None => false
       end)
    (elements paths).

(** [progress_files] of [analyze_file_storage] (line 28). *)
Definition progress_files (w : world) : list string :=
  glob_in data_dir "progress_*.json" (files w).

(** [keys] of [analyze_redis_storage] (line 138). *)
Definition progress_keys (w : world) : list string :=
  List.filter (glob_match redis_scan_pattern) (elements (redis w)).

End Storage.

(** ** Concrete environments and data, for closed examples *)

Module Sample.

Definition show_num (v : value) : string :=
  match as_num v with Some z => pretty z | None => "?" end.

(** [f"{q:.1f}"]: one decimal, ties to the even tenth.  (Exact on the
    rational; Python rounds the binary float, which at a tie between two
    tenths can fall on either side.) *)
Definition one_decimal (q : Q) : string :=
  let n := Z.abs (Qnum q) * 10 in
  let d := Z.pos (Qden q) in
  let k := n / d in
  let r := n `mod` d in
  let tenths :=
    if 2 * r <? d then k
    else if d <? 2 * r then k + 1
    else if Z.even k then k else k + 1 in
  (if Qnum q <? 0 then "-" else "") +:+ pretty (tenths / 10) +:+ "." +:+ pretty (tenths `mod` 10).

(** An environment in which no outside call raises. *)
Definition quiet_env (records : string → option (gmap string value))
    (pressed : string → bool) (vars : gmap string string)
    (installed : string → bool) : Env := {|
  get_progress_by_id := records;
  format_analysis_results := λ v, v;
  format_time := show_num;
  fmt_1f := one_decimal;
  repr := λ _, "[...]";
  clicked := pressed;
  getenv := λ k, vars !! k;
  py_int := λ _, None;
  importable := installed;
  fault := λ _, None
|}.

Definition never : string → bool := λ _, false.
Definition always : string → bool := λ _, true.

Definition new_display : display := {|
  analysis_id := "job1"; refresh_interval := 1; dom_lock := false;
  last_update := 0; is_completed := false
|}.

Definition world_at (now : Z) (paths keys : list string) : world := {|
  session := ∅; clock := now; self := new_display;
  files := list_to_set paths; redis := list_to_set keys
|}.

(** A job that failed 50 time units after its start at time 100. *)
Definition failed_record : gmap string value :=
  list_to_map [("analysis_id", VStr "job1"); ("status", VStr "failed");
               ("start_time", VNum 100); ("elapsed_time", VNum 50)].

(** A running job with a depth-1 plan. *)
Definition fast_record : gmap string value :=
  list_to_map [("analysis_id", VStr "job1"); ("status", VStr "running");
               ("start_time", VNum 100);
               ("steps", VList [VDict (list_to_map [("research_depth", VNum 1)])])].

(** A payload whose percentage is not a number. *)
Definition broken_record : gmap string value :=
  list_to_map [("analysis_id", VStr "job1"); ("status", VStr "running");
               ("progress_percentage", VStr "half")].

(** A payload with the identity fields only. *)
Definition bare_record : gmap string value :=
  list_to_map [("analysis_id", VStr "job1"); ("status", VStr "running")].

Definition history : list (gmap string value) :=
  [ list_to_map [("status", VStr "completed"); ("last_update", VNum 900)];
    list_to_map [("status", VStr "running"); ("last_update", VNum 100)];
    list_to_map [("status", VStr "completed")] ].

Definition calendar_at (now : Z) : History.calendar :=
  {| History.start_of_day := now - now `mod` 86400;
     History.days_ago := λ n, now - n * 86400 |}.

(** Redis switched on, with the default port and database. *)
Definition redis_on : gmap string string := list_to_map [("REDIS_ENABLED", "True")].

(** The environment of a viewer who presses nothing, with no record stored. *)
Definition nothing_stored : Env := quiet_env (λ _, None) never ∅ always.

(** ... with the record [d] stored for every job. *)
Definition stored (d : gmap string value) : Env :=
  quiet_env (λ _, Some d) never ∅ always.

(** ... and with Redis switched on. *)
Definition redis_env : Env := quiet_env (λ _, None) never redis_on always.

(** An installation without the optional [redis] package, Redis being
    switched off (the default). *)
Definition no_redis_package : Env :=
  quiet_env (λ _, None) never ∅ (λ name, negb (String.eqb name "redis")).

End Sample.

(** ** Further vocabulary for statements about computations *)

(** [preserves R m]: the world [m] leaves behind is related by [R] to the
    world it started from, however [m] ends. *)
Definition preserves (R : world → world → Prop) {A} (m : M A) : Prop :=
  ∀ w, R w (m w).1.2.

(** [emits_only P m]: every event [m] emits satisfies [P]. *)
Definition emits_only (P : event → Prop) {A} (m : M A) : Prop :=
  ∀ w e, e ∈ (m w).2 → P e.

(** [raises_only R m]: every exception that leaves [m] satisfies [R]. *)
Definition raises_only (R : exn → Prop) {A} (m : M A) : Prop :=
  ∀ w e, (m w).1.1 = Raise e → R e.

(** A computation that can only fail with a Python [Exception]. *)
Definition only_exceptions {A} (m : M A) : Prop :=
  raises_only (λ e, match e with PyException _ _ => True | RerunException => False end) m.

(** The display object's lock is released if it was. *)
Definition still_unlocked (w w' : world) : Prop :=
  dom_lock (self w) = false → dom_lock (self w') = false.

(** The file store and the Redis server are as they were. *)
Definition same_store (w w' : world) : Prop :=
  files w' = files w ∧ redis w' = redis w.

(** The clock and the identity of the display object are as they were. *)
Definition same_schedule (w w' : world) : Prop :=
  clock w' = clock w
  ∧ refresh_interval (self w') = refresh_interval (self w)
  ∧ analysis_id (self w') = analysis_id (self w).

(** The time spent in [time.sleep], over a trace. *)
Fixpoint slept (evs : list event) : Z :=
  match evs with
  | [] => 0
  | Sleep secs :: rest => secs + slept rest
  | _ :: rest => slept rest
  end.

(** A widget call or a log line. *)
Definition is_widget (e : event) : Prop :=
  match e with St _ | Slot _ _ | Log _ _ => True | _ => False end.

(** An event that reads or shows, but changes nothing. *)
Definition is_passive (e : event) : Prop :=
  match e with
  | St _ | Slot _ _ | Log _ _ | Fetch _ | FormatResults _ => True
  | _ => False
  end.

(** ** More of Python *)

(** The calls of the pages that the progress display does not make. *)
Inductive page_call :=
  | Header (s : string)                        (* st.header(s) *)
  | Selectbox (label : string) (options : list string) (index : nat)
                                               (* st.selectbox(label, options, index=..) *)
  | Spinner (s : string)                       (* with st.spinner(s) *)
  | SwitchPage (page : string)                 (* st.switch_page(page) *)
  | Dataframe (rows : list (list (string * value))) (styles : list (list string))
      (height : Z)                             (* st.dataframe(styled_df, height=..) *)
  | AllHistory (limit : value)                 (* get_all_analysis_history(limit=..) *)
  | PersistentId                               (* get_persistent_analysis_id() *)
  | Print (s : string)                         (* print(s) *)
  | RedisPing                                  (* redis_client.ping() *)
  | RedisKeys (pattern : string)               (* redis_client.keys(pattern) *)
  | RedisGet (key : string)                    (* redis_client.get(key) *)
  | RedisTtl (key : string).                   (* redis_client.ttl(key) *)

(** What a page does: an event of the progress display, or one of the
    calls above. *)
Inductive page_event :=
  | Base (e : event)
  | Page (c : page_call).

(** What an outside function answers: a value, or a Python exception. *)
Inductive answer (A : Type) :=
  | Answer (a : A)
  | Fails (cls : pyclass) (msg : string).
Arguments Answer {A} a.
Arguments Fails {A} cls msg.

Definition of_answer {A} (x : answer A) : res A :=
  match x with
  | Answer a => Ok a
  | Fails cls msg => Raise (PyException cls msg)
  end.

(** What the added modules read from outside this repository's sources,
    beyond [Env]. *)
Class Outside := {
  (* list(d): the keys of a dict in insertion order, which a payload map
     does not record *)
  keys_in_order : gmap string value → list string;
  (* the option of the select box with this label that the viewer picked,
     by position; None while the box is untouched *)
  chosen : string → option nat;
  get_all_analysis_history : value → list (gmap string value);
  get_persistent_analysis_id : value;
  (* what datetime answers when the filters run *)
  datetime_now : History.calendar;
  (* the text the Redis server holds under a key *)
  redis_get : string → option string;
  (* the time to live the server reports for a key *)
  redis_ttl : string → Z;
  (* json.loads *)
  json_loads : string → answer value;
  (* datetime.fromtimestamp(t).strftime('%Y-%m-%d %H:%M:%S') *)
  format_timestamp : value → answer string;
  (* the call raises, with this message *)
  page_fault : page_call → option string
}.

Definition is_continuation (c : Ascii.ascii) : bool :=
  let n := Ascii.nat_of_ascii c in ((128 <=? n)%nat && (n <? 192)%nat)%bool.

(** The characters of a UTF-8 string, one string per code point. *)
Fixpoint chars (s : string) : list string :=
  match s with
  | EmptyString => []
  | String c rest =>
      match chars rest, rest with
      | piece :: more, String d _ =>
          if is_continuation d then String c piece :: more
          else String c EmptyString :: piece :: more
      | _, _ => [String c EmptyString]
      end
  end.

(** [needle in hay] on strings. *)
Fixpoint is_substring (needle hay : string) : bool :=
  String.prefix needle hay ||
  match hay with
  | EmptyString => false
  | String _ rest => is_substring needle rest
  end.

(** [sep.join(pieces)] on a list of strings. *)
Fixpoint join (sep : string) (pieces : list string) : string :=
  match pieces with
  | [] => ""
  | [x] => x
  | x :: rest => x +:+ sep +:+ join sep rest
  end.

Fixpoint all_strings (l : list value) : option (list string) :=
  match l with
  | [] => Some []
  | VStr s :: rest => cons s <$> all_strings rest
  | _ :: _ => None
  end.

Section MorePython.
Context `{!Env} `{!Outside}.

(** [iter(v)]: the items a [for] loop or [join] runs over. *)
Definition py_iter (v : value) : res (list value) :=
  match v with
  | VList l => Ok l
  | VStr s => Ok (VStr <$> chars s)
  | VDict d => Ok (VStr <$> keys_in_order d)
  | _ => Raise (PyException TypeError "object is not iterable")
  end.

(** [sep.join(v)]. *)
Definition py_join (sep : string) (v : value) : res string :=
  match py_iter v with
  | Ok items =>
      match all_strings items with
      | Some pieces => Ok (join sep pieces)
      | None => Raise (PyException TypeError "sequence item: expected str instance")
      end
  | Raise _ => Raise (PyException TypeError "can only join an iterable")
  end.

(** [v.get(k, dflt)] on a value that need not be a dict. *)
Definition py_get (v : value) (k : string) (dflt : value) : res value :=
  match v with
  | VDict d => Ok (dget d k dflt)
  | _ => Raise (PyException AttributeError "object has no attribute 'get'")
  end.

(** [i < v] for an integer [i]. *)
Definition py_lt_int (i : Z) (v : value) : res bool :=
  match as_num v with
  | Some x => Ok (i <? x)
  | None => Raise (PyException TypeError "'<' not supported")
  end.

(** [needle in v]. *)
Definition py_contains (needle : string) (v : value) : res bool :=
  match v with
  | VStr s => Ok (is_substring needle s)
  | VList l => Ok (existsb (is_str needle) l)
  | VDict d => Ok (bool_decide (is_Some (d !! needle)))
  | _ => Raise (PyException TypeError "argument is not iterable")
  end.

(** [st.button(label)] without a key: Streamlit identifies the widget by
    its label. *)
Definition button_unkeyed (label : string) : M bool :=
  st (Button label "");;; ret (clicked label).

(** [time.sleep(secs)] for a computed duration: a negative one is refused. *)
Definition time_sleep (secs : Z) : M unit :=
  if secs <? 0 then raise (PyException ValueError "sleep length must be non-negative")
  else sleep secs.

(** [for i, x in enumerate(l, start): f i x]. *)
Fixpoint for_each_indexed {A} (start : Z) (l : list A) (f : Z → A → M unit) : M unit :=
  match l with
  | [] => ret tt
  | x :: rest => f start x;;; for_each_indexed (start + 1) rest f
  end.

End MorePython.

(** A sleep of the rate limiter of job [id]: as long as the sleep time of
    the research depth of the record the tracker holds for the job. *)
Definition sleeps_for_depth `{!Env} (id : string) (e : event) : Prop :=
  ∀ secs, e = Sleep secs →
    ∃ d depth,
      get_progress_by_id id = Some d
      ∧ Display.research_depth_of d = Ok depth
      ∧ secs = Display.sleep_time depth.

(** ** web/components/async_progress_display.py, continued *)

Module Refresher.
Import Display.

Section WithEnv.
Context `{!Env}.

(** The [while True] loop of [auto_refresh_progress] (lines 198-213), run
    for at most [rounds] rounds: [true] when the loop was left, [false] when
    the rounds ran out first. *)
Fixpoint refresh_rounds (rounds : nat) (start_time max_duration : Z) : M bool :=
  match rounds with
  | O => ret false
  | S rounds' =>
      now <- time_time;;
      if max_duration <? now - start_time then
        slot "placeholder"
          (Warn "⚠️ 分析时间过长，已停止自动刷新。请手动刷新页面查看最新状态。");;;
        ret true
      else
        should_continue <- update_display;;
        if negb should_continue then ret true
        else
          me <- get_self;;
          time_sleep (refresh_interval me);;;
          refresh_rounds rounds' start_time max_duration
  end.

(** [auto_refresh_progress] (lines 191-215); [display] is the receiver
    object of the world.  [None] when the rounds ran out inside the loop. *)
Definition auto_refresh_progress (rounds : nat) (max_duration : Z) : M (option unit) :=
  start_time <- time_time;;
  st Empty;;;
  left <- refresh_rounds rounds start_time max_duration;;
  if left then
    me <- get_self;;
    log LInfo ("📊 [异步显示] 自动刷新结束: " +:+ analysis_id me);;;
    ret (Some tt)
  else ret None.

(** An exception that a viewer's click explains: the rerun request of a
    pressed button. *)
Definition asked_rerun (e : exn) : Prop :=
  match e with
  | RerunException => ∃ key, clicked key = true
  | PyException _ _ => True
  end.

(** Is it time for [update_display] to poll the tracker (lines 51-56). *)
Definition poll_due (w : world) : bool :=
  negb (dom_lock (self w))
  && ((refresh_interval (self w) <=? clock w - last_update (self w))
      || is_completed (self w)).

End WithEnv.
End Refresher.

(** ** web/modules/analysis_history.py, continued *)

Module Actions.
Import History.

(** [get_depth_text] (lines 503-510): the key of [depth_map.get] has to be
    hashable, and [True == 1]. *)
Definition get_depth_text (depth : value) : res string :=
  match depth with
  | VList _ | VDict _ => Raise (PyException TypeError "unhashable type")
  | _ =>
      Ok (if is_int 1 depth then "快速分析"
          else if is_int 2 depth then "标准分析"
          else if is_int 3 depth then "深度分析"
          else "未知")
  end.

(** [row[label]] on the row of a table, a sequence of labelled cells. *)
Fixpoint cell (label : string) (row : list (string * value)) : res value :=
  match row with
  | [] => Raise (PyException KeyError label)
  | (l, v) :: rest => if String.eqb l label then Ok v else cell label rest
  end.

Section WithEnv.
Context `{!Env} `{!Outside}.

(** [style_status_row] (lines 197-212). *)
Definition style_status_row (row : list (string * value)) : res (list string) :=
  let styles := replicate (length row) "" in
  match cell "状态" row with
  | Raise e => Raise e
  | Ok status_text =>
      match py_contains "✅" status_text with
      | Raise e => Raise e
      | Ok true => Ok (replicate (length row) "background-color: #d4edda")
      | Ok false =>
          match py_contains "🔄" status_text with
          | Raise e => Raise e
          | Ok true => Ok (replicate (length row) "background-color: #d1ecf1")
          | Ok false =>
              match py_contains "❌" status_text with
              | Raise e => Raise e
              | Ok true => Ok (replicate (length row) "background-color: #f8d7da")
              | Ok false => Ok styles
              end
          end
      end
  end.

(** One entry of [table_data] in [display_history_table] (lines 159-169),
    in the order of the dict display. *)
Definition table_row (record : gmap string value) : M (list (string * value)) :=
  pct <- format_1f (dget record "progress_percentage" (VNum 0));;
  analysts <- (if truthy (dget record "analysts" VNone)
               then lift (py_join ", " (dget record "analysts" (VList [])))
               else ret "未知");;
  depth <- lift (get_depth_text (dget record "research_depth" VNone));;
  ret [ ("股票代码", dget record "stock_symbol" (VStr "未知"));
        ("市场", dget record "market_type" (VStr "未知"));
        ("状态", VStr (py_str (dget record "status_icon" (VStr "❓")) +:+ " "
                       +:+ py_str (dget record "status_text" (VStr "未知"))));
        ("进度", VStr (pct +:+ "%"));
        ("开始时间", dget record "start_time_formatted" (VStr "未知"));
        ("耗时", dget record "duration_formatted" (VStr "未知"));
        ("分析师", VStr analysts);
        ("研究深度", VStr depth);
        ("操作", VStr "action_buttons") ].

(** [df.drop(label, axis=1)], row by row. *)
Definition drop_column (label : string) (row : list (string * value))
    : list (string * value) :=
  List.filter (λ c, negb (String.eqb c.1 label)) row.

(** The icon of step [i] in [display_record_details] (lines 318-319). *)
Definition step_icon (i : Z) (current_step : value) : res string :=
  if is_int i current_step then Ok "▶️"
  else
    match py_lt_int i current_step with
    | Ok true => Ok "✅"
    | Ok false => Ok "⏸️"
    | Raise e => Raise e
    end.

(** The detailed progress of [display_record_details] (lines 301-320), the
    body of its [try]. *)
Definition detailed_progress (analysis_id : value) : M unit :=
  progress_data <- fetch (py_str analysis_id);;
  when (negb (no_data progress_data))
    (let progress_data := default ∅ progress_data in
     st (Markdown "---");;;
     st (Subheader "📈 详细进度");;;
     st (Columns 2);;;
     st (Markdown ("**当前步骤**: "
                   +:+ py_str (dget progress_data "current_step_name" (VStr "未知"))));;;
     st (Markdown ("**步骤描述**: "
                   +:+ py_str (dget progress_data "current_step_description" (VStr "无"))));;;
     st (Markdown ("**最后消息**: "
                   +:+ py_str (dget progress_data "last_message" (VStr "无"))));;;
     let steps := dget progress_data "steps" (VList []) in
     when (truthy steps)
       (st (Markdown "**分析步骤**:");;;
        items <- lift (py_iter steps);;
        for_each_indexed 0 items (λ i step,
          icon <- lift (step_icon i (dget progress_data "current_step" (VNum 0)));;
          name <- lift (py_get step "name" (VStr ("步骤" +:+ pretty (i + 1))));;
          st (Markdown (icon +:+ " " +:+ py_str name))))).

(** [display_record_details] (lines 277-323). *)
Definition display_record_details (record : gmap string value) : M unit :=
  let field k := py_str (dget record k VNone) in
  st (Subheader ("📊 详细信息 - " +:+ field "stock_symbol"));;;
  st (Columns 2);;;
  st (Markdown ("**分析ID**: `" +:+ field "analysis_id" +:+ "`"));;;
  st (Markdown ("**股票代码**: " +:+ field "stock_symbol"));;;
  st (Markdown ("**市场类型**: " +:+ field "market_type"));;;
  st (Markdown ("**状态**: " +:+ field "status_icon" +:+ " " +:+ field "status_text"));;;
  pct <- format_1f (dget record "progress_percentage" (VNum 0));;
  st (Markdown ("**进度**: " +:+ pct +:+ "%"));;;
  st (Markdown ("**开始时间**: " +:+ field "start_time_formatted"));;;
  st (Markdown ("**最后更新**: " +:+ field "last_update_formatted"));;;
  st (Markdown ("**持续时间**: " +:+ field "duration_formatted"));;;
  analysts <- lift (py_join ", " (dget record "analysts" (VList [])));;
  st (Markdown ("**分析师**: " +:+ analysts));;;
  depth <- lift (get_depth_text (dget record "research_depth" VNone));;
  st (Markdown ("**研究深度**: " +:+ depth));;;
  try_except
    (detailed_progress (dget record "analysis_id" VNone))
    (λ e, st (Err ("获取详细进度失败: " +:+ e))).

(** The summary of the decision in [load_and_display_report] (lines
    356-370). *)
Definition decision_summary (formatted_results : value) : M unit :=
  decision <- lift (py_get formatted_results "decision" VNone);;
  when (truthy decision)
    (st (Markdown "### 📊 投资建议摘要");;;
     st (Columns 2);;;
     decision_type <- lift (py_get decision "decision_type" (VStr "未知"));;
     st (Markdown ("**投资建议**: " +:+ py_str decision_type));;;
     confidence_level <- lift (py_get decision "confidence_level" (VStr "未知"));;
     st (Markdown ("**置信度**: " +:+ py_str confidence_level));;;
     target_price <- lift (py_get decision "target_price" (VStr "未设定"));;
     st (Markdown ("**目标价格**: " +:+ py_str target_price));;;
     risk_level <- lift (py_get decision "risk_level" (VStr "未知"));;
     st (Markdown ("**风险等级**: " +:+ py_str risk_level));;;
     summary <- lift (py_get decision "summary" VNone);;
     when (truthy summary)
       (st (Markdown "**决策摘要**:");;;
        st (Markdown (py_str summary)))).

(** [load_and_display_report] (lines 326-374). *)
Definition load_and_display_report (analysis_id : value) : M unit :=
  try_except
    (st (Subheader "📋 分析报告");;;
     progress_data <- fetch (py_str analysis_id);;
     if no_data progress_data then
       st (Err "❌ 无法获取分析数据")
     else
       let raw_results := dget (default ∅ progress_data) "raw_results" VNone in
       if negb (truthy raw_results) then
         st (Err "❌ 分析结果不存在")
       else
         formatted_results <- format_results raw_results;;
         if negb (truthy formatted_results) then
           st (Err "❌ 分析结果格式化失败")
         else
           session_set "analysis_results" formatted_results;;;
           session_set "current_analysis_id" analysis_id;;;
           session_set "analysis_running" (VBool false);;;
           st (Success "✅ 报告已加载到主页面，请切换到「📊 股票分析」页面查看完整报告");;;
           decision_summary formatted_results)
    (λ e,
       st (Err ("❌ 加载报告失败: " +:+ e));;;
       log LError ("加载报告失败: " +:+ py_str analysis_id +:+ ", 错误: " +:+ e)).

(** Can the report of the job be loaded: the tracker answers with a record
    that holds results, and formatting them gives something. *)
Definition report_available (analysis_id : value) : bool :=
  let raw_results :=
    dget (default ∅ (get_progress_by_id (py_str analysis_id))) "raw_results" VNone in
  bool_decide (fault (Fetch (py_str analysis_id)) = None)
  && negb (no_data (get_progress_by_id (py_str analysis_id)))
  && truthy raw_results
  && bool_decide (fault (FormatResults raw_results) = None)
  && truthy (format_analysis_results raw_results).

(** The session after a report was loaded (lines 349-351). *)
Definition with_report (analysis_id : value) (s : gmap string value) : gmap string value :=
  let raw_results :=
    dget (default ∅ (get_progress_by_id (py_str analysis_id))) "raw_results" VNone in
  <["analysis_running" := VBool false]>
    (<["current_analysis_id" := analysis_id]>
       (<["analysis_results" := format_analysis_results raw_results]> s)).

(** The event removes the record of this job, if it removes anything. *)
Definition removes_only (analysis_id : string) (e : event) : Prop :=
  match e with
  | OsRemove p => p = progress_file analysis_id
  | RedisDelete k => k = redis_key analysis_id
  | _ => True
  end.

(** The colour [style_status_row] gives a row with this status text. *)
Definition status_colour (status_text : string) : string :=
  if is_substring "✅" status_text then "background-color: #d4edda"
  else if is_substring "🔄" status_text then "background-color: #d1ecf1"
  else if is_substring "❌" status_text then "background-color: #f8d7da"
  else "".

(** The text of the status cell of a record's row (line 162). *)
Definition status_cell (record : gmap string value) : string :=
  py_str (dget record "status_icon" (VStr "❓")) +:+ " "
  +:+ py_str (dget record "status_text" (VStr "未知")).

(** [confirm_delete_record] (lines 412-428). *)
Definition confirm_delete_record (analysis_id : string) : M unit :=
  st (Subheader "🗑️ 删除确认");;;
  st (Warn ("您确定要删除分析记录 `" +:+ analysis_id +:+ "` 吗？"));;;
  st (Markdown "**注意**: 此操作将永久删除以下数据：");;;
  st (Markdown "- 分析进度记录");;;
  st (Markdown "- 分析结果（如果有）");;;
  st (Markdown "- 相关的缓存文件");;;
  st (Columns 2);;;
  confirmed <- button_unkeyed "❌ 确认删除";;
  when confirmed (delete_analysis_record analysis_id);;;
  cancelled <- button_unkeyed "🚫 取消";;
  when cancelled rerun.

End WithEnv.
End Actions.

(** ** The effect monad of the pages *)

Definition P (A : Type) : Type := world → res A * world * list page_event.

Definition pret {A} (a : A) : P A := λ w, (Ok a, w, []).

Definition pbind {A B} (m : P A) (k : A → P B) : P B := λ w,
  match m w with
  | (Ok a, w1, ev1) =>
      match k a w1 with
      | (r, w2, ev2) => (r, w2, ev1 ++ ev2)
      end
  | (Raise e, w1, ev1) => (Raise e, w1, ev1)
  end.

Declare Scope page_scope.
Delimit Scope page_scope with page.
Notation "x <- m ;; k" := (pbind m (λ x, k))
  (at level 100, m at next level, right associativity) : page_scope.
Notation "m ;;; k" := (pbind m (λ _, k))
  (at level 100, right associativity) : page_scope.

(** A computation of the progress display, run on a page. *)
Definition of_m {A} (m : M A) : P A := λ w,
  match m w with
  | (r, w1, ev1) => (r, w1, Base <$> ev1)
  end.

(** [try: m  except Exception as e: h e], on a page. *)
Definition ptry_except {A} (m : P A) (h : string → P A) : P A := λ w,
  match m w with
  | (Raise (PyException _ msg), w1, ev1) =>
      match h msg w1 with
      | (r, w2, ev2) => (r, w2, ev1 ++ ev2)
      end
  | other => other
  end.

Definition pwhen (b : bool) (m : P unit) : P unit := if b then m else pret tt.

(** [pafter ev1 x]: the outcome [x] of a continuation, behind the events
    [ev1] already emitted. *)
Definition pafter {A} (ev1 : list page_event) (x : res A * world * list page_event)
    : res A * world * list page_event :=
  let '(r, w2, ev2) := x in (r, w2, ev1 ++ ev2).

(** [pemits_only Q m]: every event the page computation [m] emits
    satisfies [Q]. *)
Definition pemits_only (Q : page_event → Prop) {A} (m : P A) : Prop :=
  ∀ w e, e ∈ (m w).2 → Q e.

(** [ppreserves R m]: the world the page computation [m] leaves behind is
    related by [R] to the world it started from. *)
Definition ppreserves (R : world → world → Prop) {A} (m : P A) : Prop :=
  ∀ w, R w (m w).1.2.

(** [harmless m]: the page computation [m] leaves the world as it was and
    never asks for a rerun. *)
Definition harmless {A} (m : P A) : Prop :=
  ∀ w, (m w).1.2 = w ∧ (m w).1.1 ≠ Raise RerunException.

(** [all or nothing] of a list of results. *)
Fixpoint collect {A} (l : list (res A)) : res (list A) :=
  match l with
  | [] => Ok []
  | Ok a :: rest =>
      match collect rest with
      | Ok done => Ok (a :: done)
      | Raise e => Raise e
      end
  | Raise e :: _ => Raise e
  end.

(** [[f(x) for x in l]], for an [f] with effects. *)
Fixpoint map_m {A B} (f : A → M B) (l : list A) : M (list B) :=
  match l with
  | [] => ret []
  | x :: rest => y <- f x;; ys <- map_m f rest;; ret (y :: ys)
  end.

(** An event that removes a file or a Redis key. *)
Definition is_removal (e : event) : Prop :=
  match e with OsRemove _ | RedisDelete _ => True | _ => False end.

(** A call into Streamlit or the logger. *)
Definition is_show (e : event) : Prop :=
  match e with St _ | Log _ _ => True | _ => False end.

(** [answers Q m]: whenever [m] returns, what it returns satisfies [Q]. *)
Definition answers {A} (Q : A → Prop) (m : M A) : Prop :=
  ∀ w a, (m w).1.1 = Ok a → Q a.

(** A pattern made of literal characters only. *)
Fixpoint literal (pattern : string) : bool :=
  match pattern with
  | EmptyString => true
  | String c rest => negb (Ascii.eqb c Storage.star) && literal rest
  end.

(** ** The history page and the application's session (analysis_history.py,
       app.py) *)

Module Pages.
Import History Actions.
#[local] Open Scope page_scope.

Section WithEnv.
Context `{!Env} `{!Outside}.

(** A call of a page that leaves this repository. *)
Definition page (c : page_call) : P unit := λ w,
  match page_fault c with
  | Some msg => (Raise (PyException ExternalError msg), w, [Page c])
  | None => (Ok tt, w, [Page c])
  end.

(** The position the select box [label] answers with, among [n] options
    and with the default [index]: a pick outside the options is no pick. *)
Definition picked (label : string) (n index : nat) : nat :=
  match chosen label with
  | Some i => if (i <? n)%nat then i else index
  | None => index
  end.

(** [st.selectbox(label, [first, ...others], index=index)] over a literal
    list of options. *)
Definition selectbox {A} (label : string) (first : A) (others : list A)
    (show : A → string) (index : nat) : P A :=
  page (Selectbox label (show <$> first :: others) index);;;
  pret (nth (picked label (S (length others)) index) (first :: others) first).

(** [st.selectbox(label, range(len(options)), format_func=lambda x: options[x])]:
    [None] when there is nothing to select. *)
Definition selectbox_index (label : string) (options : list string) : P (option nat) :=
  page (Selectbox label options 0);;;
  pret (match options with
        | [] => None
        | _ => Some (picked label (length options) 0)
        end).

(** [st.switch_page(page)]: like [st.rerun()], it ends the run. *)
Definition switch_page {A} (target : string) : P A :=
  page (SwitchPage target);;; of_m rerun.

(** [setup_reanalysis] (lines 377-409). *)
Definition setup_reanalysis (record : gmap string value) : P unit :=
  of_m (st (Subheader "🔄 重新分析设置"));;;
  let stock_symbol := dget record "stock_symbol" VNone in
  let market_type := dget record "market_type" (VStr "美股") in
  if negb (truthy stock_symbol) || is_str "未知股票" stock_symbol then
    of_m (st (Err "❌ 无法获取股票代码，无法重新分析"))
  else
    of_m (st (Info ("📊 准备重新分析股票: " +:+ py_str stock_symbol
                    +:+ " (" +:+ py_str market_type +:+ ")")));;;
    of_m (session_set "last_stock_symbol" stock_symbol);;;
    of_m (session_set "last_market_type" market_type);;;
    of_m (st (Columns 2));;;
    of_m (st (Markdown "**原分析配置**:"));;;
    analysts <- of_m (lift (py_join ", " (dget record "analysts" (VList []))));;
    of_m (st (Markdown ("- 分析师: " +:+ analysts)));;;
    depth <- of_m (lift (get_depth_text (dget record "research_depth" VNone)));;
    of_m (st (Markdown ("- 研究深度: " +:+ depth)));;;
    of_m (st (Markdown "**操作说明**:"));;;
    of_m (st (Markdown "1. 点击下方按钮跳转到分析页面"));;;
    of_m (st (Markdown "2. 股票代码将自动填入"));;;
    of_m (st (Markdown "3. 根据需要调整分析配置"));;;
    of_m (st (Markdown "4. 启动新的分析"));;;
    pressed <- of_m (button_unkeyed "🚀 前往分析页面");;
    pwhen pressed (switch_page "股票分析").

(** [display_record_actions] (lines 243-274). *)
Definition display_record_actions (record : gmap string value) : P unit :=
  let analysis_id := dget record "analysis_id" VNone in
  let status := dget record "status" VNone in
  let has_results := dget record "has_results" (VBool false) in
  of_m (st (Markdown ("**选中记录**: " +:+ py_str (dget record "stock_symbol" VNone)
                      +:+ " (" +:+ py_str (dget record "status_text" VNone) +:+ ")")));;;
  of_m (st (Columns 4));;;
  details <- of_m (button "📊 查看详情" ("details_" +:+ py_str analysis_id));;
  pwhen details (of_m (display_record_details record));;;
  (if is_str "completed" status && truthy has_results then
     report <- of_m (button "📋 查看报告" ("report_" +:+ py_str analysis_id));;
     pwhen report (of_m (load_and_display_report analysis_id))
   else
     of_m (st (Button "📋 查看报告" "")));;;
  again <- of_m (button "🔄 重新分析" ("rerun_" +:+ py_str analysis_id));;
  pwhen again (setup_reanalysis record);;;
  remove <- of_m (button "🗑️ 删除" ("delete_" +:+ py_str analysis_id));;
  pwhen remove (of_m (confirm_delete_record (py_str analysis_id))).

(** One entry of [options] in [display_action_buttons] (lines 226-229). *)
Definition action_option (record : gmap string value) : string :=
  py_str (dget record "stock_symbol" (VStr "未知")) +:+ " - "
  +:+ py_str (dget record "status_text" (VStr "未知")) +:+ " - "
  +:+ py_str (dget record "last_update_formatted" (VStr "未知")).

(** [display_action_buttons] (lines 215-240); the index the select box
    answers with is a position of [records]. *)
Definition display_action_buttons (records : list (gmap string value)) : P unit :=
  of_m (st (Subheader "🔧 快速操作"));;;
  match records with
  | [] => pret tt
  | first :: _ =>
      selected_index <- selectbox_index "选择要操作的记录" (action_option <$> records);;
      match selected_index with
      | Some i => display_record_actions (nth i records first)
      | None => pret tt
      end
  end.

(** [display_history_table] (lines 152-194).  The styles are computed when
    [st.dataframe] renders the styled frame. *)
Definition display_history_table (records : list (gmap string value)) : P unit :=
  of_m (st (Subheader "📋 历史记录列表"));;;
  table_data <- of_m (map_m table_row records);;
  match table_data with
  | [] => of_m (st (Info "📝 没有要显示的记录"))
  | _ =>
      let display_df := drop_column "操作" <$> table_data in
      styles <- of_m (lift (collect (style_status_row <$> display_df)));;
      page (Dataframe display_df styles 400);;;
      of_m (st (Markdown "---"));;;
      display_action_buttons records
  end.

(** The query of [render_analysis_history] (lines 59-65): [None] when it
    failed and the failure was reported. *)
Definition query_history (record_limit : value) : P (option (list (gmap string value))) :=
  page (Spinner "📊 正在获取历史记录...");;;
  ptry_except
    (page (AllHistory record_limit);;;
     pret (Some (get_all_analysis_history record_limit)))
    (λ e,
       of_m (st (Err ("❌ 获取历史记录失败: " +:+ e)));;;
       of_m (log LError ("获取历史记录失败: " +:+ e));;;
       pret None).

(** [render_analysis_history] (lines 24-86). *)
Definition render_analysis_history : P unit :=
  page (Header "📈 历史记录");;;
  of_m (st (Markdown "查看和管理您的股票分析历史记录"));;;
  of_m (st (Columns 4));;;
  record_limit <- selectbox "显示数量" (VNum 20) [VNum 50; VNum 100; VNum 200] py_str 1;;
  status_filter <- selectbox "状态筛选" "全部" ["已完成"; "运行中"; "失败"] id 0;;
  time_filter <- selectbox "时间范围" "全部" ["今天"; "最近7天"; "最近30天"] id 0;;
  refresh <- of_m (button_unkeyed "🔄 刷新");;
  pwhen refresh (of_m rerun);;;
  answer <- query_history record_limit;;
  match answer with
  | None => pret tt
  | Some [] =>
      of_m (st (Info "📝 暂无历史记录。开始您的第一个股票分析吧！"));;;
      start <- of_m (button_unkeyed "🚀 开始分析");;
      pwhen start (switch_page "pages/stock_analysis.py")
  | Some history_records =>
      filtered_records <-
        of_m (lift (apply_filters datetime_now history_records status_filter time_filter));;
      match filtered_records with
      | [] => of_m (st (Warn "🔍 没有符合筛选条件的记录"))
      | _ =>
          of_m (display_statistics filtered_records);;;
          of_m (st (Markdown "---"));;;
          display_history_table filtered_records
      end
  end.

(** A removal on the history page that the viewer asked for twice: it
    concerns a record of [records], and both the delete button of that
    record and the confirm button report a click. *)
Definition confirmed_removal (records : list (gmap string value)) (e : page_event) : Prop :=
  match e with
  | Base e =>
      is_removal e →
      ∃ record, record ∈ records
        ∧ removes_only (py_str (dget record "analysis_id" VNone)) e
        ∧ clicked ("delete_" +:+ py_str (dget record "analysis_id" VNone)) = true
        ∧ clicked "❌ 确认删除" = true
  | Page _ => True
  end.

(** The results of [record] may be formatted on its row of buttons only
    when it is completed, has results, and its report button reports a
    click. *)
Definition report_asked (record : gmap string value) (e : page_event) : Prop :=
  match e with
  | Base (FormatResults _) =>
      is_str "completed" (dget record "status" VNone) = true
      ∧ truthy (dget record "has_results" (VBool false)) = true
      ∧ clicked ("report_" +:+ py_str (dget record "analysis_id" VNone)) = true
  | _ => True
  end.

(** Can [setup_reanalysis] use the stock symbol (line 384). *)
Definition usable_symbol (stock_symbol : value) : bool :=
  truthy stock_symbol && negb (is_str "未知股票" stock_symbol).

(** *** app.py *)

(** [if key not in st.session_state: st.session_state[key] = v]. *)
Definition session_default (key : string) (v : value) : M unit :=
  (known <- session_contains key;;
   when (negb known) (session_set key v))%py.

(** [st.session_state.<key>], read. *)
Definition session_attr (key : string) : M value := λ w,
  match session w !! key with
  | Some v => (Ok v, w, [])
  | None => (Raise (PyException AttributeError ("st.session_state has no attribute " +:+ key)),
             w, [])
  end.

(** [initialize_session_state] (lines 58-87). *)
Definition initialize_session_state : P unit :=
  of_m (session_default "analysis_running" (VBool false));;;
  of_m (session_default "analysis_results" VNone);;;
  of_m (session_default "show_analysis_results" (VBool false));;;
  of_m (session_default "current_analysis_id" VNone);;;
  of_m (session_default "llm_provider" (VStr "dashscope"));;;
  of_m (session_default "llm_model" (VStr "qwen-plus"));;;
  of_m (session_default "form_config" (VDict ∅));;;
  ptry_except
    (page PersistentId;;;
     let persistent_id := get_persistent_analysis_id in
     if truthy persistent_id then
       current <- of_m (session_attr "current_analysis_id");;
       pwhen (negb (truthy current))
         (of_m (session_set "current_analysis_id" persistent_id);;;
          of_m (log LInfo ("📊 [会话恢复] 恢复分析ID: " +:+ py_str persistent_id)))
     else pret tt)
    (λ e, of_m (log LDebug ("📊 [会话恢复] 恢复失败: " +:+ e))).

(** The defaults of [initialize_session_state] (lines 61-78). *)
Definition session_defaults : gmap string value :=
  list_to_map
    [ ("analysis_running", VBool false); ("analysis_results", VNone);
      ("show_analysis_results", VBool false); ("current_analysis_id", VNone);
      ("llm_provider", VStr "dashscope"); ("llm_model", VStr "qwen-plus");
      ("form_config", VDict ∅) ].

(** The keys [initialize_session_state] gives a default. *)
Definition session_keys : list string :=
  ["analysis_running"; "analysis_results"; "show_analysis_results";
   "current_analysis_id"; "llm_provider"; "llm_model"; "form_config"].

End WithEnv.
End Pages.

(** ** analyze_data_storage.py, continued *)

Module Script.
Import History Storage Pages.
#[local] Open Scope page_scope.

(** ["=" * n]. *)
Fixpoint rule (n : nat) : string :=
  match n with
  | O => ""
  | S n' => String (Ascii.ascii_of_nat 61) (rule n')
  end.

Section WithEnv.
Context `{!Env} `{!Outside}.

(** [print(s)]. *)
Definition say (s : string) : P unit := λ w, (Ok tt, w, [Page (Print s)]).

(** [try: m  except ImportError: a  except Exception as e: h e]. *)
Definition ptry_import {A} (m : P A) (a : P A) (h : string → P A) : P A := λ w,
  match m w with
  | (Raise (PyException ImportError _), w1, ev1) => pafter ev1 (a w1)
  | (Raise (PyException _ msg), w1, ev1) => pafter ev1 (h msg w1)
  | other => other
  end.

(** The body of the [try] of one key (lines 143-165). *)
Definition describe_key (i : Z) (key : string) : P unit :=
  page (RedisGet key);;;
  let data := redis_get key in
  if truthy (from_option VStr VNone data) then
    progress_data <- of_m (lift (of_answer (json_loads (default "" data))));;
    status <- of_m (lift (py_get progress_data "status" (VStr "未知")));;
    last_update <- of_m (lift (py_get progress_data "last_update" (VNum 0)));;
    raw_results <- of_m (lift (py_get progress_data "raw_results" (VDict ∅)));;
    let stock_symbol :=
      match raw_results with
      | VDict r => dget r "stock_symbol" (VStr "未知")
      | _ => VStr "未知"
      end in
    update_str <- (if truthy last_update
                   then of_m (lift (of_answer (format_timestamp last_update)))
                   else pret "未知时间");;
    say ("  " +:+ pretty i +:+ ". 键: " +:+ key);;;
    say ("     股票: " +:+ py_str stock_symbol);;;
    say ("     状态: " +:+ py_str status);;;
    say ("     更新时间: " +:+ update_str);;;
    say ""
  else pret tt.

(** [for i, key in enumerate(keys, start)] with its [try] (lines 141-168). *)
Fixpoint describe_keys (start : Z) (keys : list string) : P unit :=
  match keys with
  | [] => pret tt
  | key :: rest =>
      ptry_except (describe_key start key)
        (λ e, say ("  ❌ 解析Redis记录失败: " +:+ key +:+ " - " +:+ e));;;
      describe_keys (start + 1) rest
  end.

(** [int(os.getenv(name, dflt))], on a page. *)
Definition env_int (name : string) (dflt : Z) : P Z := of_m (lift (int_of_env name dflt)).

(** The body of the [try] of [analyze_redis_storage] (lines 102-179). *)
Definition redis_report : P unit :=
  if negb redis_enabled then say "❌ Redis未启用"
  else
    of_m (py_import "redis");;;
    let redis_host := default "localhost" (getenv "REDIS_HOST") in
    redis_port <- env_int "REDIS_PORT" 6379;;
    redis_db <- env_int "REDIS_DB" 0;;
    page RedisPing;;;
    say ("✅ Redis连接成功: " +:+ redis_host +:+ ":" +:+ pretty redis_port
         +:+ " (数据库: " +:+ pretty redis_db +:+ ")");;;
    page (RedisKeys redis_scan_pattern);;;
    keys <- (λ w, (Ok (progress_keys w), w, []));;
    say ("📊 找到 " +:+ pretty (Z.of_nat (length keys)) +:+ " 个Redis记录");;;
    describe_keys 1 keys;;;
    match keys with
    | [] => pret tt
    | sample_key :: _ =>
        page (RedisTtl sample_key);;;
        let ttl := redis_ttl sample_key in
        if 0 <? ttl then say ("⏰ 记录过期时间: " +:+ pretty ttl +:+ " 秒")
        else if ttl =? -1 then say "♾️ 记录永不过期"
        else say "⚠️ 记录已过期或不存在"
    end.

(** [analyze_redis_storage] (lines 96-184). *)
Definition analyze_redis_storage : P unit :=
  say (Display.nl +:+ "🔄 Redis存储分析");;;
  say (rule 50);;;
  ptry_import redis_report
    (say "❌ Redis库未安装")
    (λ e, say ("❌ Redis连接失败: " +:+ e)).

End WithEnv.
End Script.

(** ** More environments and data, for closed examples *)

Module Fixtures.
Import Sample.

(** A viewer who leaves the select boxes alone, a tracker whose history is
    [records], the persisted id [pid]; the page calls raise as [faults]
    says. *)
Definition outside (records : list (gmap string value)) (pid : value)
    (faults : page_call → option string) : Outside := {|
  keys_in_order := λ d, (map_to_list d).*1;
  chosen := λ _, None;
  get_all_analysis_history := λ _, records;
  get_persistent_analysis_id := pid;
  datetime_now := calendar_at 1000;
  redis_get := λ _, None;
  redis_ttl := λ _, -1;
  json_loads := λ _, Fails ValueError "Expecting value";
  format_timestamp := λ t, Answer (show_num t);
  page_fault := faults
|}.

Definition no_faults : page_call → option string := λ _, None.

(** The history query fails. *)
Definition history_down : page_call → option string := λ c,
  match c with
  | AllHistory _ => Some "connection refused"
  | _ => None
  end.

(** A completed job with results, as the history lists it. *)
Definition finished_record : gmap string value :=
  list_to_map [("analysis_id", VStr "job1"); ("status", VStr "completed");
               ("has_results", VBool true); ("stock_symbol", VStr "AAPL");
               ("status_icon", VStr "✅"); ("status_text", VStr "已完成");
               ("progress_percentage", VNum 100); ("last_update", VNum 900);
               ("analysts", VList [VStr "market"; VStr "news"]);
               ("research_depth", VNum 1)].

(** What the tracker holds for that job. *)
Definition finished_progress : gmap string value :=
  list_to_map [("analysis_id", VStr "job1"); ("status", VStr "completed");
               ("raw_results", VDict (list_to_map [("stock_symbol", VStr "AAPL")]))].

(** The viewer presses the delete button of job1 and the confirm button. *)
Definition deleting : Env :=
  quiet_env (λ _, None)
    (λ key, String.eqb key "delete_job1" || String.eqb key "❌ 确认删除") ∅ always.

(** The viewer presses the report button of job1. *)
Definition reporting : Env :=
  quiet_env (λ _, Some finished_progress) (λ key, String.eqb key "report_job1") ∅ always.

(** The viewer presses the refresh button of job1, which is running. *)
Definition refreshing : Env :=
  quiet_env (λ _, Some fast_record) (λ key, String.eqb key "refresh_unified_job1") ∅ always.

End Fixtures.
(** * Properties *)

(** ** Reasoning about computations *)

Section Logic.

Lemma bind_run {A B} (m : M A) (k : A → M B) w :
  bind m k w =
  match m w with
  | (Ok a, w1, ev1) => (((k a w1).1.1, (k a w1).1.2), ev1 ++ (k a w1).2)
  | (Raise e, w1, ev1) => (Raise e, w1, ev1)
  end.
Proof.
  unfold bind. destruct (m w) as [[[a|e] w1] ev1]; [|done].
  by destruct (k a w1) as [[??]?].
Qed.

Lemma bind_step {A B} (m : M A) (k : A → M B) w :
  bind m k w =
  match m w with
  | (Ok a, w1, ev1) => after ev1 (k a w1)
  | (Raise e, w1, ev1) => (Raise e, w1, ev1)
  end.
Proof. reflexivity. Qed.

Lemma after_nil {A} (x : res A * world * list event) : after [] x = x.
Proof. by destruct x as [[??]?]. Qed.

Lemma after_fst {A} ev1 (x : res A * world * list event) : (after ev1 x).1 = x.1.
Proof. by destruct x as [[??]?]. Qed.

Lemma after_snd {A} ev1 (x : res A * world * list event) : (after ev1 x).2 = ev1 ++ x.2.
Proof. by destruct x as [[??]?]. Qed.

Variable K : string → Prop.

Lemma calm_ret {A} (a : A) : calm K (ret a).
Proof. intros w. simpl. split; [intros s; apply not_elem_of_nil | done]. Qed.

Lemma calm_raise {A} e : calm K (@raise A e).
Proof. intros w. simpl. split; [intros s; apply not_elem_of_nil | done]. Qed.

Lemma calm_rerun {A} : calm K (@rerun A).
Proof. apply calm_raise. Qed.

Lemma calm_type_error {A} msg : calm K (@type_error A msg).
Proof. apply calm_raise. Qed.

Lemma calm_lift {A} (r : res A) : calm K (lift r).
Proof. intros w. simpl. split; [intros s; apply not_elem_of_nil | done]. Qed.

Lemma calm_emit e : (∀ s, e ≠ Sleep s) → calm K (emit e).
Proof.
  intros He w. simpl. split; [|done].
  intros s Hs. apply list_elem_of_singleton in Hs. by eapply He.
Qed.

Lemma calm_bind {A B} (m : M A) (f : A → M B) :
  calm K m → (∀ a, calm K (f a)) → calm K (bind m f).
Proof.
  intros Hm Hf w. rewrite bind_run.
  destruct (Hm w) as (Hs & Hc & Hk).
  destruct (m w) as [[[a|e] w1] ev1]; simpl in *; [|done].
  destruct (Hf a w1) as (Hs' & Hc' & Hk').
  split; [|split; [congruence | intros k0 Hk0; rewrite Hk' by done; auto]].
  intros s [?|?]%elem_of_app; [by eapply Hs | by eapply Hs'].
Qed.

Lemma calm_try_except {A} (m : M A) (h : string → M A) :
  calm K m → (∀ e, calm K (h e)) → calm K (try_except m h).
Proof.
  intros Hm Hh w. unfold try_except.
  destruct (Hm w) as (Hs & Hc & Hk).
  destruct (m w) as [[[a|[cls msg|]] w1] ev1]; simpl in *; [done| |done].
  destruct (Hh msg w1) as (Hs' & Hc' & Hk').
  destruct (h msg w1) as [[r w2] ev2]; simpl in *.
  split; [|split; [congruence | intros k0 Hk0; rewrite Hk' by done; auto]].
  intros s [?|?]%elem_of_app; [by eapply Hs | by eapply Hs'].
Qed.

Lemma calm_try_bare {A} (m h : M A) :
  calm K m → calm K h → calm K (try_bare m h).
Proof.
  intros Hm Hh w. unfold try_bare.
  destruct (Hm w) as (Hs & Hc & Hk).
  destruct (m w) as [[[a|e] w1] ev1]; simpl in *; [done|].
  destruct (Hh w1) as (Hs' & Hc' & Hk').
  destruct (h w1) as [[r w2] ev2]; simpl in *.
  split; [|split; [congruence | intros k0 Hk0; rewrite Hk' by done; auto]].
  intros s [?|?]%elem_of_app; [by eapply Hs | by eapply Hs'].
Qed.

Lemma calm_finally {A} (m : M A) (c : M unit) :
  calm K m → calm K c → calm K (finally_ m c).
Proof.
  intros Hm Hc w. unfold finally_.
  destruct (Hm w) as (Hs & Hcl & Hk).
  destruct (m w) as [[r w1] ev1]; simpl in *.
  destruct (Hc w1) as (Hs' & Hc' & Hk').
  destruct (c w1) as [[[[]|e] w2] ev2]; simpl in *.
  all: split; [|split; [congruence | intros k0 Hk0; rewrite Hk' by done; auto]].
  all: intros s [?|?]%elem_of_app; [by eapply Hs | by eapply Hs'].
Qed.

Lemma calm_when b (m : M unit) : calm K m → calm K (when b m).
Proof. intros Hm. destruct b; [done | apply calm_ret]. Qed.

Lemma calm_session_get k' d : calm K (session_get k' d).
Proof. intros w. simpl. split; [intros s; apply not_elem_of_nil | done]. Qed.

Lemma calm_session_contains k' : calm K (session_contains k').
Proof. intros w. simpl. split; [intros s; apply not_elem_of_nil | done]. Qed.

Lemma calm_session_set k' v : ¬ K k' → calm K (session_set k' v).
Proof.
  intros Hne w. simpl.
  split; [|split; [done | intros k Hk; apply lookup_insert_ne; congruence]].
  intros s Hs. apply list_elem_of_singleton in Hs. done.
Qed.

Lemma calm_session_del k' : ¬ K k' → calm K (session_del k').
Proof.
  intros Hne w. simpl.
  split; [|split; [done | intros k Hk; apply lookup_delete_ne; congruence]].
  intros s Hs. apply list_elem_of_singleton in Hs. done.
Qed.

Lemma calm_time_time : calm K time_time.
Proof. intros w. simpl. split; [intros s; apply not_elem_of_nil | done]. Qed.

Lemma calm_get_self : calm K get_self.
Proof. intros w. simpl. split; [intros s; apply not_elem_of_nil | done]. Qed.

Lemma calm_set_dom_lock b : calm K (set_dom_lock b).
Proof. intros w. simpl. split; [intros s; apply not_elem_of_nil | done]. Qed.

Lemma calm_py_sub a b : calm K (py_sub a b).
Proof. unfold py_sub. destruct (as_num a), (as_num b); apply calm_ret || apply calm_raise. Qed.

Lemma calm_py_add a b : calm K (py_add a b).
Proof. unfold py_add. destruct (as_num a), (as_num b); apply calm_ret || apply calm_raise. Qed.

Lemma calm_py_gt a n : calm K (py_gt a n).
Proof. unfold py_gt. destruct (as_num a); apply calm_ret || apply calm_raise. Qed.

Lemma calm_py_ge a n : calm K (py_ge a n).
Proof. unfold py_ge. destruct (as_num a); apply calm_ret || apply calm_raise. Qed.

Lemma calm_py_max0 a : calm K (py_max0 a).
Proof. unfold py_max0. destruct (as_num a); apply calm_ret || apply calm_raise. Qed.

Lemma calm_status_icon v : calm K (status_icon v).
Proof. destruct v; apply calm_ret || apply calm_raise. Qed.

Context `{!Env}.

Lemma calm_ext e : (∀ s, e ≠ Sleep s) → calm K (ext e).
Proof.
  intros He w. unfold ext. destruct (fault e); simpl; (split; [|done]).
  all: intros s0 Hs; apply list_elem_of_singleton in Hs; by eapply He.
Qed.

Lemma calm_st c : calm K (st c).
Proof. by apply calm_ext. Qed.

Lemma calm_slot n c : calm K (slot n c).
Proof. by apply calm_ext. Qed.

Lemma calm_log l msg : calm K (log l msg).
Proof. by apply calm_emit. Qed.

Lemma calm_button l key : calm K (button l key).
Proof. apply calm_bind; [apply calm_st | intros; apply calm_ret]. Qed.

Lemma calm_checkbox l key : calm K (checkbox l key).
Proof.
  apply calm_bind; [apply calm_st | intros].
  apply calm_bind; [apply calm_session_get | intros; apply calm_ret].
Qed.

Lemma calm_fetch id : calm K (fetch id).
Proof. apply calm_bind; [by apply calm_ext | intros; apply calm_ret]. Qed.

Lemma calm_format_results raw : calm K (format_results raw).
Proof. apply calm_bind; [by apply calm_ext | intros; apply calm_ret]. Qed.

Lemma calm_format_1f v : calm K (format_1f v).
Proof.
  unfold format_1f. destruct (as_num v); [apply calm_ret|].
  destruct v; apply calm_raise.
Qed.

Lemma calm_progress_arg v : calm K (progress_arg v).
Proof. unfold progress_arg. destruct (as_num v); apply calm_ret || apply calm_raise. Qed.

(** *** Computations that sleep under a condition *)

Variable P : list event → Prop.
Hypothesis P_stable : stable P.

Lemma soi_intro {A} (m : M A) w : P (m w).2 → sleeps_only_if P m w.
Proof. by intros HP s _. Qed.

Lemma soi_mono (P' : list event → Prop) {A} (m : M A) w :
  (∀ evs, P' evs → P evs) → sleeps_only_if P' m w → sleeps_only_if P m w.
Proof. intros HP Hm s Hs. by eapply HP, Hm. Qed.

Lemma soi_calm {A} (m : M A) w : calm K m → sleeps_only_if P m w.
Proof. intros Hm s Hs. by destruct (Hm w) as [Hn _]; destruct (Hn s). Qed.

Lemma soi_bind {A B} (m : M A) (f : A → M B) w :
  calm K m →
  (∀ a w1, clock w1 = clock w → (∀ k, K k → session w1 !! k = session w !! k) →
           sleeps_only_if P (f a) w1) →
  sleeps_only_if P (bind m f) w.
Proof.
  intros Hm Hf s. rewrite bind_run.
  destruct (Hm w) as (Hs & Hc & Hk).
  destruct (m w) as [[[a|e] w1] ev1]; simpl in *.
  - intros [?|Hin]%elem_of_app; [by destruct (Hs s)|].
    rewrite <- (app_nil_r (f a w1).2). apply P_stable. by eapply Hf.
  - intros ?. by destruct (Hs s).
Qed.

Lemma soi_bind_pure {A B} (m : M A) (f : A → M B) w a :
  m w = (Ok a, w, []) → sleeps_only_if P (f a) w → sleeps_only_if P (bind m f) w.
Proof. intros Hm Hf s. rewrite bind_run, Hm. simpl. apply Hf. Qed.

Lemma soi_bind_raise {A B} (m : M A) (f : A → M B) w e w1 :
  m w = (Raise e, w1, []) → sleeps_only_if P (bind m f) w.
Proof. intros Hm s. rewrite bind_run, Hm. simpl. by intros ?%not_elem_of_nil. Qed.

Lemma soi_bind_l {A B} (m : M A) (f : A → M B) w :
  sleeps_only_if P m w → (∀ a, calm K (f a)) → sleeps_only_if P (bind m f) w.
Proof.
  intros Hm Hf s. rewrite bind_run.
  specialize (Hm s).
  destruct (m w) as [[[a|e] w1] ev1]; simpl in *; [|done].
  intros [Hin|Hin]%elem_of_app.
  - apply (P_stable []). by apply Hm.
  - by destruct (Hf a w1) as [Hn _]; destruct (Hn s).
Qed.

Lemma soi_try_except {A} (m : M A) (h : string → M A) w :
  sleeps_only_if P m w → (∀ e, calm K (h e)) → sleeps_only_if P (try_except m h) w.
Proof.
  intros Hm Hh s. unfold try_except.
  specialize (Hm s).
  destruct (m w) as [[[a|[cls msg|]] w1] ev1]; simpl in *; [done| |done].
  destruct (Hh msg w1) as [Hn _].
  destruct (h msg w1) as [[r w2] ev2]; simpl in *.
  intros [Hin|Hin]%elem_of_app; [|by destruct (Hn s)].
  apply (P_stable []). by apply Hm.
Qed.

Lemma soi_finally {A} (m : M A) (c : M unit) w :
  sleeps_only_if P m w → calm K c → sleeps_only_if P (finally_ m c) w.
Proof.
  intros Hm Hc s. unfold finally_.
  specialize (Hm s).
  destruct (m w) as [[r w1] ev1]; simpl in *.
  destruct (Hc w1) as [Hn _].
  destruct (c w1) as [[[[]|e] w2] ev2]; simpl in *.
  all: intros [Hin|Hin]%elem_of_app; [|by destruct (Hn s)].
  all: apply (P_stable []); by apply Hm.
Qed.

(** The condition may speak of the clock and of one session entry, as long
    as the steps before the sleep leave both alone. *)
Lemma soi_frame_bind (Q : Z → option value → list event → Prop) key
    {A B} (m : M A) (f : A → M B) w :
  (∀ now entry, stable (Q now entry)) →
  calm (eq key) m →
  (∀ a w1, sleeps_only_if (Q (clock w1) (session w1 !! key)) (f a) w1) →
  sleeps_only_if (Q (clock w) (session w !! key)) (bind m f) w.
Proof.
  intros HQ Hm Hf s. rewrite bind_run.
  destruct (Hm w) as (Hs & Hc & Hk).
  destruct (m w) as [[[a|e] w1] ev1]; simpl in *.
  - intros [?|Hin]%elem_of_app; [by destruct (Hs s)|].
    rewrite <- Hc, <- (Hk key eq_refl), <- (app_nil_r (f a w1).2).
    apply HQ. by eapply Hf.
  - intros ?. by destruct (Hs s).
Qed.

Lemma soi_frame_fetch (Q : Z → option value → list event → Prop) key {B} id
    (f : option (gmap string value) → M B) w :
  (∀ now entry, stable (Q now entry)) →
  (∀ w1, sleeps_only_if (Q (clock w1) (session w1 !! key)) (f (get_progress_by_id id)) w1) →
  sleeps_only_if (Q (clock w) (session w !! key)) (bind (fetch id) f) w.
Proof.
  intros HQ Hf s. rewrite bind_run. unfold fetch. rewrite bind_run. unfold ext.
  destruct (fault (Fetch id)); simpl.
  - by intros ?%list_elem_of_singleton.
  - intros [?|Hin]%elem_of_cons; [done|].
    change (Fetch id :: ?l) with ([Fetch id] ++ l).
    rewrite <- (app_nil_r (f _ w).2). apply HQ. by eapply Hf.
Qed.

End Logic.

Create HintDb calm discriminated.
#[global] Hint Resolve calm_ret calm_raise calm_rerun calm_type_error calm_lift calm_session_get
  calm_session_contains calm_time_time calm_get_self calm_set_dom_lock
  calm_py_sub calm_py_add calm_py_gt calm_py_ge calm_py_max0 calm_status_icon
  calm_st calm_slot calm_log calm_button calm_checkbox calm_fetch
  calm_format_results calm_format_1f calm_progress_arg : calm.

(** The key written is not one of the protected ones. *)
Ltac fresh_key := first [ by intros [] | by intros ->%eq_sym | discriminate ].

(** One step of a proof that a computation is [calm]. *)
Ltac calm_step :=
  match goal with
  | |- calm _ (bind _ _) => apply calm_bind; [|intros]
  | |- calm _ (try_except _ _) => apply calm_try_except; [|intros]
  | |- calm _ (finally_ _ _) => apply calm_finally
  | |- calm _ (when _ _) => apply calm_when
  | |- calm _ (session_set _ _) => apply calm_session_set; fresh_key
  | |- calm _ (session_del _) => apply calm_session_del; fresh_key
  | H : ?c = false |- calm _ (if _ && ?c then _ else _) => rewrite H, andb_false_r
  | |- calm _ (if ?b then _ else _) => destruct b
  | |- calm _ (match ?x with _ => _ end) => destruct x
  | |- calm _ _ => solve [auto with calm]
  end.

Module DisplayFacts.
Import Display.

Section WithEnv.
Context `{!Env}.

Lemma calm_restore_results id' id : calm (eq (refresh_protection_key id')) (restore_results id).
Proof. unfold restore_results, refresh_protection_key. repeat calm_step. Qed.

Lemma calm_default_controls id' id status :
  is_str "running" status = false →
  calm (eq (refresh_protection_key id')) (default_controls id status).
Proof.
  intros Hs. unfold default_controls, refresh_protection_key. repeat calm_step.
Qed.

Lemma calm_display_missing id' id ctl : calm (eq (refresh_protection_key id')) (display_missing id ctl).
Proof.
  unfold display_missing. repeat calm_step. by apply calm_default_controls.
Qed.

Lemma calm_shown_elapsed K status start stored : calm K (shown_elapsed status start stored).
Proof. unfold shown_elapsed. repeat calm_step. Qed.

Lemma forced_refresh_stable id d now entry : stable (forced_refresh id d now entry).
Proof.
  intros pre evs post [Hdue Hin]. split; [done|].
  rewrite !elem_of_app. auto.
Qed.

Lemma refresh_allowed_stable id now entry : stable (refresh_allowed id now entry).
Proof.
  intros pre evs post (d & Hd & Hne & Hf). exists d.
  split; [done|]. split; [done|]. by apply forced_refresh_stable.
Qed.

Lemma refresh_controls_gate id d status w :
  sleeps_only_if
    (forced_refresh id d (clock w) (session w !! refresh_protection_key id))
    (refresh_controls id d status) w.
Proof.
  pose proof (forced_refresh_stable id d (clock w)
                (session w !! refresh_protection_key id)) as Hst.
  unfold refresh_controls.
  apply (soi_try_except (λ _, False)); [done| |intros; repeat calm_step].
  eapply soi_bind_pure; [reflexivity|].
  eapply soi_bind_pure; [reflexivity|].
  destruct (research_depth_of d) as [depth|e] eqn:Hd;
    [eapply soi_bind_pure; [reflexivity|] | by eapply soi_bind_raise].
  do 6 (apply (soi_bind (λ _, False)); [done | by repeat calm_step | intros ? ? _ _]).
  match goal with |- sleeps_only_if _ (if ?b then _ else _) _ => destruct b end;
    [|apply (soi_calm (λ _, False)); by repeat calm_step].
  unfold py_sub, dget. simpl.
  destruct (as_num (default (VNum 0) (session w !! refresh_protection_key id)))
    as [last|] eqn:Hlast; [|by eapply soi_bind_raise].
  eapply soi_bind_pure; [reflexivity|].
  eapply soi_bind_pure; [reflexivity|].
  destruct (protection_interval depth <=? clock w - last) eqn:Hdue;
    [|apply (soi_calm (λ _, False)), calm_ret].
  apply soi_intro. split.
  - exists depth, last. by apply Z.leb_le in Hdue.
  - simpl. rewrite elem_of_cons. by left.
Qed.

#[local] Hint Resolve calm_shown_elapsed calm_restore_results calm_display_missing : calm.

(** [display_found] sleeps only when the refresh is due. *)
Lemma display_found_gate id d ctl rep w :
  sleeps_only_if
    (forced_refresh id d (clock w) (session w !! refresh_protection_key id))
    (display_found id d ctl rep) w.
Proof.
  unfold display_found.
  repeat (apply (soi_frame_bind (forced_refresh id d) (refresh_protection_key id));
          [apply forced_refresh_stable
          |by unfold refresh_protection_key; repeat calm_step | intros ? ?]).
  apply (soi_bind_l (eq (refresh_protection_key id)));
    [apply forced_refresh_stable| |intros; apply calm_ret].
  match goal with |- sleeps_only_if _ (when ?b _) _ => destruct b end;
    [apply refresh_controls_gate | apply (soi_calm (λ _, False)), calm_ret].
Qed.

(** The body of the [try] block sleeps only when the refresh is due. *)
Lemma display_body_gate id ctl rep w :
  sleeps_only_if (refresh_allowed id (clock w) (session w !! refresh_protection_key id))
    (display_body id ctl rep) w.
Proof.
  unfold display_body.
  apply (soi_frame_bind (refresh_allowed id) (refresh_protection_key id));
    [apply refresh_allowed_stable | by repeat calm_step | intros _ w1].
  apply (soi_frame_fetch (refresh_allowed id) (refresh_protection_key id));
    [apply refresh_allowed_stable|]. intros w2.
  destruct (get_progress_by_id id) as [d|] eqn:Hd; simpl.
  - case_bool_decide.
    + apply (soi_calm (eq (refresh_protection_key id))), calm_display_missing.
    + eapply soi_mono; [|apply display_found_gate]. intros evs Hdue. by exists d.
  - apply (soi_calm (eq (refresh_protection_key id))), calm_display_missing.
Qed.

Lemma display_static_gate id ctl rep w :
  sleeps_only_if (refresh_allowed id (clock w) (session w !! refresh_protection_key id))
    (display_static_progress_with_controls id ctl rep) w.
Proof.
  unfold display_static_progress_with_controls.
  apply (soi_frame_bind (refresh_allowed id) (refresh_protection_key id));
    [apply refresh_allowed_stable | by repeat calm_step | intros locked w1].
  destruct (truthy locked).
  { apply (soi_calm (λ _, False)). by repeat calm_step. }
  apply (soi_frame_bind (refresh_allowed id) (refresh_protection_key id));
    [apply refresh_allowed_stable
    |by unfold refresh_protection_key, display_lock_key; repeat calm_step | intros _ w2].
  apply (soi_finally (λ _, False)); [apply refresh_allowed_stable|apply display_body_gate|].
  unfold release_display_lock. by repeat calm_step.
Qed.

(** *** Runs in which no outside call raises *)

Section NoFault.
Hypothesis no_fault : ∀ e, fault e = None.

Lemma ext_ok e w : ext e w = (Ok tt, w, [e]).
Proof. unfold ext. by rewrite no_fault. Qed.

Lemma st_ok c w : st c w = (Ok tt, w, [St c]).
Proof. apply ext_ok. Qed.

Lemma button_ok l key w : button l key w = (Ok (clicked key), w, [St (Button l key)]).
Proof. unfold button. by rewrite bind_run, st_ok. Qed.

Lemma checkbox_ok l key w :
  checkbox l key w = (Ok (truthy (dget (session w) key (VBool false))), w, [St (Checkbox l key)]).
Proof. unfold checkbox. by rewrite bind_run, st_ok. Qed.

Lemma fetch_ok id w : fetch id w = (Ok (get_progress_by_id id), w, [Fetch id]).
Proof. unfold fetch. by rewrite bind_run, ext_ok. Qed.

Ltac run :=
  repeat first
    [ progress simpl
    | rewrite bind_step
    | progress rewrite ?st_ok, ?button_ok, ?checkbox_ok, ?fetch_ok, ?ext_ok ].

Lemma default_controls_initializing id w :
  (default_controls id (VStr "initializing") w).1.1
  = if clicked ("refresh_unified_default_" +:+ id) then Raise RerunException else Ok tt.
Proof.
  unfold default_controls. run.
  destruct (clicked _); [done|]. run.
  case_bool_decide; run; by destruct (truthy _).
Qed.

Lemma display_body_missing id ctl rep w :
  no_data (get_progress_by_id id) = true →
  let out := display_body id ctl rep w in
  (∃ evs, out.2 = [St (Markdown "### 📊 分析进度"); Fetch id;
                   St (Info "🔄 **当前状态**: 准备开始分析...")] ++ evs)
  ∧ out.1.1 = if ctl && clicked ("refresh_unified_default_" +:+ id)
              then Raise RerunException else Ok false.
Proof.
  intros Hnd. unfold display_body, display_missing. run.
  rewrite Hnd. run.
  pose proof (default_controls_initializing id w) as Hd.
  destruct ctl; simpl.
  - destruct (default_controls _ _ _) as [[[[]|e] w1] ev1]; simpl in *.
    all: split; [by eexists|]. all: destruct (clicked _); congruence.
  - split; [by eexists|done].
Qed.

End NoFault.

(** Whatever happens in the body, the [finally] block leaves no display lock
    in the session. *)
Lemma finally_releases_lock id {A} (body : M A) w :
  session (finally_ body (release_display_lock id) w).1.2 !! display_lock_key id = None.
Proof.
  unfold finally_. destruct (body w) as [[r w1] ev1].
  unfold release_display_lock. rewrite bind_step. simpl.
  case_bool_decide as Hheld; simpl.
  - apply lookup_delete_eq.
  - by apply eq_None_not_Some.
Qed.

Lemma finally_keeps_outcome id {A} (body : M A) w :
  (finally_ body (release_display_lock id) w).1.1 = (body w).1.1
  ∧ ∃ evs, (finally_ body (release_display_lock id) w).2 = (body w).2 ++ evs
           ∧ ∀ e, e ∈ evs → e = SessionDel (display_lock_key id).
Proof.
  unfold finally_. destruct (body w) as [[r w1] ev1].
  unfold release_display_lock. rewrite bind_step. simpl.
  case_bool_decide; simpl; (split; [done|eexists; split; [done|]]).
  - by intros e ->%list_elem_of_singleton.
  - by intros e ?%not_elem_of_nil.
Qed.

(** What a call does when the lock is held. *)
Lemma display_lock_drops_overlapping_poll_aux id ctl rep w :
  truthy (dget (session w) (display_lock_key id) (VBool false)) = true →
  display_static_progress_with_controls id ctl rep w
  = (Ok false, w, [Log LDebug ("📊 [显示锁定] 跳过重复显示: " +:+ id)]).
Proof.
  intros Hl. unfold display_static_progress_with_controls.
  rewrite bind_step. simpl. rewrite Hl. by rewrite bind_step.
Qed.

(** What a call does once it holds the lock. *)
Lemma display_static_unlocked id ctl rep w :
  truthy (dget (session w) (display_lock_key id) (VBool false)) = false →
  display_static_progress_with_controls id ctl rep w
  = after [SessionSet (display_lock_key id) (VBool true)]
      (finally_ (display_body id ctl rep) (release_display_lock id)
         (with_session (insert (display_lock_key id) (VBool true)) w)).
Proof.
  intros Hl. unfold display_static_progress_with_controls.
  rewrite bind_step. simpl. rewrite Hl. rewrite bind_step. simpl.
  apply after_nil.
Qed.

(** C1.  A call of [display_static_progress_with_controls] that finds the
    session display lock of its [analysis_id] set returns [False] at once:
    the world is unchanged and the only event is a debug log line, so
    nothing is rendered and no progress is fetched (the poll is dropped).
    Otherwise the first thing the call does is to set the lock, and the
    whole body (fetch and rendering) runs in a session that holds it. *)
Theorem display_lock_drops_overlapping_poll id ctl rep w :
  let out := display_static_progress_with_controls id ctl rep w in
  let locked := with_session (insert (display_lock_key id) (VBool true)) w in
  if truthy (dget (session w) (display_lock_key id) (VBool false))
  then out = (Ok false, w, [Log LDebug ("📊 [显示锁定] 跳过重复显示: " +:+ id)])
  else out = after [SessionSet (display_lock_key id) (VBool true)]
               (finally_ (display_body id ctl rep) (release_display_lock id) locked)
       ∧ session locked !! display_lock_key id = Some (VBool true).
Proof.
  intros out locked. subst out locked.
  destruct (truthy _) eqn:Hl.
  - by apply display_lock_drops_overlapping_poll_aux.
  - split; [by apply display_static_unlocked | apply lookup_insert_eq].
Qed.

(** A poll of the same job that arrives while the lock is held, as it is
    throughout [display_body], is dropped. *)
Lemma poll_during_render_is_dropped id ctl' rep' w :
  let locked := with_session (insert (display_lock_key id) (VBool true)) w in
  display_static_progress_with_controls id ctl' rep' locked
  = (Ok false, locked, [Log LDebug ("📊 [显示锁定] 跳过重复显示: " +:+ id)]).
Proof.
  intros locked.
  pose proof (display_lock_drops_overlapping_poll_aux id ctl' rep' locked) as Haux.
  apply Haux. unfold locked, dget. simpl. by rewrite lookup_insert_eq.
Qed.

(** C9.  Every call of [display_static_progress_with_controls] that
    acquires the display lock (it did not find it set) leaves a session with
    no lock entry for its [analysis_id], whatever the outcome of the call:
    a normal return, an exception raised while rendering, or a rerun. *)
Theorem display_lock_always_released id ctl rep w :
  truthy (dget (session w) (display_lock_key id) (VBool false)) = false →
  session (display_static_progress_with_controls id ctl rep w).1.2 !! display_lock_key id = None.
Proof.
  intros Hl. rewrite display_static_unlocked by done.
  rewrite after_fst. apply finally_releases_lock.
Qed.

(** C6.  When the tracker has no record for the job ([None] or an empty
    payload), no outside call raises and the display lock is free,
    [display_static_progress_with_controls] renders the "preparing" message
    right after the fetch, never sleeps for an automatic refresh (the status
    is taken to be [initializing], not [running]), raises no exception, and
    returns [False]; the only other outcome is the rerun that the viewer
    asks for by pressing the refresh button. *)
Theorem missing_record_shows_initializing id ctl rep w :
  no_data (get_progress_by_id id) = true →
  (∀ e, fault e = None) →
  truthy (dget (session w) (display_lock_key id) (VBool false)) = false →
  let out := display_static_progress_with_controls id ctl rep w in
  (∃ evs, out.2 = [SessionSet (display_lock_key id) (VBool true);
                   St (Markdown "### 📊 分析进度"); Fetch id;
                   St (Info "🔄 **当前状态**: 准备开始分析...")] ++ evs)
  ∧ out.1.1 = (if ctl && clicked ("refresh_unified_default_" +:+ id)
               then Raise RerunException else Ok false)
  ∧ (∀ cls msg, out.1.1 ≠ Raise (PyException cls msg))
  ∧ (∀ s, Sleep s ∉ out.2).
Proof.
  intros Hnd Hnf Hl out.
  assert (out.1.1 = (if ctl && clicked ("refresh_unified_default_" +:+ id)
                     then Raise RerunException else Ok false)) as Hres.
  { subst out. rewrite display_static_unlocked, after_fst by done.
    destruct (finally_keeps_outcome id (display_body id ctl rep)
                (with_session (insert (display_lock_key id) (VBool true)) w)) as [-> _].
    by apply display_body_missing. }
  split; [|split; [done|split]].
  - subst out. rewrite display_static_unlocked, after_snd by done.
    destruct (finally_keeps_outcome id (display_body id ctl rep)
                (with_session (insert (display_lock_key id) (VBool true)) w))
      as (_ & evs & -> & _).
    destruct (display_body_missing Hnf id ctl rep
                (with_session (insert (display_lock_key id) (VBool true)) w) Hnd)
      as [[evs' ->] _].
    exists (evs' ++ evs). simpl. by rewrite ?app_assoc, ?app_comm_cons.
  - intros cls msg. rewrite Hres. by destruct (_ && _).
  - intros s Hs. destruct (display_static_gate id ctl rep w s Hs) as (d & Hd & Hne & _).
    rewrite Hd in Hnd. simpl in Hnd. by case_bool_decide.
Qed.

Lemma render_progress_releases_dom_lock d w :
  dom_lock (self (_render_progress d w).1.2) = false.
Proof.
  unfold _render_progress, finally_.
  destruct (try_except _ _ w) as [[r w1] ev1]. done.
Qed.

(** [update_display] on a job without a record: an error text, guarded, and
    [False] (no further refresh). *)
Lemma update_display_missing w :
  dom_lock (self w) = false →
  (clock w - last_update (self w) <? refresh_interval (self w))
    && negb (is_completed (self w)) = false →
  fault (Fetch (analysis_id (self w))) = None →
  no_data (get_progress_by_id (analysis_id (self w))) = true →
  (update_display w).1.1 = Ok false.
Proof.
  intros Hl Hdue Hf Hnd. unfold update_display.
  rewrite bind_step. simpl. rewrite bind_step. simpl. rewrite Hl, Hdue.
  rewrite bind_step. unfold fetch. rewrite bind_step. unfold ext. rewrite Hf. simpl.
  rewrite Hnd. rewrite bind_step. unfold try_except, slot, ext.
  by destruct (fault (Slot _ _)).
Qed.

Lemma update_display_skips_while_locked w :
  dom_lock (self w) = true →
  update_display w = (Ok (negb (is_completed (self w))), w, []).
Proof.
  intros Hl. unfold update_display. rewrite bind_step. simpl.
  rewrite bind_step. simpl. by rewrite Hl.
Qed.


(** *** The elapsed time that is shown *)

Lemma shown_elapsed_completed start stored w :
  shown_elapsed (VStr "completed") start stored w = (Ok stored, w, []).
Proof. reflexivity. Qed.

Lemma shown_elapsed_live status start stored t w :
  is_str "completed" status = false → as_num start = Some t → 0 < t →
  shown_elapsed status start stored w = (Ok (VNum (clock w - t)), w, []).
Proof.
  intros Hs Ht Hpos. unfold shown_elapsed. rewrite Hs.
  rewrite bind_step. unfold py_gt. rewrite Ht. simpl.
  apply Z.ltb_lt in Hpos. rewrite Hpos.
  rewrite bind_step. simpl. unfold py_sub. simpl. by rewrite Ht.
Qed.

Lemma shown_elapsed_unstarted status start stored t w :
  as_num start = Some t → t ≤ 0 →
  shown_elapsed status start stored w = (Ok stored, w, []).
Proof.
  intros Ht Hpos. unfold shown_elapsed, py_gt. rewrite Ht.
  destruct (is_str _ _); [done|].
  rewrite bind_step. simpl. apply Z.ltb_ge in Hpos. by rewrite Hpos.
Qed.

(** C7, as amended.  A field that is missing from a stored payload reads
    as the default written at its [.get] call: [current_step],
    [progress_percentage], [start_time], [estimated_total_time] and
    [elapsed_time] default to 0 and [total_steps] to 8; [status] defaults
    to "running"; the step name defaults to "未知" in [_render_progress]
    and to "准备阶段" in [display_static_progress_with_controls], the step
    description to the empty string and to "初始化分析引擎", the last message
    to the empty string and to "准备开始分析".  This holds for every payload,
    whether or not it carries the identity fields. *)
Theorem missing_fields_take_code_defaults (d : gmap string value) :
  let r := parse_render d in
  let s := parse_static d in
  (d !! "current_step" = None → r_current_step r = VNum 0 ∧ s_current_step s = VNum 0)
  ∧ (d !! "progress_percentage" = None →
     r_progress_percentage r = VNum 0 ∧ s_progress_percentage s = VNum 0)
  ∧ (d !! "start_time" = None → r_start_time r = VNum 0 ∧ s_start_time s = VNum 0)
  ∧ (d !! "estimated_total_time" = None →
     r_estimated_total_time r = VNum 0 ∧ s_estimated_total_time s = VNum 0)
  ∧ (d !! "elapsed_time" = None → r_elapsed_time r = VNum 0 ∧ s_elapsed_time s = VNum 0)
  ∧ (d !! "total_steps" = None → r_total_steps r = VNum 8)
  ∧ (d !! "status" = None → r_status r = VStr "running" ∧ s_status s = VStr "running")
  ∧ (d !! "current_step_name" = None →
     r_step_name r = VStr "未知" ∧ s_current_step_name s = VStr "准备阶段")
  ∧ (d !! "current_step_description" = None →
     r_step_description r = VStr "" ∧ s_current_step_description s = VStr "初始化分析引擎")
  ∧ (d !! "last_message" = None →
     r_last_message r = VStr "" ∧ s_last_message s = VStr "准备开始分析").
Proof.
  simpl. unfold dget.
  repeat match goal with |- _ ∧ _ => split | |- _ → _ => intros Hk end.
  all: by rewrite Hk.
Qed.

End WithEnv.
End DisplayFacts.

Module HistoryFacts.
Import History.

(** *** apply_filters *)

Lemma keep_since_ok cutoff records :
  forallb timestamped records = true →
  keep_since cutoff records = Ok (List.filter (λ r, cutoff <=? last_update_of r) records).
Proof.
  induction records as [|r rest IH]; [done|].
  simpl. intros [Hr Hrest]%andb_true_iff. rewrite IH by done.
  unfold timestamped in Hr. unfold last_update_of.
  by destruct (as_num (dget r "last_update" (VNum 0))).
Qed.

(** A timestamp that is not a number makes the time filter raise. *)
Lemma keep_since_raises cutoff records :
  forallb timestamped records = false →
  ∃ msg, keep_since cutoff records = Raise (PyException TypeError msg).
Proof.
  induction records as [|r rest IH]; [done|].
  simpl. unfold timestamped at 1.
  destruct (as_num (dget r "last_update" (VNum 0))) as [t|]; [|by eexists].
  simpl. intros Hrest. destruct (IH Hrest) as [msg ->]. by eexists.
Qed.

Lemma filter_filter_andb {A} (f g : A → bool) l :
  List.filter g (List.filter f l) = List.filter (λ x, f x && g x) l.
Proof.
  induction l as [|x l IH]; [done|]. simpl.
  destruct (f x); simpl; [destruct (g x)|]; by rewrite IH.
Qed.

Lemma filter_sublist {A} (f : A → bool) l : sublist (List.filter f l) l.
Proof.
  induction l as [|x l IH]; [constructor|]. simpl.
  destruct (f x); by constructor.
Qed.

Lemma filter_true {A} (f : A → bool) l : (∀ x, f x = true) → List.filter f l = l.
Proof. intros Hf. induction l as [|x l IH]; [done|]. simpl. by rewrite Hf, IH. Qed.

Lemma forallb_filter {A} (p f : A → bool) l :
  forallb p l = true → forallb p (List.filter f l) = true.
Proof.
  induction l as [|x l IH]; [done|]. simpl.
  intros [Hx Hl]%andb_true_iff. destruct (f x); simpl; [rewrite Hx|]; auto.
Qed.

(** What [apply_filters] computes on records with numeric timestamps. *)
Lemma apply_filters_ok cal records status_filter time_filter :
  forallb timestamped records = true →
  apply_filters cal records status_filter time_filter
  = Ok (List.filter (λ r, keeps_status status_filter r && keeps_time cal time_filter r) records).
Proof.
  intros Hts. unfold apply_filters.
  assert ((if negb (String.eqb status_filter "全部") then
             match status_map status_filter with
             | Some target_status =>
                 if truthy (VStr target_status)
                 then List.filter (has_status target_status) records
                 else records
             | None => records
             end
           else records) = List.filter (keeps_status status_filter) records) as ->.
  { unfold keeps_status. destruct (String.eqb_spec status_filter "全部") as [->|_]; simpl.
    - by rewrite filter_true.
    - unfold status_map.
      repeat (destruct (String.eqb status_filter _); [done|]).
      by rewrite filter_true. }
  unfold keeps_time.
  destruct (String.eqb_spec time_filter "全部") as [->|_]; simpl.
  - f_equal. rewrite <- filter_filter_andb. by rewrite (filter_true (λ _, true)).
  - rewrite keep_since_ok by by apply forallb_filter.
    by rewrite filter_filter_andb.
Qed.

(** The status filter first, then the time filter on what it left. *)
Lemma apply_filters_steps cal records status_filter time_filter :
  apply_filters cal records status_filter time_filter =
  if String.eqb time_filter "全部"
  then Ok (List.filter (keeps_status status_filter) records)
  else keep_since (cutoff_timestamp cal time_filter)
         (List.filter (keeps_status status_filter) records).
Proof.
  unfold apply_filters.
  assert ((if negb (String.eqb status_filter "全部") then
             match status_map status_filter with
             | Some target_status =>
                 if truthy (VStr target_status)
                 then List.filter (has_status target_status) records
                 else records
             | None => records
             end
           else records) = List.filter (keeps_status status_filter) records) as ->.
  { unfold keeps_status. destruct (String.eqb_spec status_filter "全部") as [->|_]; simpl.
    - by rewrite filter_true.
    - unfold status_map.
      repeat (destruct (String.eqb status_filter _); [done|]).
      by rewrite filter_true. }
  by destruct (String.eqb time_filter "全部").
Qed.

Lemma has_status_eq target r :
  has_status target r = true ↔ dget r "status" VNone = VStr target.
Proof.
  unfold has_status, is_str. destruct (dget r "status" VNone); try done.
  rewrite String.eqb_eq. split; [by intros -> | by intros [= ->]].
Qed.

(** What the status filter keeps, label by label. *)
Lemma keeps_status_labels status_filter r :
  keeps_status status_filter r = true
  ↔ (status_filter = "已完成" → dget r "status" VNone = VStr "completed")
    ∧ (status_filter = "运行中" → dget r "status" VNone = VStr "running")
    ∧ (status_filter = "失败" → dget r "status" VNone = VStr "failed").
Proof.
  unfold keeps_status, status_map.
  destruct (String.eqb_spec status_filter "已完成") as [->|H1].
  { rewrite has_status_eq. split; [|by intros [H _]; apply H].
    intros Hs. split; [done|]. split; discriminate. }
  destruct (String.eqb_spec status_filter "运行中") as [->|H2].
  { rewrite has_status_eq. split; [|by intros (_ & H & _); apply H].
    intros Hs. split; [discriminate|]. split; [done|discriminate]. }
  destruct (String.eqb_spec status_filter "失败") as [->|H3].
  { rewrite has_status_eq. split; [|by intros (_ & _ & H); apply H].
    intros Hs. split; [discriminate|]. split; [discriminate|done]. }
  done.
Qed.

(** What the time filter keeps, range by range. *)
Lemma keeps_time_ranges cal time_filter r :
  keeps_time cal time_filter r = true
  ↔ (time_filter = "今天" → start_of_day cal ≤ last_update_of r)
    ∧ (time_filter = "最近7天" → days_ago cal 7 ≤ last_update_of r)
    ∧ (time_filter = "最近30天" → days_ago cal 30 ≤ last_update_of r)
    ∧ (time_filter ∉ ["全部"; "今天"; "最近7天"; "最近30天"] → 0 ≤ last_update_of r).
Proof.
  unfold keeps_time, cutoff_timestamp.
  destruct (String.eqb_spec time_filter "全部") as [->|H0]; simpl.
  { split; [|done]. intros _. split; [discriminate|]. split; [discriminate|].
    split; [discriminate|]. intros Hnot. destruct Hnot. by left. }
  destruct (String.eqb_spec time_filter "今天") as [->|H1].
  { rewrite Z.leb_le. split; [|by intros [H _]; apply H].
    intros Hle. split; [done|]. split; [discriminate|]. split; [discriminate|].
    intros Hnot. destruct Hnot. right. by left. }
  destruct (String.eqb_spec time_filter "最近7天") as [->|H2].
  { rewrite Z.leb_le. split; [|by intros (_ & H & _); apply H].
    intros Hle. split; [discriminate|]. split; [done|]. split; [discriminate|].
    intros Hnot. destruct Hnot. do 2 right. by left. }
  destruct (String.eqb_spec time_filter "最近30天") as [->|H3].
  { rewrite Z.leb_le. split; [|by intros (_ & _ & H & _); apply H].
    intros Hle. split; [discriminate|]. split; [discriminate|]. split; [done|].
    intros Hnot. destruct Hnot. do 3 right. by left. }
  rewrite Z.leb_le. split.
  - intros Hle. split; [done|]. split; [done|]. split; [done|]. done.
  - intros (_ & _ & _ & H). apply H.
    rewrite !elem_of_cons, elem_of_nil. tauto.
Qed.

(** C5.  [apply_filters] returns the records that pass both filters, in
    their original order.  The status labels "已完成", "运行中" and "失败"
    select the statuses [completed], [running] and [failed]: under such a
    label a record is kept exactly when its [status] equals the selected
    status; any other label, "全部" included, keeps every record.  The time
    ranges "今天", "最近7天" and "最近30天" have as cutoff the start of the day
    and the instants 7 and 30 days before now; any other label than "全部"
    has cutoff 0: a record is kept exactly when its last update (0 when
    absent) is at least the cutoff; "全部" keeps every record, and then
    [last_update] is not read at all.  So, provided that under a time range
    the records the status filter keeps have numeric timestamps, the output
    is a sublist of the input whose members are exactly the records that
    meet both conditions, and it is the input itself when both filters are
    "全部".  Under a time range a record that the status filter keeps and
    whose [last_update] is not a number makes the call raise
    [TypeError]. *)
Theorem apply_filters_keeps_matching cal records status_filter time_filter :
  let selected := λ r : gmap string value,
    (status_filter = "已完成" → dget r "status" VNone = VStr "completed")
    ∧ (status_filter = "运行中" → dget r "status" VNone = VStr "running")
    ∧ (status_filter = "失败" → dget r "status" VNone = VStr "failed") in
  let recent := λ r : gmap string value,
    (time_filter = "今天" → start_of_day cal ≤ last_update_of r)
    ∧ (time_filter = "最近7天" → days_ago cal 7 ≤ last_update_of r)
    ∧ (time_filter = "最近30天" → days_ago cal 30 ≤ last_update_of r)
    ∧ (time_filter ∉ ["全部"; "今天"; "最近7天"; "最近30天"] → 0 ≤ last_update_of r) in
  ((time_filter ≠ "全部" → ∀ r, r ∈ records → selected r → timestamped r = true) →
   ∃ out,
     apply_filters cal records status_filter time_filter = Ok out
     ∧ sublist out records
     ∧ (∀ r, r ∈ out ↔ r ∈ records ∧ selected r ∧ recent r)
     ∧ (status_filter = "全部" → time_filter = "全部" → out = records))
  ∧ (time_filter ≠ "全部" →
     ∀ r, r ∈ records → selected r → timestamped r = false →
          ∃ msg, apply_filters cal records status_filter time_filter
                 = Raise (PyException TypeError msg)).
Proof.
  intros selected recent. rewrite apply_filters_steps. split.
  - intros Hts.
    assert (∃ out, (if String.eqb time_filter "全部"
                    then Ok (List.filter (keeps_status status_filter) records)
                    else keep_since (cutoff_timestamp cal time_filter)
                           (List.filter (keeps_status status_filter) records))
                   = Ok out
                   ∧ out = List.filter
                             (λ r, keeps_status status_filter r && keeps_time cal time_filter r)
                             records) as (out & -> & ->).
    { destruct (String.eqb_spec time_filter "全部") as [->|Hne].
      - eexists. split; [done|]. apply List.filter_ext. intros r.
        unfold keeps_time. simpl. by rewrite andb_true_r.
      - rewrite keep_since_ok.
        + eexists. split; [done|]. rewrite filter_filter_andb.
          apply List.filter_ext. intros r. unfold keeps_time.
          by destruct (String.eqb_spec time_filter "全部").
        + apply forallb_forall. intros r [Hin Hs]%filter_In.
          apply (Hts Hne r); [by apply list_elem_of_In | by apply keeps_status_labels]. }
    eexists. split; [done|]. split; [apply filter_sublist|]. split.
    + intros r. rewrite !list_elem_of_In, filter_In, andb_true_iff.
      by rewrite keeps_status_labels, keeps_time_ranges.
    + intros -> ->. by apply filter_true.
  - intros Hne r Hin Hs Hr.
    destruct (String.eqb_spec time_filter "全部") as [->|_]; [done|].
    apply keep_since_raises. apply not_true_is_false. intros Hall.
    rewrite forallb_forall in Hall.
    rewrite Hall in Hr; [done|].
    apply filter_In. split; [by apply list_elem_of_In | by apply keeps_status_labels].
Qed.

Section WithEnv.
Context `{!Env}.

(** *** display_statistics *)

Lemma py_truediv_nonzero a b w :
  b ≠ 0 → py_truediv a b w = (Ok (Qmake (a * Z.sgn b) (Z.to_pos (Z.abs b))), w, []).
Proof. intros Hb. unfold py_truediv. by apply Z.eqb_neq in Hb as ->. Qed.

Lemma percent_of_nonzero count total w :
  total ≠ 0 →
  percent_of count total w
  = (Ok (fmt_1f (Qmake (count * Z.sgn total) (Z.to_pos (Z.abs total)) * 100)%Q +:+ "%"), w, []).
Proof. intros Ht. unfold percent_of. by rewrite bind_step, py_truediv_nonzero. Qed.

Lemma length_nonzero {A} (l : list A) : l ≠ [] → Z.of_nat (length l) ≠ 0.
Proof. destruct l; [done | simpl; lia]. Qed.

Lemma nzd_ext {A} e (k : unit → M A) w :
  (∀ w1, no_zero_division (k tt w1)) → no_zero_division (bind (ext e) k w).
Proof.
  intros Hk msg. rewrite bind_step. unfold ext.
  destruct (fault e); simpl; [done|].
  rewrite after_fst. apply Hk.
Qed.

Lemma nzd_pure {A B} (m : M A) (k : A → M B) a w :
  m w = (Ok a, w, []) → no_zero_division (k a w) → no_zero_division (bind m k w).
Proof. intros Hm Hk msg. rewrite bind_step, Hm, after_fst. apply Hk. Qed.

Lemma nzd_ext_last e w : no_zero_division (ext e w).
Proof. intros msg. unfold ext. by destruct (fault e). Qed.

(** The body of [display_statistics] for a list that is not empty. *)
Lemma display_statistics_cons r rest :
  display_statistics (r :: rest) =
  let records := r :: rest in
  let total := Z.of_nat (length records) in
  (st (Subheader "📊 统计概览");;;
   st (Columns 4);;;
   st (Metric "总记录数" (pretty total) None);;;
   delta <- percent_of (count_status "completed" records) total;;
   st (Metric "已完成" (pretty (count_status "completed" records)) (Some delta));;;
   st (Metric "运行中" (pretty (count_status "running" records)) None);;;
   delta <- (if 0 <? count_status "failed" records
             then percent_of (count_status "failed" records) total else ret "0%");;
   st (Metric "失败" (pretty (count_status "failed" records)) (Some delta))).
Proof. reflexivity. Qed.

Lemma display_statistics_safe records w :
  no_zero_division (display_statistics records w).
Proof.
  destruct records as [|r rest]; [done|].
  rewrite display_statistics_cons. cbv zeta.
  pose proof (length_nonzero (r :: rest) ltac:(done)) as Hne.
  generalize dependent (Z.of_nat (length (r :: rest))). intros total Hne.
  generalize (r :: rest). intros records. unfold st.
  do 3 (apply nzd_ext; intros ?).
  eapply nzd_pure; [by apply percent_of_nonzero|].
  do 2 (apply nzd_ext; intros ?).
  destruct (0 <? _).
  - eapply nzd_pure; [by apply percent_of_nonzero | apply nzd_ext_last].
  - eapply nzd_pure; [reflexivity | apply nzd_ext_last].
Qed.

(** C10.  [display_statistics] returns at once, without any effect, on an
    empty list of records, and it never raises [ZeroDivisionError]: on a
    list that is not empty every percentage divides by the length of the
    list, which is not zero.  When no widget call raises, the summary of a
    list that is not empty is the six widgets below, the rate of failed
    records being "0%" when no record failed. *)
Theorem statistics_never_divide_by_zero records w :
  let total := Z.of_nat (length records) in
  let failed := count_status "failed" records in
  (records = [] → display_statistics records w = (Ok tt, w, []))
  ∧ (∀ msg, (display_statistics records w).1.1 ≠ Raise (PyException ZeroDivisionError msg))
  ∧ (records ≠ [] →
     ∀ count w', ∃ q, py_truediv count total w' = (Ok q, w', [])
                      ∧ percent_of count total w' = (Ok (fmt_1f (q * 100)%Q +:+ "%"), w', []))
  ∧ ((∀ e, fault e = None) → records ≠ [] →
     ∃ rate failed_rate,
       percent_of (count_status "completed" records) total w = (Ok rate, w, [])
       ∧ (if 0 <? failed then percent_of failed total w = (Ok failed_rate, w, [])
          else failed_rate = "0%")
       ∧ display_statistics records w
         = (Ok tt, w,
            [St (Subheader "📊 统计概览"); St (Columns 4);
             St (Metric "总记录数" (pretty total) None);
             St (Metric "已完成" (pretty (count_status "completed" records)) (Some rate));
             St (Metric "运行中" (pretty (count_status "running" records)) None);
             St (Metric "失败" (pretty failed) (Some failed_rate))])).
Proof.
  intros total failed. split; [by intros ->|]. split; [apply display_statistics_safe|].
  split.
  - intros Hne count w'. apply length_nonzero in Hne.
    eexists. split; [by apply py_truediv_nonzero | by apply percent_of_nonzero].
  - intros Hnf Hne. destruct records as [|r rest]; [done|].
    pose proof (length_nonzero (r :: rest) Hne) as Hnz.
    subst failed total. rewrite display_statistics_cons. cbv zeta.
    generalize dependent (Z.of_nat (length (r :: rest))). intros total Hnz.
    generalize (r :: rest). intros records. unfold st.
    eexists _, (if 0 <? count_status "failed" records then _ else "0%").
    split; [by apply percent_of_nonzero|].
    split; [destruct (0 <? _); [by apply percent_of_nonzero | done]|].
    do 3 (rewrite bind_step, DisplayFacts.ext_ok by done; simpl).
    rewrite bind_step, percent_of_nonzero by done. simpl.
    do 2 (rewrite bind_step, DisplayFacts.ext_ok by done; simpl).
    destruct (0 <? _).
    + rewrite bind_step, percent_of_nonzero by done. simpl.
      by rewrite DisplayFacts.ext_ok.
    + rewrite bind_step. simpl. by rewrite DisplayFacts.ext_ok.
Qed.

(** *** delete_analysis_record *)

Lemma delete_file_record_run id w :
  let o := durable_outcome id w in
  delete_file_record id w =
  (Ok (removed o, errors "文件删除失败: " o),
   with_files (λ fs, match o with Removed => fs ∖ {[progress_file id]} | _ => fs end) w,
   match o with
   | Removed => [OsRemove (progress_file id);
                 Log LInfo ("✅ 删除文件记录: " +:+ progress_file id)]
   | Failed _ => [OsRemove (progress_file id)]
   | _ => []
   end).
Proof.
  unfold durable_outcome, delete_file_record, try_except, os_path_exists, os_remove, log.
  rewrite bind_step. simpl.
  case_bool_decide; simpl; [|by destruct w].
  rewrite bind_step, bind_step. unfold ext.
  destruct (fault _); simpl; by destruct w.
Qed.

Lemma int_of_env_raises name dflt e :
  int_of_env name dflt = Raise e → ∃ msg, e = PyException ValueError msg.
Proof.
  unfold int_of_env. destruct (getenv name); [|done].
  destruct (py_int _); [done|]. intros [= <-]. by eexists.
Qed.

Lemma delete_redis_record_run id w :
  let o := expiring_outcome id w in
  ∃ evs,
    delete_redis_record id w =
    (Ok (removed o, errors "Redis删除失败: " o),
     with_redis (λ ks, match o with
                       | Removed | NotFound => ks ∖ {[redis_key id]}
                       | _ => ks
                       end) w,
     evs)
    ∧ (Log LInfo ("✅ 删除Redis记录: " +:+ redis_key id) ∈ evs ↔ o = Removed)
    ∧ ∀ e, e ∈ evs → e = RedisDelete (redis_key id)
                     ∨ e = Log LInfo ("✅ 删除Redis记录: " +:+ redis_key id).
Proof.
  unfold expiring_outcome, delete_redis_record, try_except, redis_delete, log.
  destruct redis_enabled; simpl; [|eexists; split; [by destruct w|]; split; [split|]].
  2: by intros ?%not_elem_of_nil. 2: done. 2: by intros e ?%not_elem_of_nil.
  rewrite bind_step.
  destruct (int_of_env "REDIS_PORT" 6379) as [port|e] eqn:Hport; simpl.
  2: { apply int_of_env_raises in Hport as [msg ->].
       eexists; split; [by destruct w|]; split; [split|];
         [by intros ?%not_elem_of_nil | done | by intros e ?%not_elem_of_nil]. }
  rewrite bind_step.
  destruct (int_of_env "REDIS_DB" 0) as [db|e] eqn:Hdb; simpl.
  2: { apply int_of_env_raises in Hdb as [msg ->].
       eexists; split; [by destruct w|]; split; [split|];
         [by intros ?%not_elem_of_nil | done | by intros e ?%not_elem_of_nil]. }
  rewrite bind_step, bind_step. unfold ext.
  destruct (fault _); simpl.
  { eexists; split; [by destruct w|]; split; [split|].
    - by intros [=]%list_elem_of_singleton.
    - done.
    - intros e ->%list_elem_of_singleton. by left. }
  case_bool_decide; simpl.
  - eexists; split; [done|]; split; [split; [done|]|].
    + intros _. rewrite !elem_of_cons. auto.
    + intros e. rewrite !elem_of_cons. intros [->|[->|?%not_elem_of_nil]]; auto. done.
  - eexists; split; [done|]; split; [split|].
    + by intros [=]%list_elem_of_singleton.
    + done.
    + intros e ->%list_elem_of_singleton. by left.
Qed.

Section NoWidgetFault.
Hypothesis widgets_work : ∀ c, fault (St c) = None.

Lemma st_works c w : st c w = (Ok tt, w, [St c]).
Proof. unfold st, ext. by rewrite widgets_work. Qed.

Lemma for_each_st (f : string → call) msgs w :
  for_each msgs (λ msg, st (f msg)) w = (Ok tt, w, (λ msg, St (f msg)) <$> msgs).
Proof.
  revert w. induction msgs as [|msg msgs IH]; intros w; [done|].
  simpl. by rewrite bind_step, st_works, IH.
Qed.

Lemma log_file_ne_redis p k :
  Log LInfo ("✅ 删除文件记录: " +:+ p) ≠ Log LInfo ("✅ 删除Redis记录: " +:+ k).
Proof. by intros [=]. Qed.

(** Where the [redis] package is installed and no widget call raises,
    [delete_analysis_record] attempts the removal on the file store always
    and on Redis whenever Redis is enabled, each attempt having the outcome
    it would have alone: what is left of the files depends on the file
    outcome only, what is left of the Redis keys on the Redis outcome only.
    Each backend's success is reported by its own log line, and each
    backend's failure by its own message.  If at least one removal succeeded
    the call reports success with the number of removals, shows every
    failure as a warning and asks for a rerun; otherwise it reports that
    nothing was deleted and shows the failures as errors. *)
Lemma delete_attempts_both_backends id w :
  importable "redis" = true →
  let out := delete_analysis_record id w in
  let d := durable_outcome id w in
  let x := expiring_outcome id w in
  let problems := errors "文件删除失败: " d ++ errors "Redis删除失败: " x in
  d ≠ NotAttempted
  ∧ (redis_enabled = true → x ≠ NotAttempted)
  ∧ files out.1.2 = match d with Removed => files w ∖ {[progress_file id]} | _ => files w end
  ∧ redis out.1.2 = match x with
                    | Removed | NotFound => redis w ∖ {[redis_key id]}
                    | _ => redis w
                    end
  ∧ (Log LInfo ("✅ 删除文件记录: " +:+ progress_file id) ∈ out.2 ↔ d = Removed)
  ∧ (Log LInfo ("✅ 删除Redis记录: " +:+ redis_key id) ∈ out.2 ↔ x = Removed)
  ∧ (if 0 <? removed d + removed x
     then out.1.1 = Raise RerunException
          ∧ St (Success ("✅ 成功删除 " +:+ pretty (removed d + removed x) +:+ " 项记录")) ∈ out.2
          ∧ (∀ msg, msg ∈ problems → St (Warn ("⚠️ " +:+ msg)) ∈ out.2)
     else out.1.1 = Ok tt
          ∧ St (Err "❌ 删除失败，没有找到要删除的记录") ∈ out.2
          ∧ ∀ msg, msg ∈ problems → St (Err ("❌ " +:+ msg)) ∈ out.2).
Proof.
  intros Hredis_pkg out d x problems.
  split; [subst d; unfold durable_outcome; by repeat case_match|].
  split.
  { intros Hen. subst x. unfold expiring_outcome. rewrite Hen.
    destruct (int_of_env "REDIS_PORT" 6379) as [?|e] eqn:Hp;
      [|apply int_of_env_raises in Hp as [? ->]; done].
    destruct (int_of_env "REDIS_DB" 0) as [?|e] eqn:Hd;
      [|apply int_of_env_raises in Hd as [? ->]; done].
    by repeat case_match. }
  pose proof (delete_file_record_run id w) as Hfile. cbv zeta in Hfile. fold d in Hfile.
  set (w1 := with_files _ w) in Hfile.
  set (file_evs := match d with Removed => _ | Failed _ => _ | _ => _ end) in Hfile.
  destruct (delete_redis_record_run id w1) as (evs & Hredis & Hlog & Honly).
  change (expiring_outcome id w1) with x in Hredis, Hlog.
  set (w2 := with_redis _ w1) in Hredis.
  assert (out =
          if 0 <? removed d + removed x then
            (Raise RerunException, w2,
             file_evs ++ evs
             ++ St (Success ("✅ 成功删除 " +:+ pretty (removed d + removed x) +:+ " 项记录"))
                :: ((λ msg, St (Warn ("⚠️ " +:+ msg))) <$> problems))
          else
            (Ok tt, w2,
             file_evs ++ evs
             ++ St (Err "❌ 删除失败，没有找到要删除的记录")
                :: ((λ msg, St (Err ("❌ " +:+ msg))) <$> problems))) as Hout.
  { subst out. unfold delete_analysis_record, try_except, py_import.
    rewrite Hredis_pkg. rewrite bind_step. simpl. rewrite after_nil.
    rewrite bind_step, Hfile. simpl. rewrite bind_step, Hredis. simpl.
    destruct (0 <? _).
    - rewrite bind_step, st_works. simpl. rewrite bind_step, for_each_st. simpl.
      by rewrite app_nil_r.
    - rewrite bind_step, st_works. simpl. by rewrite for_each_st. }
  assert (Log LInfo ("✅ 删除文件记录: " +:+ progress_file id) ∈ file_evs ↔ d = Removed)
    as Hflog.
  { subst file_evs.
    destruct d; rewrite ?elem_of_cons, ?elem_of_nil; split; intros Hd; try done; auto.
    all: by destruct Hd as [[=]|[]]. }
  assert (∀ e, e ∈ file_evs → e = OsRemove (progress_file id)
                              ∨ e = Log LInfo ("✅ 删除文件记录: " +:+ progress_file id))
    as Hfonly.
  { intros e. subst file_evs.
    destruct d; rewrite ?elem_of_cons, ?elem_of_nil; intros Hd; try done.
    all: repeat destruct Hd as [->|Hd]; auto; done. }
  assert (files w2 = match d with Removed => files w ∖ {[progress_file id]} | _ => files w end)
    as Hfiles by done.
  assert (redis w2 = match x with
                     | Removed | NotFound => redis w ∖ {[redis_key id]}
                     | _ => redis w
                     end) as Hkeys by done.
  clearbody file_evs w1 w2.
  assert (∀ (f : string → call) first l msg,
            Log l msg ∈ file_evs ++ evs ++ St first :: ((λ m, St (f m)) <$> problems)
            ↔ Log l msg ∈ file_evs ∨ Log l msg ∈ evs) as Hlogs.
  { intros f first l msg. rewrite !elem_of_app, elem_of_cons, list_elem_of_fmap.
    split; [|tauto]. intros [?|[?|[?|(m & ? & _)]]]; auto; done. }
  assert (∀ (f : string → call) first msg,
            msg ∈ problems →
            St (f msg) ∈ file_evs ++ evs ++ St first :: ((λ m, St (f m)) <$> problems))
    as Hsurfaced.
  { intros f first msg Hmsg. rewrite !elem_of_app, elem_of_cons, list_elem_of_fmap.
    right; right; right. by exists msg. }
  assert (Log LInfo ("✅ 删除文件记录: " +:+ progress_file id) ∉ evs) as Hnot1.
  { intros [[=]|[=]]%Honly. }
  assert (Log LInfo ("✅ 删除Redis记录: " +:+ redis_key id) ∉ file_evs) as Hnot2.
  { intros [[=]|[=]]%Hfonly. }
  destruct (0 <? removed d + removed x) eqn:Hany; rewrite Hout; simpl.
  all: split; [done|split; [done|]].
  all: rewrite !Hlogs.
  all: split; [tauto|split; [tauto|]].
  all: split; [done|split].
  all: try (rewrite !elem_of_app, elem_of_cons; by auto).
  - intros msg. apply (Hsurfaced (λ m, Warn ("⚠️ " +:+ m))).
  - intros msg. apply (Hsurfaced (λ m, Err ("❌ " +:+ m))).
Qed.

(** Without the [redis] package the call stops at its [import]: nothing is
    removed, whatever the backends hold. *)
Lemma delete_without_redis_package id w :
  importable "redis" = false →
  delete_analysis_record id w
  = (Ok tt, w,
     [St (Err ("❌ 删除操作失败: " +:+ "No module named 'redis'"));
      Log LError ("删除分析记录失败: " +:+ id +:+ ", 错误: " +:+ "No module named 'redis'")]).
Proof.
  intros Hpkg. unfold delete_analysis_record, try_except, py_import.
  rewrite Hpkg. rewrite bind_step. simpl.
  rewrite bind_step, st_works. reflexivity.
Qed.

End NoWidgetFault.

End WithEnv.
End HistoryFacts.

Module StorageFacts.
Import Storage History.

Lemma length_append (s t : string) :
  String.length (s +:+ t) = (String.length s + String.length t)%nat.
Proof.
  induction s as [|c s IH]; [done|].
  change (String c s +:+ t) with (String c (s +:+ t)). simpl. by rewrite IH.
Qed.

Lemma append_empty_r (s : string) : s +:+ "" = s.
Proof.
  induction s as [|c s IH]; [done|].
  change (String c s +:+ "") with (String c (s +:+ "")). by rewrite IH.
Qed.

(** A suffix can be cancelled. *)
Lemma append_inj_r (t s1 s2 : string) : s1 +:+ t = s2 +:+ t → s1 = s2.
Proof.
  revert s2. induction s1 as [|c s1 IH]; intros [|c' s2] Heq.
  - done.
  - apply (f_equal String.length) in Heq. rewrite !length_append in Heq. simpl in Heq. lia.
  - apply (f_equal String.length) in Heq. rewrite !length_append in Heq. simpl in Heq. lia.
  - injection Heq as -> Heq. f_equal. by apply IH.
Qed.

Lemma progress_file_inj id id' : progress_file id = progress_file id' → id = id'.
Proof.
  unfold progress_file. intros Heq%String.app_inj. by apply append_inj_r in Heq.
Qed.

Lemma redis_key_inj id id' : redis_key id = redis_key id' → id = id'.
Proof. unfold redis_key. by intros Heq%String.app_inj. Qed.

(** A trailing [*] matches whatever is left. *)
Lemma glob_match_star_end s : glob_match "*" s = true.
Proof. induction s as [|c s IH]; [done|]. simpl in *. exact IH. Qed.

(** [*] followed by a suffix matches any string that ends with it. *)
Lemma glob_match_star_suffix (suffix s : string) :
  glob_match suffix suffix = true →
  glob_match (String star suffix) (s +:+ suffix) = true.
Proof.
  intros Hs. induction s as [|c s IH].
  - change ("" +:+ suffix) with suffix. simpl.
    destruct suffix; simpl in *; [done | by rewrite Hs].
  - change (String c s +:+ suffix) with (String c (s +:+ suffix)).
    simpl in *. by rewrite IH, orb_true_r.
Qed.

Lemma redis_scan_matches id : glob_match redis_scan_pattern (redis_key id) = true.
Proof. apply glob_match_star_end. Qed.

Lemma file_scan_matches id :
  glob_match "progress_*.json" ("progress_" +:+ id +:+ ".json") = true.
Proof. apply (glob_match_star_suffix ".json"). reflexivity. Qed.

Lemma has_slash_append s t : has_slash (s +:+ t) = has_slash s || has_slash t.
Proof.
  induction s as [|c s IH]; [done|].
  change (String c s +:+ t) with (String c (s +:+ t)). simpl. by rewrite IH, orb_assoc.
Qed.

(** The Redis scan lists the key of every stored job. *)
Lemma progress_keys_lists_job id w :
  redis_key id ∈ redis w → redis_key id ∈ progress_keys w.
Proof.
  intros Hin. unfold progress_keys.
  rewrite list_elem_of_In, filter_In, <- list_elem_of_In, elem_of_elements.
  split; [done | apply redis_scan_matches].
Qed.

(** The directory scan lists the file of every stored job whose identifier
    is a file name. *)
Lemma progress_files_lists_job id w :
  has_slash id = false →
  progress_file id ∈ files w → progress_file id ∈ progress_files w.
Proof.
  intros Hid Hin. unfold progress_files, glob_in.
  rewrite list_elem_of_In, filter_In, <- list_elem_of_In, elem_of_elements.
  split; [done|].
  assert (strip_prefix (data_dir +:+ "/") (progress_file id)
          = Some ("progress_" +:+ id +:+ ".json")) as -> by reflexivity.
  by rewrite file_scan_matches, !has_slash_append, Hid.
Qed.

Section WithEnv.
Context `{!Env}.

Lemma wo_st c : widgets_only (st c).
Proof.
  intros w e. unfold st, ext.
  destruct (fault _); simpl; intros ->%list_elem_of_singleton; exists c, LInfo, ""; auto.
Qed.

Lemma wo_log l msg : widgets_only (log l msg).
Proof. intros w e ->%list_elem_of_singleton. exists Empty, l, msg. auto. Qed.

Lemma wo_ret {A} (a : A) : widgets_only (ret a).
Proof. by intros w e ?%not_elem_of_nil. Qed.

Lemma wo_rerun {A} : widgets_only (@rerun A).
Proof. by intros w e ?%not_elem_of_nil. Qed.

Lemma wo_bind {A B} (m : M A) (k : A → M B) :
  widgets_only m → (∀ a, widgets_only (k a)) → widgets_only (bind m k).
Proof.
  intros Hm Hk w e. rewrite bind_step. specialize (Hm w e).
  destruct (m w) as [[[a|x] w1] ev1]; simpl in *; [|done].
  rewrite after_snd. intros [?|?]%elem_of_app; [auto | by eapply Hk].
Qed.

Lemma wo_for_each {A} (l : list A) (f : A → M unit) :
  (∀ a, widgets_only (f a)) → widgets_only (for_each l f).
Proof.
  intros Hf. induction l as [|a l IH]; [apply wo_ret|].
  simpl. apply wo_bind; [done | by intros _].
Qed.

(** The removals that [delete_analysis_record] attempts. *)
Lemma delete_addresses_job id w e :
  e ∈ (delete_analysis_record id w).2 →
  (∀ p, e = OsRemove p → p = progress_file id)
  ∧ (∀ k, e = RedisDelete k → k = redis_key id).
Proof.
  assert (∀ evs : list event,
            (∀ e, e ∈ evs → e = OsRemove (progress_file id) ∨ e = RedisDelete (redis_key id)
                            ∨ ∃ c l msg, e = St c ∨ e = Log l msg) →
            e ∈ evs →
            (∀ p, e = OsRemove p → p = progress_file id)
            ∧ (∀ k, e = RedisDelete k → k = redis_key id)) as Hshape.
  { intros evs Hevs Hin. apply Hevs in Hin.
    destruct Hin as [Heq|[Heq|(c & l & msg & [Heq|Heq])]]; subst e.
    all: split; intros ? [=]; by subst. }
  apply Hshape. clear e Hshape.
  set (ok := λ e : event,
         e = OsRemove (progress_file id) ∨ e = RedisDelete (redis_key id)
         ∨ ∃ c l msg, e = St c ∨ e = Log l msg).
  assert (∀ m : M unit, widgets_only m → ∀ w e, e ∈ (m w).2 → ok e) as Hwo.
  { intros m Hm w' e Hin. right; right. by eapply Hm. }
  change (∀ e, e ∈ (delete_analysis_record id w).2 → ok e).
  unfold delete_analysis_record, try_except, py_import.
  rewrite bind_step.
  destruct (importable "redis"); simpl.
  2: { pose proof (Hwo _ (wo_bind (st (Err ("❌ 删除操作失败: " +:+ "No module named 'redis'")))
                    (λ _, log LError ("删除分析记录失败: " +:+ id +:+ ", 错误: "
                                      +:+ "No module named 'redis'"))
                    (wo_st _) (λ _, wo_log _ _)) w) as Hh.
       destruct (bind _ _ w) as [[r4 w4] ev4]. simpl in *. exact Hh. }
  rewrite after_nil.
  pose proof (HistoryFacts.delete_file_record_run id w) as Hfile. cbv zeta in Hfile.
  rewrite bind_step, Hfile. simpl.
  set (file_evs := match durable_outcome id w with
                   | Removed => _ | Failed _ => _ | _ => _ end).
  assert (∀ e, e ∈ file_evs → ok e) as Hf.
  { intros e. subst file_evs.
    destruct (durable_outcome id w);
      rewrite ?elem_of_cons, ?elem_of_nil; intros Hd; try done.
    all: repeat destruct Hd as [->|Hd]; try done.
    all: first [by left | right; right; exists Empty, LInfo; eauto]. }
  clearbody file_evs.
  destruct (HistoryFacts.delete_redis_record_run id
              (with_files (λ fs, match durable_outcome id w with
                                 | Removed => fs ∖ {[progress_file id]}
                                 | _ => fs
                                 end) w)) as (evs & Hredis & _ & Hr).
  assert (∀ e, e ∈ evs → ok e) as Hr'.
  { intros e [-> | ->]%Hr; [right; by left | right; right; exists Empty, LInfo; eauto]. }
  cbv zeta in Hredis. rewrite bind_step, Hredis. simpl.
  match goal with
  | |- context [after evs (?m ?w2)] =>
      assert (widgets_only m) as Hrep;
        [|pose proof (Hwo _ Hrep w2) as Hrep'; clear Hrep;
          destruct (m w2) as [[[[]|[cls msg|]] w3] ev3]]
  end.
  { destruct (0 <? _).
    - apply wo_bind; [apply wo_st | intros _].
      apply wo_bind; [|intros _; apply wo_rerun].
      apply wo_for_each. intros ?. apply wo_st.
    - apply wo_bind; [apply wo_st | intros _].
      apply wo_for_each. intros ?. apply wo_st. }
  all: simpl in *.
  2: { pose proof (Hwo _ (wo_bind (st (Err ("❌ 删除操作失败: " +:+ msg)))
                    (λ _, log LError ("删除分析记录失败: " +:+ id +:+ ", 错误: " +:+ msg))
                    (wo_st _) (λ _, wo_log _ _)) w3) as Hh.
       destruct (bind _ _ w3) as [[r4 w4] ev4]. simpl in *.
       intros e. rewrite !elem_of_app. intros [[Hin|[Hin|Hin]]|Hin]; auto. }
  all: intros e; rewrite !elem_of_app; intros [Hin|[Hin|Hin]]; auto.
Qed.

End WithEnv.

End StorageFacts.

(** ** Closed instances *)

Module Instances.
Import Display History Storage Sample.

(** The run of [display_static_progress_with_controls] on the failed job, at
    time 1000. *)
Example failed_run :
  (@display_static_progress_with_controls (stored failed_record)
     "job1" true true (world_at 1000 [] [])).2
  = [SessionSet "progress_display_lock_job1" (VBool true);
     St (Markdown "### 📊 分析进度"); Fetch "job1";
     St (Write "**当前步骤**: 准备阶段"); St (Columns 3);
     St (Metric "进度" "0.0%" None); St (Metric "已用时间" "900" None);
     St (Metric "预计剩余" "已中断" None); St (Progress 0);
     St (Write "**当前任务**: 初始化分析引擎"); St (Err "❌ **当前状态**: 准备开始分析");
     SessionDel "progress_display_lock_job1"].
Proof. vm_compute. reflexivity. Qed.

(** ... and of [_render_progress]. *)
Example failed_render :
  (@_render_progress (stored failed_record) failed_record (world_at 1000 [] [])).2
  = [Slot "progress_bar" (Progress 0);
     Slot "status_text" (Info "❌ **当前状态**: ");
     Slot "step_info" (Err "❌ **分析失败**: ");
     Slot "time_info" (Err "⏱️ **已用时间**: 900 | **分析中断**");
     Slot "refresh_button" Empty].
Proof. vm_compute. reflexivity. Qed.

(** C2 (the code departs from the claim).  A job that failed with a stored,
    frozen [elapsed_time] of 50 and a [start_time] of 100 is shown, at time
    1000, with an elapsed time of 900 = now - start_time by both renderers:
    the stored value is used for [completed] only, and [failed] falls into
    the branch written for running jobs. *)
Theorem failed_job_elapsed_not_frozen :
  let w := world_at 1000 [] [] in
  s_status (parse_static failed_record) = VStr "failed"
  ∧ s_elapsed_time (parse_static failed_record) = VNum 50
  ∧ shown_elapsed (VStr "failed") (VNum 100) (VNum 50) w = (Ok (VNum 900), w, [])
  ∧ (St (Metric "已用时间" (@format_time (stored failed_record) (VNum 900)) None)
     ∈ (@display_static_progress_with_controls (stored failed_record) "job1" true true w).2)
  ∧ (St (Metric "已用时间" (@format_time (stored failed_record) (VNum 50)) None)
     ∉ (@display_static_progress_with_controls (stored failed_record) "job1" true true w).2)
  ∧ (Slot "time_info"
       (Err ("⏱️ **已用时间**: " +:+ (@format_time (stored failed_record) (VNum 900))
             +:+ " | **分析中断**"))
     ∈ (@_render_progress (stored failed_record) failed_record w).2).
Proof.
  intros w. subst w.
  split; [reflexivity|]. split; [reflexivity|]. split; [reflexivity|].
  rewrite failed_run, failed_render.
  split; [|split].
  - rewrite !elem_of_cons. do 6 right. by left.
  - rewrite !elem_of_cons, elem_of_nil. intros Hin.
    repeat destruct Hin as [Hin|Hin]; try discriminate Hin. done.
  - rewrite !elem_of_cons. do 3 right. by left.
Qed.

(** C7 (counterexample).  The payload with the identity fields only
    refutes the defaults as the specification words them: its [total_steps]
    reads as 8, not 0. *)
Lemma bare_record_defaults :
  is_Some (bare_record !! "analysis_id")
  ∧ is_Some (bare_record !! "status")
  ∧ ¬ defaults_as_specified bare_record.
Proof.
  split; [by eexists|]. split; [by eexists|].
  intros [Hnum _].
  specialize (Hnum "total_steps" (VNum 8)).
  assert (VNum 8 = VNum 0) as [=]. apply Hnum; [|reflexivity].
  unfold numeric_fields_read. rewrite !elem_of_cons. right; left. reflexivity.
Qed.

(** ... and its [last_message] reads as the empty string in
    [_render_progress]. *)
Lemma bare_record_empty_message :
  ¬ ∃ sentinel, r_last_message (parse_render bare_record) = VStr sentinel ∧ sentinel ≠ "".
Proof. intros (sentinel & [= <-] & Hne). done. Qed.

(** Deleting a job that both backends hold, and one that only the file
    store holds (its key has expired). *)
Example delete_from_both :
  (@delete_analysis_record redis_env "job1"
     (world_at 1000 ["./data/progress_job1.json"] ["progress:job1"])).2
  = [OsRemove "./data/progress_job1.json";
     Log LInfo "✅ 删除文件记录: ./data/progress_job1.json";
     RedisDelete "progress:job1"; Log LInfo "✅ 删除Redis记录: progress:job1";
     St (Success "✅ 成功删除 2 项记录")].
Proof. vm_compute. reflexivity. Qed.

Example delete_expired :
  @expiring_outcome redis_env "job1" (world_at 1000 ["./data/progress_job1.json"] [])
  = NotFound
  ∧ @delete_analysis_record redis_env "job1"
      (world_at 1000 ["./data/progress_job1.json"] [])
    = (Raise RerunException, world_at 1000 [] [],
       [OsRemove "./data/progress_job1.json";
        Log LInfo "✅ 删除文件记录: ./data/progress_job1.json";
        RedisDelete "progress:job1";
        St (Success "✅ 成功删除 1 项记录")]).
Proof. split; vm_compute; reflexivity. Qed.

(** C3 (the code departs from the claim).  On an installation without the
    optional [redis] package, Redis being switched off, the record of
    "job1" is in the file store only and its removal would succeed; yet
    [delete_analysis_record] stops at [import redis], before any attempt on
    the file store: the file is still there and the call reports that the
    whole operation failed. *)
Theorem delete_blocked_without_redis_package :
  let w := world_at 1000 ["./data/progress_job1.json"] [] in
  @redis_enabled no_redis_package = false
  ∧ @durable_outcome no_redis_package "job1" w = Removed
  ∧ @delete_analysis_record no_redis_package "job1" w
    = (Ok tt, w,
       [St (Err "❌ 删除操作失败: No module named 'redis'");
        Log LError "删除分析记录失败: job1, 错误: No module named 'redis'"])
  ∧ progress_file "job1" ∈ files (@delete_analysis_record no_redis_package "job1" w).1.2.
Proof.
  intros w. subst w.
  split; [reflexivity|]. split; [vm_compute; reflexivity|].
  split; [exact (@HistoryFacts.delete_without_redis_package no_redis_package
                   (λ _, eq_refl) "job1" _ eq_refl)|].
  rewrite (@HistoryFacts.delete_without_redis_package no_redis_package
             (λ _, eq_refl) "job1" _ eq_refl).
  vm_compute. reflexivity.
Qed.

(** A forced refresh of the depth-1 job: the stamp, a sleep of 6, a rerun. *)
Example fast_refresh :
  (@display_static_progress_with_controls (stored fast_record)
     "job1" true true (world_at 1000 [] [])).1.1 = Raise RerunException
  ∧ (@display_static_progress_with_controls (stored fast_record)
       "job1" true true (world_at 3 [] [])).1.1 = Ok false.
Proof. split; vm_compute; reflexivity. Qed.

(** *** Instances of the theorems that have hypotheses *)

Lemma display_lock_always_released_witness :
  (@display_static_progress_with_controls (stored broken_record)
     "job1" true true (world_at 1000 [] [])).1.1
  = Raise (PyException ValueError "Unknown format code 'f' for object of type 'str'")
  ∧ session (@display_static_progress_with_controls (stored broken_record)
               "job1" true true (world_at 1000 [] [])).1.2
    !! display_lock_key "job1" = None.
Proof.
  split; [vm_compute; reflexivity|].
  apply (@DisplayFacts.display_lock_always_released (stored broken_record)).
  reflexivity.
Defined.

Lemma missing_record_shows_initializing_witness :
  (@display_static_progress_with_controls nothing_stored
     "job1" true true (world_at 1000 [] [])).1.1 = Ok false.
Proof.
  exact (proj1 (proj2 (@DisplayFacts.missing_record_shows_initializing nothing_stored
                         "job1" true true (world_at 1000 [] [])
                         eq_refl (λ _, eq_refl) eq_refl))).
Defined.

(** A week before time 605000 is time 200: of the three sample records only
    the completed one updated at 900 is kept; the running one is not
    selected, and the completed one without [last_update] counts as updated
    at 0. *)
Lemma apply_filters_keeps_matching_witness :
  ∃ out,
    apply_filters (calendar_at 605000) history "已完成" "最近7天" = Ok out
    ∧ out = [list_to_map [("status", VStr "completed"); ("last_update", VNum 900)]]
    ∧ sublist out history.
Proof.
  destruct (proj1 (HistoryFacts.apply_filters_keeps_matching (calendar_at 605000) history
                     "已完成" "最近7天")) as (out & Hout & Hsub & _).
  { intros _ r Hin _. unfold history in Hin.
    rewrite !elem_of_cons, elem_of_nil in Hin.
    destruct Hin as [-> | [-> | [-> | []]]]; vm_compute; reflexivity. }
  exists out. split; [exact Hout|]. split; [|exact Hsub].
  assert (apply_filters (calendar_at 605000) history "已完成" "最近7天"
          = Ok [list_to_map [("status", VStr "completed"); ("last_update", VNum 900)]])
    as Hrun by (vm_compute; reflexivity).
  rewrite Hrun in Hout. by injection Hout as <-.
Defined.

Example delete_attempts_both_backends_instance :
  files (@delete_analysis_record redis_env "job1"
           (world_at 1000 ["./data/progress_job1.json"] [])).1.2
  = files (world_at 1000 ["./data/progress_job1.json"] []) ∖ {["./data/progress_job1.json"]}.
Proof.
  exact (proj1 (proj2 (proj2 (@HistoryFacts.delete_attempts_both_backends redis_env
                                (λ _, eq_refl) "job1"
                                (world_at 1000 ["./data/progress_job1.json"] [])
                                eq_refl)))).
Qed.

Lemma missing_fields_take_code_defaults_witness :
  r_total_steps (parse_render bare_record) = VNum 8
  ∧ r_last_message (parse_render bare_record) = VStr ""
  ∧ s_last_message (parse_static bare_record) = VStr "准备开始分析".
Proof.
  destruct (DisplayFacts.missing_fields_take_code_defaults bare_record)
    as (_ & _ & _ & _ & _ & Hsteps & _ & _ & _ & Hmsg).
  split; [exact (Hsteps eq_refl)|]. exact (Hmsg eq_refl).
Defined.

Lemma statistics_never_divide_by_zero_witness :
  ∃ q, py_truediv 2 (Z.of_nat (length history)) (world_at 1000 [] [])
       = (Ok q, world_at 1000 [] [], [])
       ∧ @percent_of nothing_stored 2 (Z.of_nat (length history)) (world_at 1000 [] [])
         = (Ok (@fmt_1f nothing_stored (q * 100)%Q +:+ "%"), world_at 1000 [] [], []).
Proof.
  apply (proj1 (proj2 (proj2 (@HistoryFacts.statistics_never_divide_by_zero nothing_stored
                                history (world_at 1000 [] []))))).
  discriminate.
Defined.

End Instances.

(** ** Reasoning about what a computation keeps, emits and raises *)

#[global] Instance same_store_preorder : PreOrder same_store.
Proof.
  split.
  - by intros w.
  - intros w1 w2 w3 [H1 H2] [H3 H4]. split; congruence.
Qed.

#[global] Instance same_schedule_preorder : PreOrder same_schedule.
Proof.
  split.
  - by intros w.
  - intros w1 w2 w3 (?&?&?) (?&?&?). repeat split; congruence.
Qed.

Section Keeping.
Context (R : world → world → Prop) `{!PreOrder R}.

Lemma keeps_pure {A} (m : M A) : (∀ w, (m w).1.2 = w) → preserves R m.
Proof. intros Hm w. by rewrite Hm. Qed.

Lemma keeps_ret {A} (a : A) : preserves R (ret a).
Proof. by apply keeps_pure. Qed.

Lemma keeps_raise {A} e : preserves R (@raise A e).
Proof. by apply keeps_pure. Qed.

Lemma keeps_rerun {A} : preserves R (@rerun A).
Proof. by apply keeps_pure. Qed.

Lemma keeps_type_error {A} msg : preserves R (@type_error A msg).
Proof. by apply keeps_pure. Qed.

Lemma keeps_lift {A} (r : res A) : preserves R (lift r).
Proof. by apply keeps_pure. Qed.

Lemma keeps_emit e : preserves R (emit e).
Proof. by apply keeps_pure. Qed.

Lemma keeps_session_get k d : preserves R (session_get k d).
Proof. by apply keeps_pure. Qed.

Lemma keeps_session_contains k : preserves R (session_contains k).
Proof. by apply keeps_pure. Qed.

Lemma keeps_time_time : preserves R time_time.
Proof. by apply keeps_pure. Qed.

Lemma keeps_get_self : preserves R get_self.
Proof. by apply keeps_pure. Qed.

Lemma keeps_bind {A B} (m : M A) (k : A → M B) :
  preserves R m → (∀ a, preserves R (k a)) → preserves R (bind m k).
Proof.
  intros Hm Hk w. specialize (Hm w). unfold bind.
  destruct (m w) as [[[a|e] w1] ev1]; simpl in *; [|done].
  specialize (Hk a w1). destruct (k a w1) as [[r w2] ev2]; simpl in *.
  by etrans.
Qed.

Lemma keeps_try_except {A} (m : M A) (h : string → M A) :
  preserves R m → (∀ msg, preserves R (h msg)) → preserves R (try_except m h).
Proof.
  intros Hm Hh w. specialize (Hm w). unfold try_except.
  destruct (m w) as [[[a|[cls msg|]] w1] ev1]; simpl in *; try done.
  specialize (Hh msg w1). destruct (h msg w1) as [[r w2] ev2]; simpl in *.
  by etrans.
Qed.

Lemma keeps_try_bare {A} (m h : M A) :
  preserves R m → preserves R h → preserves R (try_bare m h).
Proof.
  intros Hm Hh w. specialize (Hm w). unfold try_bare.
  destruct (m w) as [[[a|e] w1] ev1]; simpl in *; try done.
  specialize (Hh w1). destruct (h w1) as [[r w2] ev2]; simpl in *.
  by etrans.
Qed.

Lemma keeps_finally {A} (m : M A) (c : M unit) :
  preserves R m → preserves R c → preserves R (finally_ m c).
Proof.
  intros Hm Hc w. specialize (Hm w). unfold finally_.
  destruct (m w) as [[r w1] ev1]; simpl in *.
  specialize (Hc w1). destruct (c w1) as [[[[]|e] w2] ev2]; simpl in *; by etrans.
Qed.

Lemma keeps_when b (m : M unit) : preserves R m → preserves R (when b m).
Proof. destruct b; [done|]. intros _. apply keeps_ret. Qed.

Lemma keeps_py_sub a b : preserves R (py_sub a b).
Proof. apply keeps_pure. intros w. unfold py_sub. by repeat case_match. Qed.

Lemma keeps_py_add a b : preserves R (py_add a b).
Proof. apply keeps_pure. intros w. unfold py_add. by repeat case_match. Qed.

Lemma keeps_py_gt a n : preserves R (py_gt a n).
Proof. apply keeps_pure. intros w. unfold py_gt. by repeat case_match. Qed.

Lemma keeps_py_ge a n : preserves R (py_ge a n).
Proof. apply keeps_pure. intros w. unfold py_ge. by repeat case_match. Qed.

Lemma keeps_py_max0 a : preserves R (py_max0 a).
Proof. apply keeps_pure. intros w. unfold py_max0. by repeat case_match. Qed.

Lemma keeps_status_icon v : preserves R (status_icon v).
Proof. apply keeps_pure. intros w. unfold status_icon. by repeat case_match. Qed.

Context `{!Env}.

Lemma keeps_ext e : preserves R (ext e).
Proof. apply keeps_pure. intros w. unfold ext. by case_match. Qed.

Lemma keeps_st c : preserves R (st c).
Proof. apply keeps_ext. Qed.

Lemma keeps_slot n c : preserves R (slot n c).
Proof. apply keeps_ext. Qed.

Lemma keeps_log l msg : preserves R (log l msg).
Proof. apply keeps_emit. Qed.

Lemma keeps_button l key : preserves R (button l key).
Proof. apply keeps_bind; [apply keeps_st | intros; apply keeps_ret]. Qed.

Lemma keeps_button_unkeyed l : preserves R (button_unkeyed l).
Proof. apply keeps_bind; [apply keeps_st | intros; apply keeps_ret]. Qed.

Lemma keeps_checkbox l key : preserves R (checkbox l key).
Proof.
  apply keeps_bind; [apply keeps_st | intros].
  apply keeps_bind; [apply keeps_session_get | intros; apply keeps_ret].
Qed.

Lemma keeps_fetch id : preserves R (fetch id).
Proof. apply keeps_bind; [apply keeps_ext | intros; apply keeps_ret]. Qed.

Lemma keeps_format_results raw : preserves R (format_results raw).
Proof. apply keeps_bind; [apply keeps_ext | intros; apply keeps_ret]. Qed.

Lemma keeps_format_1f v : preserves R (format_1f v).
Proof. apply keeps_pure. intros w. unfold format_1f. by repeat case_match. Qed.

Lemma keeps_progress_arg v : preserves R (progress_arg v).
Proof. apply keeps_pure. intros w. unfold progress_arg. by case_match. Qed.

Lemma keeps_py_import name : preserves R (py_import name).
Proof. apply keeps_pure. intros w. unfold py_import. by case_match. Qed.

(** What follows a button is judged for the answer the button gives. *)
Lemma keeps_after_button l key {B} (k : bool → M B) :
  preserves R (k (clicked key)) → preserves R (bind (button l key) k).
Proof.
  intros Hk w. unfold button, st, ext, bind. destruct (fault _); simpl; [done|].
  specialize (Hk w). by destruct (k _ w) as [[r w2] ev2].
Qed.

Lemma keeps_after_button_unkeyed l {B} (k : bool → M B) :
  preserves R (k (clicked l)) → preserves R (bind (button_unkeyed l) k).
Proof.
  intros Hk w. unfold button_unkeyed, st, ext, bind. destruct (fault _); simpl; [done|].
  specialize (Hk w). by destruct (k _ w) as [[r w2] ev2].
Qed.

Lemma keeps_for_each {A} (l : list A) (f : A → M unit) :
  (∀ a, preserves R (f a)) → preserves R (History.for_each l f).
Proof.
  intros Hf. induction l as [|a l IH]; simpl; [apply keeps_ret|].
  apply keeps_bind; [apply Hf | intros; apply IH].
Qed.

Lemma keeps_for_each_indexed {A} i (l : list A) (f : Z → A → M unit) :
  (∀ i a, preserves R (f i a)) → preserves R (for_each_indexed i l f).
Proof.
  intros Hf. revert i. induction l as [|a l IH]; intros i; simpl; [apply keeps_ret|].
  apply keeps_bind; [apply Hf | intros; apply IH].
Qed.

End Keeping.

Create HintDb keeps discriminated.
#[global] Hint Resolve keeps_ret keeps_raise keeps_rerun keeps_type_error keeps_lift keeps_emit
  keeps_session_get keeps_session_contains keeps_time_time keeps_get_self
  keeps_py_sub keeps_py_add keeps_py_gt keeps_py_ge keeps_py_max0 keeps_status_icon
  keeps_ext keeps_st keeps_slot keeps_log keeps_button keeps_button_unkeyed keeps_checkbox
  keeps_fetch keeps_format_results keeps_format_1f keeps_progress_arg keeps_py_import : keeps.
#[global] Hint Extern 0 (PreOrder _) => typeclasses eauto : keeps.

(** One step of a proof that a computation [preserves] a relation. *)
Ltac keeps_step :=
  match goal with
  | |- preserves _ (bind (button _ _) _) => apply keeps_after_button; [typeclasses eauto|]
  | |- preserves _ (bind (button_unkeyed _) _) =>
      apply keeps_after_button_unkeyed; [typeclasses eauto|]
  | |- preserves _ (when (clicked ?k) _) => destruct (clicked k) eqn:?; simpl
  | |- preserves _ (bind _ _) => apply keeps_bind; [typeclasses eauto| |intros]
  | |- preserves _ (try_except _ _) => apply keeps_try_except; [typeclasses eauto| |intros]
  | |- preserves _ (try_bare _ _) => apply keeps_try_bare; [typeclasses eauto| |]
  | |- preserves _ (finally_ _ _) => apply keeps_finally; [typeclasses eauto| |]
  | |- preserves _ (when _ _) => apply keeps_when; [typeclasses eauto|]
  | |- preserves _ (History.for_each _ _) => apply keeps_for_each; [typeclasses eauto|intros]
  | |- preserves _ (for_each_indexed _ _ _) =>
      apply keeps_for_each_indexed; [typeclasses eauto|intros]
  | |- preserves _ (if ?b then _ else _) => destruct b
  | |- preserves _ (match ?x with _ => _ end) => destruct x
  | |- preserves _ _ => solve [auto with keeps]
  end.

Section Emitting.
Context (P : event → Prop).

Lemma emits_silent {A} (m : M A) : (∀ w, (m w).2 = []) → emits_only P m.
Proof. intros Hm w e. rewrite Hm. by intros ?%not_elem_of_nil. Qed.

Lemma emits_ret {A} (a : A) : emits_only P (ret a).
Proof. by apply emits_silent. Qed.

Lemma emits_raise {A} e : emits_only P (@raise A e).
Proof. by apply emits_silent. Qed.

Lemma emits_rerun {A} : emits_only P (@rerun A).
Proof. by apply emits_silent. Qed.

Lemma emits_type_error {A} msg : emits_only P (@type_error A msg).
Proof. by apply emits_silent. Qed.

Lemma emits_lift {A} (r : res A) : emits_only P (lift r).
Proof. by apply emits_silent. Qed.

Lemma emits_emit e : P e → emits_only P (emit e).
Proof. intros He w e'. simpl. by intros ->%list_elem_of_singleton. Qed.

Lemma emits_session_get k d : emits_only P (session_get k d).
Proof. by apply emits_silent. Qed.

Lemma emits_session_contains k : emits_only P (session_contains k).
Proof. by apply emits_silent. Qed.

Lemma emits_session_set k v : P (SessionSet k v) → emits_only P (session_set k v).
Proof. intros He w e'. simpl. by intros ->%list_elem_of_singleton. Qed.

Lemma emits_session_del k : P (SessionDel k) → emits_only P (session_del k).
Proof. intros He w e'. simpl. by intros ->%list_elem_of_singleton. Qed.

Lemma emits_time_time : emits_only P time_time.
Proof. by apply emits_silent. Qed.

Lemma emits_get_self : emits_only P get_self.
Proof. by apply emits_silent. Qed.

Lemma emits_set_dom_lock b : emits_only P (set_dom_lock b).
Proof. by apply emits_silent. Qed.

Lemma emits_set_last_update t : emits_only P (set_last_update t).
Proof. by apply emits_silent. Qed.

Lemma emits_set_is_completed b : emits_only P (set_is_completed b).
Proof. by apply emits_silent. Qed.

Lemma emits_bind {A B} (m : M A) (k : A → M B) :
  emits_only P m → (∀ a, emits_only P (k a)) → emits_only P (bind m k).
Proof.
  intros Hm Hk w e. specialize (Hm w). unfold bind.
  destruct (m w) as [[[a|x] w1] ev1]; simpl in *; [|by apply Hm].
  specialize (Hk a w1). destruct (k a w1) as [[r w2] ev2]; simpl in *.
  rewrite elem_of_app. intros [?|?]; auto.
Qed.

Lemma emits_try_except {A} (m : M A) (h : string → M A) :
  emits_only P m → (∀ msg, emits_only P (h msg)) → emits_only P (try_except m h).
Proof.
  intros Hm Hh w e. specialize (Hm w). unfold try_except.
  destruct (m w) as [[[a|[cls msg|]] w1] ev1]; simpl in *; try by apply Hm.
  specialize (Hh msg w1). destruct (h msg w1) as [[r w2] ev2]; simpl in *.
  rewrite elem_of_app. intros [?|?]; auto.
Qed.

Lemma emits_try_bare {A} (m h : M A) :
  emits_only P m → emits_only P h → emits_only P (try_bare m h).
Proof.
  intros Hm Hh w e. specialize (Hm w). unfold try_bare.
  destruct (m w) as [[[a|x] w1] ev1]; simpl in *; try by apply Hm.
  specialize (Hh w1). destruct (h w1) as [[r w2] ev2]; simpl in *.
  rewrite elem_of_app. intros [?|?]; auto.
Qed.

Lemma emits_finally {A} (m : M A) (c : M unit) :
  emits_only P m → emits_only P c → emits_only P (finally_ m c).
Proof.
  intros Hm Hc w e. specialize (Hm w). unfold finally_.
  destruct (m w) as [[r w1] ev1]; simpl in *.
  specialize (Hc w1). destruct (c w1) as [[[[]|x] w2] ev2]; simpl in *.
  all: rewrite elem_of_app; intros [?|?]; auto.
Qed.

Lemma emits_when b (m : M unit) : emits_only P m → emits_only P (when b m).
Proof. destruct b; [done|]. intros _. apply emits_ret. Qed.

Lemma emits_py_sub a b : emits_only P (py_sub a b).
Proof. apply emits_silent. intros w. unfold py_sub. by repeat case_match. Qed.

Lemma emits_py_add a b : emits_only P (py_add a b).
Proof. apply emits_silent. intros w. unfold py_add. by repeat case_match. Qed.

Lemma emits_py_gt a n : emits_only P (py_gt a n).
Proof. apply emits_silent. intros w. unfold py_gt. by repeat case_match. Qed.

Lemma emits_py_ge a n : emits_only P (py_ge a n).
Proof. apply emits_silent. intros w. unfold py_ge. by repeat case_match. Qed.

Lemma emits_py_max0 a : emits_only P (py_max0 a).
Proof. apply emits_silent. intros w. unfold py_max0. by repeat case_match. Qed.

Lemma emits_status_icon v : emits_only P (status_icon v).
Proof. apply emits_silent. intros w. unfold status_icon. by repeat case_match. Qed.

Context `{!Env}.

Lemma emits_ext e : P e → emits_only P (ext e).
Proof.
  intros He w e'. unfold ext. case_match; simpl; by intros ->%list_elem_of_singleton.
Qed.

Lemma emits_st c : P (St c) → emits_only P (st c).
Proof. apply emits_ext. Qed.

Lemma emits_slot n c : P (Slot n c) → emits_only P (slot n c).
Proof. apply emits_ext. Qed.

Lemma emits_log l msg : P (Log l msg) → emits_only P (log l msg).
Proof. apply emits_emit. Qed.

Lemma emits_button l key : P (St (Button l key)) → emits_only P (button l key).
Proof. intros. apply emits_bind; [by apply emits_st | intros; apply emits_ret]. Qed.

Lemma emits_button_unkeyed l : P (St (Button l "")) → emits_only P (button_unkeyed l).
Proof. intros. apply emits_bind; [by apply emits_st | intros; apply emits_ret]. Qed.

Lemma emits_checkbox l key : P (St (Checkbox l key)) → emits_only P (checkbox l key).
Proof.
  intros. apply emits_bind; [by apply emits_st | intros].
  apply emits_bind; [apply emits_session_get | intros; apply emits_ret].
Qed.

Lemma emits_fetch id : P (Fetch id) → emits_only P (fetch id).
Proof. intros. apply emits_bind; [by apply emits_ext | intros; apply emits_ret]. Qed.

Lemma emits_format_results raw :
  P (FormatResults raw) → emits_only P (format_results raw).
Proof. intros. apply emits_bind; [by apply emits_ext | intros; apply emits_ret]. Qed.

Lemma emits_format_1f v : emits_only P (format_1f v).
Proof. apply emits_silent. intros w. unfold format_1f. by repeat case_match. Qed.

Lemma emits_progress_arg v : emits_only P (progress_arg v).
Proof. apply emits_silent. intros w. unfold progress_arg. by case_match. Qed.

Lemma emits_py_import name : emits_only P (py_import name).
Proof. apply emits_silent. intros w. unfold py_import. by case_match. Qed.

Lemma emits_after_button l key {B} (k : bool → M B) :
  P (St (Button l key)) → emits_only P (k (clicked key)) →
  emits_only P (bind (button l key) k).
Proof.
  intros Hb Hk w e. unfold button, st, ext, bind. destruct (fault _); simpl.
  - by intros ->%list_elem_of_singleton.
  - specialize (Hk w e). destruct (k _ w) as [[r w2] ev2]. simpl in *.
    rewrite elem_of_cons. intros [->|?]; auto.
Qed.

Lemma emits_after_button_unkeyed l {B} (k : bool → M B) :
  P (St (Button l "")) → emits_only P (k (clicked l)) →
  emits_only P (bind (button_unkeyed l) k).
Proof.
  intros Hb Hk w e. unfold button_unkeyed, st, ext, bind. destruct (fault _); simpl.
  - by intros ->%list_elem_of_singleton.
  - specialize (Hk w e). destruct (k _ w) as [[r w2] ev2]. simpl in *.
    rewrite elem_of_cons. intros [->|?]; auto.
Qed.

Lemma emits_for_each {A} (l : list A) (f : A → M unit) :
  (∀ a, emits_only P (f a)) → emits_only P (History.for_each l f).
Proof.
  intros Hf. induction l as [|a l IH]; simpl; [apply emits_ret|].
  apply emits_bind; [apply Hf | intros; apply IH].
Qed.

Lemma emits_for_each_indexed {A} i (l : list A) (f : Z → A → M unit) :
  (∀ i a, emits_only P (f i a)) → emits_only P (for_each_indexed i l f).
Proof.
  intros Hf. revert i. induction l as [|a l IH]; intros i; simpl; [apply emits_ret|].
  apply emits_bind; [apply Hf | intros; apply IH].
Qed.

End Emitting.

Lemma emits_weaken (P Q : event → Prop) {A} (m : M A) :
  (∀ e, P e → Q e) → emits_only P m → emits_only Q m.
Proof. intros HPQ Hm w e He. apply HPQ. by eapply Hm. Qed.

Create HintDb emits discriminated.
#[global] Hint Resolve emits_ret emits_raise emits_rerun emits_type_error emits_lift
  emits_session_get emits_session_contains emits_time_time emits_get_self
  emits_set_dom_lock emits_set_last_update emits_set_is_completed
  emits_py_sub emits_py_add emits_py_gt emits_py_ge emits_py_max0 emits_status_icon
  emits_format_1f emits_progress_arg emits_py_import : emits.

(** One step of a proof that a computation [emits_only] events of a kind;
    [side] settles that a given event is of the kind. *)
Ltac emits_step side :=
  match goal with
  | |- emits_only _ (bind (button _ _) _) => apply emits_after_button; [side|]
  | |- emits_only _ (bind (button_unkeyed _) _) => apply emits_after_button_unkeyed; [side|]
  | |- emits_only _ (when (clicked ?k) _) => destruct (clicked k) eqn:?; simpl
  | |- emits_only _ (bind _ _) => apply emits_bind; [|intros]
  | |- emits_only _ (try_except _ _) => apply emits_try_except; [|intros]
  | |- emits_only _ (try_bare _ _) => apply emits_try_bare
  | |- emits_only _ (finally_ _ _) => apply emits_finally
  | |- emits_only _ (when _ _) => apply emits_when
  | |- emits_only _ (History.for_each _ _) => apply emits_for_each; intros
  | |- emits_only _ (for_each_indexed _ _ _) => apply emits_for_each_indexed; intros
  | |- emits_only _ (st _) => apply emits_st; side
  | |- emits_only _ (slot _ _) => apply emits_slot; side
  | |- emits_only _ (log _ _) => apply emits_log; side
  | |- emits_only _ (ext _) => apply emits_ext; side
  | |- emits_only _ (emit _) => apply emits_emit; side
  | |- emits_only _ (button _ _) => apply emits_button; side
  | |- emits_only _ (button_unkeyed _) => apply emits_button_unkeyed; side
  | |- emits_only _ (checkbox _ _) => apply emits_checkbox; side
  | |- emits_only _ (fetch _) => apply emits_fetch; side
  | |- emits_only _ (format_results _) => apply emits_format_results; side
  | |- emits_only _ (session_set _ _) => apply emits_session_set; side
  | |- emits_only _ (session_del _) => apply emits_session_del; side
  | |- emits_only _ (if ?b then _ else _) => destruct b
  | |- emits_only _ (match ?x with _ => _ end) => destruct x
  | |- emits_only _ _ => solve [auto with emits]
  end.

Section Raising.
Context (R : exn → Prop).

Lemma raises_never {A} (m : M A) : (∀ w, ∃ a, (m w).1.1 = Ok a) → raises_only R m.
Proof. intros Hm w e He. destruct (Hm w) as [a Ha]. congruence. Qed.

Lemma raises_ret {A} (a : A) : raises_only R (ret a).
Proof. apply raises_never. by eexists. Qed.

Lemma raises_raise {A} e : R e → raises_only R (@raise A e).
Proof. intros He w e'. simpl. by intros [= <-]. Qed.

Lemma raises_lift {A} (r : res A) : (∀ e, r = Raise e → R e) → raises_only R (lift r).
Proof. intros Hr w e. simpl. apply Hr. Qed.

Lemma raises_bind {A B} (m : M A) (k : A → M B) :
  raises_only R m → (∀ a, raises_only R (k a)) → raises_only R (bind m k).
Proof.
  intros Hm Hk w e. specialize (Hm w). unfold bind.
  destruct (m w) as [[[a|x] w1] ev1]; simpl in *; [|intros [= <-]; by apply Hm].
  specialize (Hk a w1). destruct (k a w1) as [[r w2] ev2]; simpl in *. apply Hk.
Qed.

(** [except Exception] lets through what is not an [Exception]. *)
Lemma raises_try_except {A} (m : M A) (h : string → M A) :
  raises_only (λ e, match e with PyException _ _ => True | _ => R e end) m →
  (∀ msg, raises_only R (h msg)) → raises_only R (try_except m h).
Proof.
  intros Hm Hh w e. specialize (Hm w). unfold try_except.
  destruct (m w) as [[[a|[cls msg|]] w1] ev1]; simpl in *; try done.
  - specialize (Hh msg w1). destruct (h msg w1) as [[r w2] ev2]; simpl in *. apply Hh.
  - intros [= <-]. by apply (Hm RerunException).
Qed.

Lemma raises_try_bare {A} (m h : M A) : raises_only R h → raises_only R (try_bare m h).
Proof.
  intros Hh w e. unfold try_bare.
  destruct (m w) as [[[a|x] w1] ev1]; simpl in *; try done.
  specialize (Hh w1). destruct (h w1) as [[r w2] ev2]; simpl in *. apply Hh.
Qed.

Lemma raises_finally {A} (m : M A) (c : M unit) :
  raises_only R m → raises_only R c → raises_only R (finally_ m c).
Proof.
  intros Hm Hc w e. specialize (Hm w). unfold finally_.
  destruct (m w) as [[r w1] ev1]; simpl in *.
  specialize (Hc w1). destruct (c w1) as [[[[]|x] w2] ev2]; simpl in *.
  - apply Hm.
  - intros [= <-]. by apply Hc.
Qed.

Lemma raises_when b (m : M unit) : raises_only R m → raises_only R (when b m).
Proof. destruct b; [done|]. intros _. apply raises_ret. Qed.

Lemma raises_weaken (R' : exn → Prop) {A} (m : M A) :
  (∀ e, R' e → R e) → raises_only R' m → raises_only R m.
Proof. intros HR Hm w e He. apply HR. by eapply Hm. Qed.

End Raising.

#[global] Instance still_unlocked_preorder : PreOrder still_unlocked.
Proof.
  split.
  - intros w Hw. exact Hw.
  - intros w1 w2 w3 H1 H2 Hw. by apply H2, H1.
Qed.

Section RaisingPy.
Context (R : exn → Prop) (HR : ∀ cls msg, R (PyException cls msg)).

(** A computation that raises nothing but Python exceptions. *)
Lemma raises_py {A} (m : M A) :
  (∀ w, (m w).1.1 ≠ Raise RerunException) → raises_only R m.
Proof. intros Hm w [cls msg|] He; [apply HR|]. by destruct (Hm w). Qed.

Lemma raises_try_except_py {A} (m : M A) (h : string → M A) :
  raises_only R m → (∀ msg, raises_only R (h msg)) → raises_only R (try_except m h).
Proof.
  intros Hm Hh. apply raises_try_except; [|done].
  eapply raises_weaken; [|exact Hm]. by intros [].
Qed.

Lemma raises_type_error {A} msg : raises_only R (@type_error A msg).
Proof. by apply raises_py. Qed.

Lemma raises_session_get k d : raises_only R (session_get k d).
Proof. by apply raises_py. Qed.

Lemma raises_session_contains k : raises_only R (session_contains k).
Proof. by apply raises_py. Qed.

Lemma raises_session_set k v : raises_only R (session_set k v).
Proof. by apply raises_py. Qed.

Lemma raises_session_del k : raises_only R (session_del k).
Proof. by apply raises_py. Qed.

Lemma raises_time_time : raises_only R time_time.
Proof. by apply raises_py. Qed.

Lemma raises_get_self : raises_only R get_self.
Proof. by apply raises_py. Qed.

Lemma raises_emit e : raises_only R (emit e).
Proof. by apply raises_py. Qed.

Lemma raises_set_dom_lock b : raises_only R (set_dom_lock b).
Proof. by apply raises_py. Qed.

Lemma raises_set_last_update t : raises_only R (set_last_update t).
Proof. by apply raises_py. Qed.

Lemma raises_set_is_completed b : raises_only R (set_is_completed b).
Proof. by apply raises_py. Qed.

Lemma raises_lift_py {A} (r : res A) : r ≠ Raise RerunException → raises_only R (lift r).
Proof. intros. by apply raises_py. Qed.

Lemma raises_py_sub a b : raises_only R (py_sub a b).
Proof. apply raises_py. intros w. unfold py_sub. by repeat case_match. Qed.

Lemma raises_py_add a b : raises_only R (py_add a b).
Proof. apply raises_py. intros w. unfold py_add. by repeat case_match. Qed.

Lemma raises_py_gt a n : raises_only R (py_gt a n).
Proof. apply raises_py. intros w. unfold py_gt. by repeat case_match. Qed.

Lemma raises_py_ge a n : raises_only R (py_ge a n).
Proof. apply raises_py. intros w. unfold py_ge. by repeat case_match. Qed.

Lemma raises_py_max0 a : raises_only R (py_max0 a).
Proof. apply raises_py. intros w. unfold py_max0. by repeat case_match. Qed.

Lemma raises_status_icon v : raises_only R (status_icon v).
Proof. apply raises_py. intros w. unfold status_icon. by repeat case_match. Qed.

Context `{!Env}.

Lemma raises_ext e : raises_only R (ext e).
Proof. apply raises_py. intros w. unfold ext. by case_match. Qed.

Lemma raises_st c : raises_only R (st c).
Proof. apply raises_ext. Qed.

Lemma raises_slot n c : raises_only R (slot n c).
Proof. apply raises_ext. Qed.

Lemma raises_log l msg : raises_only R (log l msg).
Proof. apply raises_emit. Qed.

Lemma raises_button l key : raises_only R (button l key).
Proof. apply raises_bind; [apply raises_st | intros; apply raises_ret]. Qed.

Lemma raises_button_unkeyed l : raises_only R (button_unkeyed l).
Proof. apply raises_bind; [apply raises_st | intros; apply raises_ret]. Qed.

Lemma raises_checkbox l key : raises_only R (checkbox l key).
Proof.
  apply raises_bind; [apply raises_st | intros].
  apply raises_bind; [apply raises_session_get | intros; apply raises_ret].
Qed.

Lemma raises_fetch id : raises_only R (fetch id).
Proof. apply raises_bind; [apply raises_ext | intros; apply raises_ret]. Qed.

Lemma raises_format_results raw : raises_only R (format_results raw).
Proof. apply raises_bind; [apply raises_ext | intros; apply raises_ret]. Qed.

Lemma raises_format_1f v : raises_only R (format_1f v).
Proof. apply raises_py. intros w. unfold format_1f. by repeat case_match. Qed.

Lemma raises_progress_arg v : raises_only R (progress_arg v).
Proof. apply raises_py. intros w. unfold progress_arg. by case_match. Qed.

Lemma raises_py_import name : raises_only R (py_import name).
Proof. apply raises_py. intros w. unfold py_import. by case_match. Qed.

Lemma raises_time_sleep secs : raises_only R (time_sleep secs).
Proof. apply raises_py. intros w. unfold time_sleep. by case_match. Qed.

(** What follows a button is judged for the answer the button gives. *)
Lemma raises_after_button l key {B} (k : bool → M B) :
  raises_only R (k (clicked key)) → raises_only R (bind (button l key) k).
Proof.
  intros Hk w e. unfold button, st, ext, bind. destruct (fault _); simpl.
  - intros [= <-]. apply HR.
  - specialize (Hk w e). destruct (k _ w) as [[r w2] ev2]. apply Hk.
Qed.

Lemma raises_after_button_unkeyed l {B} (k : bool → M B) :
  raises_only R (k (clicked l)) → raises_only R (bind (button_unkeyed l) k).
Proof.
  intros Hk w e. unfold button_unkeyed, st, ext, bind. destruct (fault _); simpl.
  - intros [= <-]. apply HR.
  - specialize (Hk w e). destruct (k _ w) as [[r w2] ev2]. apply Hk.
Qed.

Lemma raises_for_each {A} (l : list A) (f : A → M unit) :
  (∀ a, raises_only R (f a)) → raises_only R (History.for_each l f).
Proof.
  intros Hf. induction l as [|a l IH]; simpl; [apply raises_ret|].
  apply raises_bind; [apply Hf | intros; apply IH].
Qed.

Lemma raises_for_each_indexed {A} i (l : list A) (f : Z → A → M unit) :
  (∀ i a, raises_only R (f i a)) → raises_only R (for_each_indexed i l f).
Proof.
  intros Hf. revert i. induction l as [|a l IH]; intros i; simpl; [apply raises_ret|].
  apply raises_bind; [apply Hf | intros; apply IH].
Qed.

End RaisingPy.

Create HintDb raises discriminated.
#[global] Hint Resolve raises_ret raises_type_error raises_session_get raises_session_contains
  raises_session_set raises_session_del raises_time_time raises_get_self raises_emit
  raises_set_dom_lock raises_set_last_update raises_set_is_completed
  raises_py_sub raises_py_add raises_py_gt raises_py_ge raises_py_max0 raises_status_icon
  raises_ext raises_st raises_slot raises_log raises_button raises_button_unkeyed
  raises_checkbox raises_fetch raises_format_results raises_format_1f raises_progress_arg
  raises_py_import raises_time_sleep : raises.

(** One step of a proof about what a computation raises, for a condition
    that every Python exception meets ([py] proves that). *)
Ltac raises_step py :=
  match goal with
  | |- raises_only _ (bind (button _ _) _) => apply raises_after_button; [exact py|]
  | |- raises_only _ (bind (button_unkeyed _) _) =>
      apply raises_after_button_unkeyed; [exact py|]
  | |- raises_only _ (bind _ _) => apply raises_bind; [|intros]
  | |- raises_only _ (try_except _ _) => apply raises_try_except_py; [|intros]
  | |- raises_only _ (try_bare _ _) => apply raises_try_bare
  | |- raises_only _ (finally_ _ _) => apply raises_finally
  | |- raises_only _ (when (clicked ?k) _) => destruct (clicked k) eqn:?; simpl
  | |- raises_only _ (when ?b _) => apply raises_when
  | |- raises_only _ (History.for_each _ _) => apply raises_for_each; intros
  | |- raises_only _ (for_each_indexed _ _ _) => apply raises_for_each_indexed; intros
  | |- raises_only _ (if ?b then _ else _) => destruct b eqn:?
  | |- raises_only _ (match ?x with _ => _ end) => destruct x eqn:?
  | |- raises_only _ _ => solve [auto using py with raises]
  end.

Module RefresherFacts.
Import Display Refresher.

Section WithEnv.
Context `{!Env}.

Lemma asked_rerun_py cls msg : asked_rerun (PyException cls msg).
Proof. done. Qed.

Lemma render_view_report_raises d :
  (∃ key, clicked key = true) → raises_only asked_rerun (render_view_report d).
Proof.
  intros Hc. unfold render_view_report.
  repeat first [ apply raises_raise; exact Hc | raises_step asked_rerun_py ].
Qed.

Lemma render_body_raises d : raises_only asked_rerun (render_body d).
Proof.
  unfold render_body, shown_elapsed.
  repeat first
    [ apply raises_raise; by eexists
    | apply render_view_report_raises; by eexists
    | raises_step asked_rerun_py ].
Qed.

(** Whatever goes wrong while rendering is logged and, if possible, shown:
    the only exception that leaves [_render_progress] is the rerun request
    of a button that reports a click. *)
Lemma render_progress_raises d :
  raises_only (λ e, e = RerunException ∧ ∃ key, clicked key = true) (_render_progress d).
Proof.
  unfold _render_progress.
  apply raises_finally; [|by apply raises_never; eexists].
  apply raises_try_except.
  - eapply raises_weaken; [|apply render_body_raises]. by intros [].
  - intros msg. apply raises_bind; [by apply raises_never; eexists|intros _].
    apply raises_try_bare. by apply raises_never; eexists.
Qed.

(** X1.  Whatever the payload holds and whatever the widgets do,
    [_render_progress] ends in one of two ways: it returns, or it passes on
    the rerun request of a button that reports a click.  No Python exception
    leaves it, and the display object's lock is released in both cases. *)
Theorem render_failures_stay_inside d w :
  let out := _render_progress d w in
  (out.1.1 = Ok tt ∨ (out.1.1 = Raise RerunException ∧ ∃ key, clicked key = true))
  ∧ dom_lock (self out.1.2) = false.
Proof.
  intros out. split.
  - pose proof (render_progress_raises d w) as Hr. fold out in Hr.
    destruct out.1.1 as [[]|e]; [by left|right].
    destruct (Hr e eq_refl) as [-> ?]. done.
  - unfold out, _render_progress, finally_.
    by destruct (try_except _ _ w) as [[r w1] ev1].
Qed.


(** *** What [update_display] keeps *)

Lemma schedule_session_set k v : preserves same_schedule (session_set k v).
Proof. by intros w. Qed.

Lemma schedule_session_del k : preserves same_schedule (session_del k).
Proof. by intros w. Qed.

Lemma schedule_set_dom_lock b : preserves same_schedule (set_dom_lock b).
Proof. by intros w. Qed.

Lemma schedule_set_last_update t : preserves same_schedule (set_last_update t).
Proof. by intros w. Qed.

Lemma schedule_set_is_completed b : preserves same_schedule (set_is_completed b).
Proof. by intros w. Qed.

#[local] Hint Resolve schedule_session_set schedule_session_del schedule_set_dom_lock
  schedule_set_last_update schedule_set_is_completed : keeps.

Lemma schedule_render_progress d : preserves same_schedule (_render_progress d).
Proof.
  unfold _render_progress, render_body, render_view_report, shown_elapsed.
  repeat keeps_step.
Qed.

Lemma schedule_update_display : preserves same_schedule update_display.
Proof.
  unfold update_display. repeat first [apply schedule_render_progress | keeps_step].
Qed.

Lemma unlocked_session_set k v : preserves still_unlocked (session_set k v).
Proof. intros w Hw. exact Hw. Qed.

Lemma unlocked_session_del k : preserves still_unlocked (session_del k).
Proof. intros w Hw. exact Hw. Qed.

Lemma unlocked_set_dom_lock : preserves still_unlocked (set_dom_lock false).
Proof. by intros w Hw. Qed.

Lemma unlocked_set_last_update t : preserves still_unlocked (set_last_update t).
Proof. intros w Hw. exact Hw. Qed.

Lemma unlocked_set_is_completed b : preserves still_unlocked (set_is_completed b).
Proof. intros w Hw. exact Hw. Qed.

Lemma unlocked_sleep secs : preserves still_unlocked (sleep secs).
Proof. intros w Hw. exact Hw. Qed.

Lemma unlocked_time_sleep secs : preserves still_unlocked (time_sleep secs).
Proof.
  unfold time_sleep. destruct (_ <? _); [intros w Hw; exact Hw|apply unlocked_sleep].
Qed.

#[local] Hint Resolve unlocked_session_set unlocked_session_del unlocked_set_dom_lock
  unlocked_set_last_update unlocked_set_is_completed unlocked_time_sleep : keeps.

Lemma unlocked_render_progress d : preserves still_unlocked (_render_progress d).
Proof. intros w _. apply DisplayFacts.render_progress_releases_dom_lock. Qed.

Lemma unlocked_update_display : preserves still_unlocked update_display.
Proof.
  unfold update_display. repeat first [apply unlocked_render_progress | keeps_step].
Qed.

Lemma unlocked_refresh_rounds rounds start max_duration :
  preserves still_unlocked (refresh_rounds rounds start max_duration).
Proof.
  induction rounds as [|rounds IH]; simpl.
  - apply keeps_ret; typeclasses eauto.
  - repeat first [apply unlocked_update_display | apply IH | keeps_step].
Qed.

Lemma guarded_widgets_unlock {A} (body : M A) w :
  dom_lock (self ((set_dom_lock true;;; finally_ body (set_dom_lock false)) w).1.2) = false.
Proof.
  rewrite bind_step. simpl. rewrite after_nil. unfold finally_.
  by destruct (body _) as [[r w1] ev1].
Qed.

(** X2.  The lock of the display object is never left set.  A new object
    has it released, also when the creation of its widgets fails; and
    [update_display] and [auto_refresh_progress], started with the lock
    released, end with the lock released, however they end.  So the lock
    check of [update_display] never fires on an object that is used through
    these methods only. *)
Theorem dom_lock_never_left_set :
  (∀ id interval w, dom_lock (self (__init__ id interval w).1.2) = false)
  ∧ (∀ w, dom_lock (self w) = false → dom_lock (self (update_display w).1.2) = false)
  ∧ (∀ rounds max_duration w,
       dom_lock (self w) = false →
       dom_lock (self (auto_refresh_progress rounds max_duration w).1.2) = false).
Proof.
  split; [|split].
  - intros id interval w. unfold __init__.
    rewrite bind_step. simpl. rewrite bind_step. simpl. rewrite bind_step. simpl.
    rewrite !after_nil.
    match goal with
    | |- context [bind (set_dom_lock true) ?k ?w0] =>
        pose proof (guarded_widgets_unlock (st (Progress 0);;; st Empty;;; st Empty;;;
                                            st Empty;;; st Empty) w0) as Hu;
        destruct (bind (set_dom_lock true) k w0) as [[[[]|e] w1] ev1]
    end; exact Hu.
  - intros w. apply unlocked_update_display.
  - intros rounds max_duration.
    assert (preserves still_unlocked (auto_refresh_progress rounds max_duration)) as Hk; [|exact Hk].
    unfold auto_refresh_progress.
    repeat first [apply unlocked_refresh_rounds | keeps_step].
Qed.

(** *** When [update_display] polls *)

(** Before its time, [update_display] does nothing. *)
Lemma update_display_idle w :
  poll_due w = false → update_display w = (Ok (negb (is_completed (self w))), w, []).
Proof.
  unfold poll_due, update_display. rewrite bind_step. simpl. rewrite bind_step. simpl.
  destruct (dom_lock (self w)); simpl; [done|].
  destruct (is_completed (self w)); simpl.
  - by rewrite orb_true_r.
  - rewrite orb_false_r, andb_true_r. intros Hdue%Z.leb_gt.
    by rewrite (proj2 (Z.ltb_lt _ _) Hdue).
Qed.

(** X3.  [update_display] asks the tracker for the progress exactly when the
    display object is not locked and either the refresh interval has passed
    since the last update or the job is already known to have ended.  When
    it does not ask, it does nothing at all: no widget is touched, nothing
    changes, and it answers whether the job is still running.  When it does
    ask, asking is the first thing it does. *)
Theorem update_display_polls_only_when_due w :
  let out := update_display w in
  if poll_due w then ∃ evs, out.2 = Fetch (analysis_id (self w)) :: evs
  else out = (Ok (negb (is_completed (self w))), w, []).
Proof.
  intros out. subst out. destruct (poll_due w) eqn:Hdue; [|by apply update_display_idle].
  unfold poll_due in Hdue. apply andb_true_iff in Hdue as [Hlock Hdue].
  apply negb_true_iff in Hlock.
  unfold update_display. rewrite bind_step. simpl. rewrite bind_step. simpl.
  rewrite Hlock.
  replace ((clock w - last_update (self w) <? refresh_interval (self w))
           && negb (is_completed (self w))) with false; last first.
  { destruct (is_completed (self w)); [by rewrite andb_false_r|].
    rewrite orb_false_r in Hdue. apply Z.leb_le in Hdue.
    by rewrite (proj2 (Z.ltb_ge _ _) Hdue). }
  rewrite bind_step. unfold fetch. rewrite bind_step. unfold ext.
  destruct (fault _); simpl; [by eexists|].
  destruct (if no_data _ then _ else _) as [[r w1] ev1]. simpl. by eexists.
Qed.

(** X4.  A poll that finds a record, in a run in which no button is
    pressed, ends normally whatever the record holds: the time of the poll
    is stored as the last update, the job counts as ended exactly when its
    status is 'completed' or 'failed', and the answer is whether it is still
    running.  While it is, a further call that comes before the refresh
    interval has passed does nothing. *)
Theorem update_display_records_poll w d :
  poll_due w = true →
  fault (Fetch (analysis_id (self w))) = None →
  get_progress_by_id (analysis_id (self w)) = Some d →
  d ≠ ∅ →
  (∀ key, clicked key = false) →
  let out := update_display w in
  let ended := is_terminal (dget d "status" (VStr "running")) in
  out.1.1 = Ok (negb ended)
  ∧ last_update (self out.1.2) = clock w
  ∧ is_completed (self out.1.2) = ended
  ∧ (ended = false →
     ∀ w', self w' = self out.1.2 →
           clock w' - clock w < refresh_interval (self w) →
           update_display w' = (Ok true, w', [])).
Proof.
  intros Hdue Hf Hd Hne Hquiet out ended.
  assert (dom_lock (self w) = false) as Hl.
  { unfold poll_due in Hdue. by destruct (dom_lock (self w)). }
  assert (out.1.1 = Ok (negb ended) ∧ last_update (self out.1.2) = clock w
          ∧ is_completed (self out.1.2) = ended
          ∧ dom_lock (self out.1.2) = false
          ∧ refresh_interval (self out.1.2) = refresh_interval (self w)) as Hout.
  { subst out. unfold update_display. rewrite bind_step. simpl. rewrite bind_step. simpl.
    rewrite Hl. unfold poll_due in Hdue. rewrite Hl in Hdue. simpl in Hdue.
    replace ((clock w - last_update (self w) <? refresh_interval (self w))
             && negb (is_completed (self w))) with false; last first.
    { destruct (is_completed (self w)); [by rewrite andb_false_r|].
      rewrite orb_false_r in Hdue. apply Z.leb_le in Hdue.
      by rewrite (proj2 (Z.ltb_ge _ _) Hdue). }
    rewrite bind_step. unfold fetch. rewrite bind_step. unfold ext. rewrite Hf. simpl.
    rewrite Hd. simpl. rewrite bool_decide_eq_false_2 by done.
    rewrite bind_step.
    pose proof (render_progress_raises d w) as Hres.
    pose proof (DisplayFacts.render_progress_releases_dom_lock d w) as Hlock.
    pose proof (schedule_render_progress d w) as (_ & Hint & _).
    destruct (_render_progress d w) as [[[[]|e] w1] ev1]; simpl in *; [done|].
    destruct (Hres e eq_refl) as [_ [key Hkey]]. by rewrite Hquiet in Hkey. }
  destruct Hout as (Hr & Hlast & Hdone & Hlock & Hint).
  repeat split; try done.
  intros Hrun w' Hself Hsoon.
  rewrite (update_display_idle w'); [by rewrite Hself, Hdone, Hrun|].
  unfold poll_due. rewrite Hself, Hlock, Hdone, Hlast, Hint, Hrun. simpl.
  rewrite orb_false_r. by apply Z.leb_gt.
Qed.

(** *** The refresh loop *)

#[local] Arguments refresh_rounds : simpl never.

Lemma after_after {A} ev1 ev2 (x : res A * world * list event) :
  after ev1 (after ev2 x) = after (ev1 ++ ev2) x.
Proof. destruct x as [[??]?]. simpl. by rewrite app_assoc. Qed.

(** One round of the loop. *)
Lemma refresh_rounds_S rounds start_time max_duration w :
  refresh_rounds (S rounds) start_time max_duration w
  = if max_duration <? clock w - start_time then
      (slot "placeholder"
         (Warn "⚠️ 分析时间过长，已停止自动刷新。请手动刷新页面查看最新状态。");;;
       ret true) w
    else
      match update_display w with
      | (Ok true, w1, ev1) =>
          if refresh_interval (self w1) <? 0 then
            (Raise (PyException ValueError "sleep length must be non-negative"), w1, ev1)
          else
            after (ev1 ++ [Sleep (refresh_interval (self w1))])
              (refresh_rounds rounds start_time max_duration
                 (with_clock (λ t, t + refresh_interval (self w1)) w1))
      | (Ok false, w1, ev1) => (Ok true, w1, ev1 ++ [])
      | (Raise e, w1, ev1) => (Raise e, w1, ev1)
      end.
Proof.
  change (refresh_rounds (S rounds) start_time max_duration)
    with (now <- time_time;;
          if max_duration <? now - start_time then
            slot "placeholder"
              (Warn "⚠️ 分析时间过长，已停止自动刷新。请手动刷新页面查看最新状态。");;;
            ret true
          else
            should_continue <- update_display;;
            if negb should_continue then ret true
            else
              me <- get_self;;
              time_sleep (refresh_interval me);;;
              refresh_rounds rounds start_time max_duration).
  rewrite bind_step. simpl. rewrite after_nil.
  destruct (_ <? _); [done|].
  rewrite bind_step.
  destruct (update_display w) as [[[[]|e] w1] ev1]; simpl; try done.
  rewrite bind_step. simpl. rewrite after_nil. rewrite bind_step.
  unfold time_sleep. destruct (_ <? 0); simpl; [by rewrite app_nil_r|].
  by rewrite after_after.
Qed.

(** The loop is left once the rounds outnumber the intervals that fit into
    the time that remains. *)
Lemma refresh_rounds_leaves start_time max_duration rounds w :
  0 < refresh_interval (self w) →
  max_duration - (clock w - start_time) < refresh_interval (self w) * Z.of_nat rounds →
  (refresh_rounds (S rounds) start_time max_duration w).1.1 ≠ Ok false.
Proof.
  revert w. induction rounds as [|rounds IH]; intros w Hpos Hleft.
  all: rewrite refresh_rounds_S.
  all: destruct (Z.ltb_spec max_duration (clock w - start_time)) as [Hover|Hin].
  all: try (rewrite bind_step; unfold slot, ext; by destruct (fault _)).
  - lia.
  - pose proof (schedule_update_display w) as (Hclock & Hint & _).
    destruct (update_display w) as [[[[]|e] w1] ev1]; simpl in *; try done.
    rewrite Hint. rewrite (proj2 (Z.ltb_ge _ _)) by lia.
    rewrite after_fst. apply IH; simpl; lia.
Qed.

(** X5.  [auto_refresh_progress] comes to an end when the refresh interval
    of the display object is positive: once the rounds allowed outnumber the
    refresh intervals that fit into [max_duration], the loop is left within
    them, in every environment and whatever the job does; the function then
    returns or passes on an exception of [update_display]. *)
Theorem auto_refresh_progress_terminates rounds max_duration w :
  0 < refresh_interval (self w) →
  max_duration < refresh_interval (self w) * Z.of_nat rounds →
  let out := auto_refresh_progress (S rounds) max_duration w in
  out.1.1 = Ok (Some tt) ∨ ∃ e, out.1.1 = Raise e.
Proof.
  intros Hpos Hrounds out. subst out. unfold auto_refresh_progress.
  rewrite bind_step. simpl. rewrite after_nil. rewrite bind_step.
  unfold st, ext. destruct (fault _); simpl; [right; by eexists|].
  rewrite after_fst. rewrite bind_step.
  pose proof (refresh_rounds_leaves (clock w) max_duration rounds w Hpos) as Hleaves.
  destruct (refresh_rounds _ _ _ w) as [[[[]|e] w1] ev1]; simpl in *.
  - by left.
  - destruct Hleaves; [lia|done].
  - right. by eexists.
Qed.

(** The clock never passes the deadline by more than one interval. *)
Lemma refresh_rounds_deadline start_time max_duration rounds w :
  let deadline :=
    start_time + Z.max 0 (max_duration + refresh_interval (self w)) in
  clock w ≤ deadline →
  clock (refresh_rounds rounds start_time max_duration w).1.2 ≤ deadline.
Proof.
  revert w. induction rounds as [|rounds IH]; intros w deadline Hw; [done|].
  rewrite refresh_rounds_S.
  destruct (Z.ltb_spec max_duration (clock w - start_time)) as [Hover|Hin].
  - rewrite bind_step. unfold slot, ext. by destruct (fault _).
  - pose proof (schedule_update_display w) as (Hclock & Hint & _).
    destruct (update_display w) as [[[[]|e] w1] ev1]; simpl in *; try lia.
    rewrite Hint.
    destruct (Z.ltb_spec (refresh_interval (self w)) 0) as [Hneg|Hpos]; simpl; [lia|].
    rewrite after_fst.
    pose proof (IH (with_clock (λ t, t + refresh_interval (self w)) w1)) as IH'.
    simpl in IH'. rewrite Hint in IH'. apply IH'. unfold deadline in *. lia.
Qed.

Lemma slept_app evs1 evs2 : slept (evs1 ++ evs2) = slept evs1 + slept evs2.
Proof.
  induction evs1 as [|e evs1 IH]; [done|].
  destruct e; simpl; rewrite ?IH; lia.
Qed.

Lemma slept_none evs : (∀ e, e ∈ evs → ∀ secs, e ≠ Sleep secs) → slept evs = 0.
Proof.
  induction evs as [|e evs IH]; [done|]. intros Hnone.
  assert (slept evs = 0) as Hrest.
  { apply IH. intros e' He'. apply Hnone. by apply list_elem_of_further. }
  destruct e; simpl; try done.
  by destruct (Hnone (Sleep secs) (list_elem_of_here _ _) secs).
Qed.

(** A poll does not sleep. *)
Lemma update_display_awake : emits_only (λ e, ∀ secs, e ≠ Sleep secs) update_display.
Proof.
  unfold update_display, _render_progress, render_body, render_view_report, shown_elapsed.
  repeat emits_step ltac:(by intros ?).
Qed.

(** The clock of the loop moves by what the loop sleeps. *)
Lemma refresh_rounds_slept start_time max_duration rounds w :
  let out := refresh_rounds rounds start_time max_duration w in
  clock out.1.2 = clock w + slept out.2 ∧ 0 ≤ slept out.2.
Proof.
  revert w. induction rounds as [|rounds IH]; intros w out; subst out; [simpl; lia|].
  rewrite refresh_rounds_S.
  destruct (Z.ltb_spec max_duration (clock w - start_time)) as [Hover|Hin].
  - rewrite bind_step. unfold slot, ext. destruct (fault _); simpl; lia.
  - pose proof (schedule_update_display w) as (Hclock & _).
    pose proof (update_display_awake w) as Hawake.
    destruct (update_display w) as [[[[]|e] w1] ev1]; simpl in *.
    all: rewrite ?app_nil_r, ?(slept_none ev1 Hawake); try lia.
    destruct (Z.ltb_spec (refresh_interval (self w1)) 0) as [Hneg|Hpos]; simpl.
    + rewrite (slept_none ev1 Hawake). lia.
    + destruct (IH (with_clock (λ t, t + refresh_interval (self w1)) w1)) as [Hc Hs].
      rewrite after_fst, after_snd, !slept_app, (slept_none ev1 Hawake). simpl in *.
      lia.
Qed.

(** X6.  [auto_refresh_progress] never sleeps for longer, in all, than
    [max_duration] plus one refresh interval (and does not sleep at all when
    that sum is negative), however it ends and however many rounds it is
    given.  (Every sleep follows a deadline test that was passed, and the
    sleeps before that test lie between the start and the test.  In the
    model the clock moves by [time.sleep] only; time that a poll takes in
    addition makes the deadline test fail sooner, so it can only shorten the
    time slept.) *)
Theorem auto_refresh_progress_sleeps_within_deadline rounds max_duration w :
  let out := auto_refresh_progress rounds max_duration w in
  0 ≤ slept out.2 ≤ Z.max 0 (max_duration + refresh_interval (self w)).
Proof.
  intros out. subst out. unfold auto_refresh_progress.
  rewrite bind_step. simpl. rewrite after_nil. rewrite bind_step.
  unfold st, ext. destruct (fault _); simpl; [lia|].
  rewrite after_snd. simpl. rewrite bind_step.
  pose proof (refresh_rounds_deadline (clock w) max_duration rounds w) as Hd.
  pose proof (refresh_rounds_slept (clock w) max_duration rounds w) as [Hc Hs].
  simpl in Hd.
  destruct (refresh_rounds _ _ _ w) as [[[[]|e] w1] ev1]; simpl in *.
  all: rewrite ?slept_app; simpl.
  all: assert (clock w1 ≤ clock w + Z.max 0 (max_duration + refresh_interval (self w)))
         by (apply Hd; lia).
  all: lia.
Qed.

End WithEnv.
End RefresherFacts.

Module ActionsFacts.
Import History Actions.

Section WithEnv.
Context `{!Env} `{!Outside}.

Lemma asked_nothing cls msg :
  match PyException cls msg with PyException _ _ => True | RerunException => False end.
Proof. done. Qed.

(** *** load_and_display_report *)

Lemma decision_summary_keeps f : preserves eq (decision_summary f).
Proof. unfold decision_summary. repeat keeps_step. Qed.

Lemma py_get_no_rerun v k dflt : py_get v k dflt ≠ Raise RerunException.
Proof. by destruct v. Qed.

Lemma decision_summary_raises f : only_exceptions (decision_summary f).
Proof.
  unfold only_exceptions, decision_summary.
  repeat first [ apply raises_lift_py; [done|apply py_get_no_rerun]
               | raises_step asked_nothing ].
Qed.

Section WidgetsWork.
Hypothesis widgets_work : ∀ c, fault (St c) = None.

Lemma st_fine c w : st c w = (Ok tt, w, [St c]).
Proof. unfold st, ext. by rewrite widgets_work. Qed.

(** The handler of [load_and_display_report] returns. *)
Lemma report_handler_returns id msg w :
  ((st (Err ("❌ 加载报告失败: " +:+ msg));;;
    log LError ("加载报告失败: " +:+ py_str id +:+ ", 错误: " +:+ msg)) w).1
  = (Ok tt, w).
Proof. rewrite bind_step, st_fine. reflexivity. Qed.

(** X7.  When the widgets themselves work, [load_and_display_report] always
    returns, whatever the tracker, the formatter and the stored results do.
    If the job has a record with results and formatting them gives
    something, the session afterwards holds the formatted results as
    [analysis_results], the job as [current_analysis_id] and
    [analysis_running = False]; in every other case the session is as it
    was.  The clock, the display object, the files and Redis are never
    touched. *)
Theorem report_loaded_or_session_untouched id w :
  let out := load_and_display_report id w in
  out.1.1 = Ok tt
  ∧ session out.1.2
    = (if report_available id then with_report id (session w) else session w)
  ∧ clock out.1.2 = clock w ∧ self out.1.2 = self w
  ∧ files out.1.2 = files w ∧ redis out.1.2 = redis w.
Proof.
  intros out. subst out.
  unfold load_and_display_report, report_available, with_report, try_except.
  rewrite bind_step, st_fine. simpl.
  unfold fetch. rewrite bind_step. unfold ext.
  destruct (fault (Fetch _)) as [msg|]; simpl.
  { pose proof (report_handler_returns id msg w) as Hh.
    destruct (bind _ _ w) as [[r w2] ev2]. simpl in Hh. by injection Hh as -> ->. }
  destruct (no_data _) eqn:Hnd; simpl.
  { by rewrite st_fine. }
  destruct (truthy (dget _ "raw_results" VNone)) eqn:Hraw; simpl.
  2: { by rewrite st_fine. }
  unfold format_results. rewrite bind_step. unfold ext.
  destruct (fault (FormatResults _)) as [msg|]; simpl.
  { pose proof (report_handler_returns id msg w) as Hh.
    destruct (bind _ _ w) as [[r w2] ev2]. simpl in Hh. by injection Hh as -> ->. }
  destruct (truthy (format_analysis_results _)) eqn:Hfmt; simpl.
  2: { by rewrite st_fine. }
  do 3 (rewrite bind_step; simpl). rewrite bind_step, st_fine. simpl.
  match goal with
  | |- context [decision_summary ?f ?w1] =>
      pose proof (decision_summary_keeps f w1) as Hk;
      pose proof (decision_summary_raises f w1) as Hr;
      destruct (decision_summary f w1) as [[[[]|[cls msg|]] w2] ev2];
      simpl in *; subst w2
  end.
  - done.
  - match goal with
    | |- context [bind ?m ?k ?w1] =>
        pose proof (report_handler_returns id msg w1) as Hh;
        destruct (bind m k w1) as [[r w3] ev3]
    end.
    simpl in Hh. by injection Hh as -> ->.
  - by destruct (Hr RerunException).
Qed.

End WidgetsWork.

(** The events of [load_and_display_report]. *)
Lemma report_emit (P : event → Prop) id :
  (∀ c, P (St c)) → (∀ l msg, P (Log l msg)) → (∀ i, P (Fetch i)) →
  (∀ k v, P (SessionSet k v)) → (∀ raw, P (FormatResults raw)) →
  emits_only P (load_and_display_report id).
Proof.
  intros Hst Hlog Hfetch Hset Hfmt.
  unfold load_and_display_report, decision_summary.
  repeat emits_step
    ltac:(first [apply Hst | apply Hlog | apply Hfetch | apply Hset | apply Hfmt]).
Qed.

(** *** confirm_delete_record *)

Lemma delete_removes_only id : emits_only (removes_only id) (delete_analysis_record id).
Proof.
  intros w e He. destruct (StorageFacts.delete_addresses_job id w e He) as [Hf Hr].
  destruct e; simpl; auto.
Qed.

(** The events of [delete_analysis_record] and of [confirm_delete_record]:
    removals, widget calls and log lines. *)
Lemma delete_emit (P : event → Prop) id :
  (∀ c, P (St c)) → (∀ l msg, P (Log l msg)) →
  (∀ p, P (OsRemove p)) → (∀ k, P (RedisDelete k)) →
  emits_only P (delete_analysis_record id).
Proof.
  intros Hst Hlog Hrm Hrd.
  assert (∀ p, emits_only P (os_path_exists p)) as Hex.
  { intros p. by apply emits_silent. }
  assert (∀ p, emits_only P (os_remove p)) as Hos.
  { intros p. unfold os_remove. apply emits_bind; [apply emits_ext, Hrm|intros _].
    by apply emits_silent. }
  assert (∀ k, emits_only P (redis_delete k)) as Hre.
  { intros k. unfold redis_delete. apply emits_bind; [apply emits_ext, Hrd|intros _].
    by apply emits_silent. }
  unfold delete_analysis_record, delete_file_record, delete_redis_record.
  repeat first
    [ apply Hex | apply Hos | apply Hre
    | emits_step ltac:(first [apply Hst | apply Hlog]) ].
Qed.

Lemma confirm_alphabet (P : event → Prop) id :
  (∀ c, P (St c)) → (∀ l msg, P (Log l msg)) →
  (∀ p, P (OsRemove p)) → (∀ k, P (RedisDelete k)) →
  emits_only P (confirm_delete_record id).
Proof.
  intros Hst Hlog Hrm Hrd. unfold confirm_delete_record.
  repeat first [ by apply delete_emit | emits_step ltac:(apply Hst) ].
Qed.

(** What [confirm_delete_record] removes, it removes for this job and on a
    click of the confirm button. *)
Lemma confirm_emit id :
  emits_only (λ e, is_removal e → removes_only id e ∧ clicked "❌ 确认删除" = true)
    (confirm_delete_record id).
Proof.
  unfold confirm_delete_record.
  repeat first
    [ eapply emits_weaken; [|apply delete_removes_only]; by intros
    | emits_step ltac:(by intros []) ].
Qed.

(** X8.  [confirm_delete_record] removes nothing unless the confirm button
    reports a click: without it, the files and the Redis keys are as they
    were, and all that happens are widget calls.  With it, what is removed
    is the file and the key of this job and of no other.  A click on the
    cancel button, when the run gets that far, asks for a rerun. *)
Theorem delete_needs_confirmation id w :
  let out := confirm_delete_record id w in
  (clicked "❌ 确认删除" = false →
     same_store w out.1.2 ∧ ∀ e, e ∈ out.2 → is_widget e)
  ∧ (∀ e, e ∈ out.2 → removes_only id e)
  ∧ (clicked "❌ 确认删除" = false → clicked "🚫 取消" = true →
     (∀ c, fault (St c) = None) → out.1.1 = Raise RerunException).
Proof.
  intros out. split; [|split].
  - intros Hno. subst out. split.
    + assert (preserves same_store
                (confirm_delete_record id)) as Hk; [|apply Hk].
      unfold confirm_delete_record.
      repeat first [rewrite Hno; simpl | keeps_step].
    + assert (emits_only is_widget (confirm_delete_record id)) as He; [|apply He].
      unfold confirm_delete_record.
      repeat first [rewrite Hno; simpl | emits_step ltac:(exact I)].
  - assert (emits_only (removes_only id) (confirm_delete_record id)) as He; [|apply He].
    unfold confirm_delete_record.
    repeat first [apply delete_removes_only | emits_step ltac:(exact I)].
  - intros Hno Hcancel Hw. subst out. unfold confirm_delete_record, button_unkeyed.
    rewrite Hno, Hcancel. unfold st, ext, bind. by rewrite !Hw.
Qed.

(** *** display_record_details *)

Lemma py_iter_no_rerun v : py_iter v ≠ Raise RerunException.
Proof. by destruct v. Qed.

Lemma py_join_no_rerun sep v : py_join sep v ≠ Raise RerunException.
Proof. unfold py_join. by repeat case_match. Qed.

Lemma get_depth_text_no_rerun v : get_depth_text v ≠ Raise RerunException.
Proof. by destruct v. Qed.

Lemma step_icon_no_rerun i v : step_icon i v ≠ Raise RerunException.
Proof.
  unfold step_icon, py_lt_int. destruct (is_int i v); [done|].
  destruct (as_num v); [by destruct (_ <? _)|done].
Qed.

Lemma detailed_progress_raises id : only_exceptions (detailed_progress id).
Proof.
  unfold only_exceptions, detailed_progress.
  repeat first
    [ apply raises_lift_py;
      [done|first [apply py_get_no_rerun | apply py_iter_no_rerun | apply step_icon_no_rerun]]
    | raises_step asked_nothing ].
Qed.

(** The events of [display_record_details]: widget calls and one question
    to the tracker. *)
Lemma details_emit (P : event → Prop) record :
  (∀ c, P (St c)) → (∀ id, P (Fetch id)) → emits_only P (display_record_details record).
Proof.
  intros Hst Hfetch. unfold display_record_details, detailed_progress.
  repeat emits_step ltac:(first [apply Hst | apply Hfetch]).
Qed.

Lemma details_keep record : preserves eq (display_record_details record).
Proof. unfold display_record_details, detailed_progress. repeat keeps_step. Qed.

(** X9.  [display_record_details] only looks: whatever the record and the
    tracker's answer hold, and however the call ends, the session, the
    clock, the display object, the files and Redis are exactly as before;
    all it does is call widgets and ask the tracker once at most; and it
    never asks for a rerun. *)
Theorem record_details_change_nothing record w :
  let out := display_record_details record w in
  out.1.2 = w
  ∧ (∀ e, e ∈ out.2 → is_passive e)
  ∧ (∀ e, out.1.1 = Raise e → ∃ cls msg, e = PyException cls msg).
Proof.
  intros out. subst out. split; [|split].
  - by rewrite <- (details_keep record w).
  - by apply (details_emit is_passive).
  - assert (only_exceptions (display_record_details record)) as Hr.
    { unfold only_exceptions, display_record_details.
      repeat first
        [ apply detailed_progress_raises
        | apply raises_lift_py;
          [done|first [apply py_join_no_rerun | apply get_depth_text_no_rerun]]
        | raises_step asked_nothing ]. }
    intros [cls msg|] He; [by eexists _, _|]. by destruct (Hr w _ He).
Qed.

(** X10.  The details are shown whenever the record itself is well formed: if
    its percentage is a number (or missing), its analysts are strings, its
    depth can be looked up and the widgets work, [display_record_details]
    returns normally, whatever the tracker does and whatever the stored
    progress looks like; a failure in the detailed part is shown as an
    error. *)
Theorem record_details_survive_bad_progress record w pct analysts depth :
  as_num (dget record "progress_percentage" (VNum 0)) = Some pct →
  py_join ", " (dget record "analysts" (VList [])) = Ok analysts →
  get_depth_text (dget record "research_depth" VNone) = Ok depth →
  (∀ c, fault (St c) = None) →
  (display_record_details record w).1.1 = Ok tt.
Proof.
  intros Hpct Hjoin Hdepth Hw. unfold display_record_details.
  do 6 (rewrite bind_step, (st_fine Hw); simpl).
  unfold format_1f. rewrite Hpct. rewrite bind_step. simpl.
  do 4 (rewrite bind_step, (st_fine Hw); simpl).
  rewrite Hjoin. rewrite bind_step. simpl.
  rewrite bind_step, (st_fine Hw). simpl.
  rewrite Hdepth. rewrite bind_step. simpl.
  rewrite bind_step, (st_fine Hw). simpl.
  unfold try_except.
  match goal with
  | |- context [detailed_progress ?id ?w1] =>
      pose proof (detailed_progress_raises id w1) as Hr;
      destruct (detailed_progress id w1) as [[[[]|[cls msg|]] w2] ev2]; simpl in *
  end.
  - done.
  - by rewrite (st_fine Hw).
  - by destruct (Hr RerunException).
Qed.

(** *** The rows of the history table *)

Lemma cell_drop label other row :
  label ≠ other → cell label (drop_column other row) = cell label row.
Proof.
  intros Hne. induction row as [|[l v] row IH]; simpl; [done|].
  destruct (String.eqb_spec l other) as [->|Hl]; simpl.
  - destruct (String.eqb_spec other label) as [->|_]; [done|apply IH].
  - destruct (String.eqb l label); [done|apply IH].
Qed.

(** X12.  Every row that [display_history_table] builds can be styled: a
    row has nine cells, eight of them shown, its status cell is the status
    icon and text of the record (❓ and 未知 when missing), and
    [style_status_row] answers for the shown row with eight equal styles,
    one per cell as the styler requires: green when the status cell contains
    ✅, else blue for 🔄, else red for ❌, else no style.  It never fails on
    such a row. *)
Theorem table_rows_can_be_styled record w row :
  (table_row record w).1.1 = Ok row →
  length row = 9%nat
  ∧ length (drop_column "操作" row) = 8%nat
  ∧ cell "状态" row = Ok (VStr (status_cell record))
  ∧ style_status_row (drop_column "操作" row)
    = Ok (replicate 8 (status_colour (status_cell record))).
Proof.
  unfold table_row, format_1f.
  destruct (as_num _); simpl; [|by destruct (dget record "progress_percentage" (VNum 0))].
  rewrite bind_step. simpl.
  assert (∀ analysts depth,
    let built :=
      [ ("股票代码", dget record "stock_symbol" (VStr "未知"));
        ("市场", dget record "market_type" (VStr "未知"));
        ("状态", VStr (status_cell record));
        ("进度", VStr (fmt_1f (inject_Z z) +:+ "%"));
        ("开始时间", dget record "start_time_formatted" (VStr "未知"));
        ("耗时", dget record "duration_formatted" (VStr "未知"));
        ("分析师", VStr analysts);
        ("研究深度", VStr depth);
        ("操作", VStr "action_buttons") ] in
    length built = 9%nat
    ∧ length (drop_column "操作" built) = 8%nat
    ∧ cell "状态" built = Ok (VStr (status_cell record))
    ∧ style_status_row (drop_column "操作" built)
      = Ok (replicate 8 (status_colour (status_cell record)))) as Hrow.
  { intros analysts depth built. split; [done|]. split; [done|]. split; [done|].
    unfold style_status_row. rewrite cell_drop by done.
    change (cell "状态" built) with (Ok (VStr (status_cell record)) : res value).
    change (length (drop_column "操作" built)) with 8%nat.
    unfold py_contains, status_colour.
    by repeat destruct (is_substring _ _). }
  destruct (truthy _); simpl.
  - destruct (py_join _ _) as [analysts|]; simpl; [|done].
    destruct (get_depth_text _) as [depth|]; simpl; [|done].
    intros [= <-]. apply Hrow.
  - destruct (get_depth_text _) as [depth|]; simpl; [|done].
    intros [= <-]. apply Hrow.
Qed.

End WithEnv.
End ActionsFacts.

(** ** Reasoning about pages *)

Section PageLogic.

Lemma pbind_step {A B} (m : P A) (k : A → P B) w :
  pbind m k w =
  match m w with
  | (Ok a, w1, ev1) => pafter ev1 (k a w1)
  | (Raise e, w1, ev1) => (Raise e, w1, ev1)
  end.
Proof. reflexivity. Qed.

Lemma pafter_nil {A} (x : res A * world * list page_event) : pafter [] x = x.
Proof. by destruct x as [[??]?]. Qed.

Lemma pafter_fst {A} ev1 (x : res A * world * list page_event) : (pafter ev1 x).1 = x.1.
Proof. by destruct x as [[??]?]. Qed.

Lemma pafter_snd {A} ev1 (x : res A * world * list page_event) :
  (pafter ev1 x).2 = ev1 ++ x.2.
Proof. by destruct x as [[??]?]. Qed.

Lemma of_m_run {A} (m : M A) w :
  of_m m w = ((m w).1.1, (m w).1.2, Base <$> (m w).2).
Proof. unfold of_m. by destruct (m w) as [[??]?]. Qed.

Context (Q : page_event → Prop).

Lemma pemits_pret {A} (a : A) : pemits_only Q (pret a).
Proof. intros w e. simpl. by intros ?%not_elem_of_nil. Qed.

Lemma pemits_bind {A B} (m : P A) (k : A → P B) :
  pemits_only Q m → (∀ a, pemits_only Q (k a)) → pemits_only Q (pbind m k).
Proof.
  intros Hm Hk w e. specialize (Hm w). unfold pbind.
  destruct (m w) as [[[a|x] w1] ev1]; simpl in *; [|by apply Hm].
  specialize (Hk a w1). destruct (k a w1) as [[r w2] ev2]; simpl in *.
  rewrite elem_of_app. intros [?|?]; auto.
Qed.

Lemma pemits_try_except {A} (m : P A) (h : string → P A) :
  pemits_only Q m → (∀ msg, pemits_only Q (h msg)) → pemits_only Q (ptry_except m h).
Proof.
  intros Hm Hh w e. specialize (Hm w). unfold ptry_except.
  destruct (m w) as [[[a|[cls msg|]] w1] ev1]; simpl in *; try by apply Hm.
  specialize (Hh msg w1). destruct (h msg w1) as [[r w2] ev2]; simpl in *.
  rewrite elem_of_app. intros [?|?]; auto.
Qed.

Lemma pemits_when b (m : P unit) : pemits_only Q m → pemits_only Q (pwhen b m).
Proof. destruct b; [done|]. intros _. apply pemits_pret. Qed.

Lemma pemits_of_m {A} (m : M A) :
  emits_only (λ e, Q (Base e)) m → pemits_only Q (of_m m).
Proof.
  intros Hm w e. rewrite of_m_run. simpl.
  intros (b & -> & Hb)%list_elem_of_fmap. by eapply Hm.
Qed.

Context `{!Env} `{!Outside}.

Lemma pemits_page c : Q (Page c) → pemits_only Q (Pages.page c).
Proof.
  intros Hc w e. unfold Pages.page.
  destruct (page_fault c); simpl; by intros ->%list_elem_of_singleton.
Qed.

(** What follows a button is judged for the answer the button gives. *)
Lemma pemits_after_button l key {B} (k : bool → P B) :
  Q (Base (St (Button l key))) → pemits_only Q (k (clicked key)) →
  pemits_only Q (pbind (of_m (button l key)) k).
Proof.
  intros Hb Hk w e. unfold pbind. rewrite of_m_run.
  unfold button, st, ext, bind. destruct (fault _); simpl.
  - by intros ->%list_elem_of_singleton.
  - specialize (Hk w e). destruct (k _ w) as [[r w2] ev2]. simpl in *.
    rewrite elem_of_cons. intros [->|?]; auto.
Qed.

Lemma pemits_after_button_unkeyed l {B} (k : bool → P B) :
  Q (Base (St (Button l ""))) → pemits_only Q (k (clicked l)) →
  pemits_only Q (pbind (of_m (button_unkeyed l)) k).
Proof.
  intros Hb Hk w e. unfold pbind. rewrite of_m_run.
  unfold button_unkeyed, st, ext, bind. destruct (fault _); simpl.
  - by intros ->%list_elem_of_singleton.
  - specialize (Hk w e). destruct (k _ w) as [[r w2] ev2]. simpl in *.
    rewrite elem_of_cons. intros [->|?]; auto.
Qed.

Lemma pemits_selectbox {A} label (first : A) others show index :
  Q (Page (Selectbox label (show <$> first :: others) index)) →
  pemits_only Q (Pages.selectbox label first others show index).
Proof.
  intros. apply pemits_bind; [by apply pemits_page | intros; apply pemits_pret].
Qed.

Lemma pemits_selectbox_index label options :
  Q (Page (Selectbox label options 0)) →
  pemits_only Q (Pages.selectbox_index label options).
Proof.
  intros. apply pemits_bind; [by apply pemits_page | intros; apply pemits_pret].
Qed.

Lemma pemits_switch_page {A} target :
  Q (Page (SwitchPage target)) → pemits_only Q (Pages.switch_page (A:=A) target).
Proof.
  intros. apply pemits_bind; [by apply pemits_page | intros].
  apply pemits_of_m, emits_rerun.
Qed.

End PageLogic.

Section PageKeeping.
Context (R : world → world → Prop) `{!PreOrder R}.

Lemma pkeeps_pret {A} (a : A) : ppreserves R (pret a).
Proof. by intros w. Qed.

Lemma pkeeps_bind {A B} (m : P A) (k : A → P B) :
  ppreserves R m → (∀ a, ppreserves R (k a)) → ppreserves R (pbind m k).
Proof.
  intros Hm Hk w. specialize (Hm w). unfold pbind.
  destruct (m w) as [[[a|e] w1] ev1]; simpl in *; [|done].
  specialize (Hk a w1). destruct (k a w1) as [[r w2] ev2]; simpl in *.
  by etrans.
Qed.

Lemma pkeeps_try_except {A} (m : P A) (h : string → P A) :
  ppreserves R m → (∀ msg, ppreserves R (h msg)) → ppreserves R (ptry_except m h).
Proof.
  intros Hm Hh w. specialize (Hm w). unfold ptry_except.
  destruct (m w) as [[[a|[cls msg|]] w1] ev1]; simpl in *; try done.
  specialize (Hh msg w1). destruct (h msg w1) as [[r w2] ev2]; simpl in *.
  by etrans.
Qed.

Lemma pkeeps_when b (m : P unit) : ppreserves R m → ppreserves R (pwhen b m).
Proof. destruct b; [done|]. intros _. apply pkeeps_pret. Qed.

Lemma pkeeps_of_m {A} (m : M A) : preserves R m → ppreserves R (of_m m).
Proof. intros Hm w. rewrite of_m_run. apply Hm. Qed.

Context `{!Env} `{!Outside}.

Lemma pkeeps_page c : ppreserves R (Pages.page c).
Proof. intros w. unfold Pages.page. by destruct (page_fault c). Qed.

Lemma pkeeps_switch_page {A} target : ppreserves R (Pages.switch_page (A:=A) target).
Proof.
  apply pkeeps_bind; [apply pkeeps_page|intros _]. apply pkeeps_of_m, keeps_rerun. done.
Qed.

Lemma pkeeps_selectbox {A} label (first : A) others show index :
  ppreserves R (Pages.selectbox label first others show index).
Proof. apply pkeeps_bind; [apply pkeeps_page|intros _; apply pkeeps_pret]. Qed.

Lemma pkeeps_selectbox_index label options :
  ppreserves R (Pages.selectbox_index label options).
Proof. apply pkeeps_bind; [apply pkeeps_page|intros _; apply pkeeps_pret]. Qed.

End PageKeeping.

(** One step of a proof that a page [ppreserves] a relation; [inner]
    settles a computation of the progress display. *)
Ltac pkeeps_step inner :=
  match goal with
  | |- ppreserves _ (pbind _ _) => apply pkeeps_bind; [typeclasses eauto| |intros]
  | |- ppreserves _ (ptry_except _ _) => apply pkeeps_try_except; [typeclasses eauto| |intros]
  | |- ppreserves _ (pwhen _ _) => apply pkeeps_when; [typeclasses eauto|]
  | |- ppreserves _ (pret _) => apply pkeeps_pret; typeclasses eauto
  | |- ppreserves _ (Pages.page _) => apply pkeeps_page; typeclasses eauto
  | |- ppreserves _ (Pages.switch_page _) => apply pkeeps_switch_page; typeclasses eauto
  | |- ppreserves _ (Pages.selectbox _ _ _ _ _) => apply pkeeps_selectbox; typeclasses eauto
  | |- ppreserves _ (Pages.selectbox_index _ _) =>
      apply pkeeps_selectbox_index; typeclasses eauto
  | |- ppreserves _ (of_m _) => apply pkeeps_of_m; inner
  | |- ppreserves _ (if ?b then _ else _) => destruct b
  | |- ppreserves _ (match ?x with _ => _ end) => destruct x
  end.

(** One step of a proof that a page [pemits_only] events of a kind; [side]
    settles that a given event is of the kind, [inner] that a computation of
    the progress display emits only such events. *)
Ltac pemits_step side inner :=
  match goal with
  | |- pemits_only _ (pbind (of_m (button _ _)) _) => apply pemits_after_button; [side|]
  | |- pemits_only _ (pbind (of_m (button_unkeyed _)) _) =>
      apply pemits_after_button_unkeyed; [side|]
  | |- pemits_only _ (pwhen (clicked ?k) _) => destruct (clicked k) eqn:?; simpl
  | |- pemits_only _ (pbind _ _) => apply pemits_bind; [|intros]
  | |- pemits_only _ (ptry_except _ _) => apply pemits_try_except; [|intros]
  | |- pemits_only _ (pwhen _ _) => apply pemits_when
  | |- pemits_only _ (pret _) => apply pemits_pret
  | |- pemits_only _ (Pages.page _) => apply pemits_page; side
  | |- pemits_only _ (Pages.selectbox _ _ _ _ _) => apply pemits_selectbox; side
  | |- pemits_only _ (Pages.selectbox_index _ _) => apply pemits_selectbox_index; side
  | |- pemits_only _ (Pages.switch_page _) => apply pemits_switch_page; side
  | |- pemits_only _ (of_m _) => apply pemits_of_m; inner
  | |- pemits_only _ (if ?b then _ else _) => destruct b eqn:?
  | |- pemits_only _ (match ?x with _ => _ end) => destruct x eqn:?
  end.

Module PagesFacts.
Import History Actions Pages ActionsFacts.
#[local] Open Scope page_scope.

Section WithEnv.
Context `{!Env} `{!Outside}.

(** *** What the buttons of a record do *)

Lemma setup_reanalysis_emit (Q : page_event → Prop) record :
  (∀ c, Q (Base (St c))) → (∀ k v, Q (Base (SessionSet k v))) → (∀ c, Q (Page c)) →
  pemits_only Q (setup_reanalysis record).
Proof.
  intros Hst Hset Hpage. unfold setup_reanalysis.
  repeat pemits_step
    ltac:(first [apply Hst | apply Hpage])
    ltac:(repeat emits_step ltac:(first [apply Hst | apply Hset])).
Qed.

Lemma record_actions_removal record :
  pemits_only (confirmed_removal [record]) (display_record_actions record).
Proof.
  unfold display_record_actions.
  repeat first
    [ apply setup_reanalysis_emit; [by intros ? [] | by intros ?? [] | by intros ?]
    | pemits_step
        ltac:(first [exact I | by intros []])
        ltac:(first
          [ apply (details_emit (λ e, confirmed_removal [record] (Base e)));
            by intros ? []
          | apply (report_emit (λ e, confirmed_removal [record] (Base e)));
            by (intros; intros [])
          | eapply emits_weaken; [|apply confirm_emit];
            intros e He Hr; destruct (He Hr) as [? ?];
            exists record; rewrite list_elem_of_singleton; by repeat split
          | repeat emits_step ltac:(by intros []) ]) ].
Qed.

Lemma confirmed_removal_mono records records' e :
  (∀ r, r ∈ records → r ∈ records') →
  confirmed_removal records e → confirmed_removal records' e.
Proof.
  intros Hsub. destruct e as [e|c]; [|done]. simpl.
  intros He Hr. destruct (He Hr) as (r & Hin & ?). exists r. split; [by apply Hsub|done].
Qed.

Lemma nth_elem_of {A} (l : list A) i d : (i < length l)%nat → nth i l d ∈ l.
Proof. intros Hi. apply list_elem_of_In. by apply nth_In. Qed.

Lemma picked_lt label n index : (index < n)%nat → (picked label n index < n)%nat.
Proof.
  intros Hi. unfold picked. destruct (chosen label) as [i|]; [|done].
  by destruct (Nat.ltb_spec i n).
Qed.

(** What follows the select box is judged for a position among the
    options. *)
Lemma pemits_after_selectbox_index (Q : page_event → Prop) label options {B}
    (k : option nat → P B) :
  Q (Page (Selectbox label options 0)) →
  (options = [] → pemits_only Q (k None)) →
  (∀ i, (i < length options)%nat → pemits_only Q (k (Some i))) →
  pemits_only Q (pbind (selectbox_index label options) k).
Proof.
  intros Hq Hnone Hsome w e. unfold selectbox_index.
  rewrite pbind_step, pbind_step. unfold page. destruct (page_fault _).
  { cbn. by intros ->%list_elem_of_singleton. }
  cbn [pret pafter]. rewrite pafter_snd. cbn [app].
  rewrite elem_of_cons. intros [->|He]; [done|].
  destruct options as [|o options'].
  - by eapply Hnone.
  - eapply (Hsome (picked label (length (o :: options')) 0)); [|exact He].
    apply picked_lt. simpl. lia.
Qed.

Lemma action_buttons_removal records :
  pemits_only (confirmed_removal records) (display_action_buttons records).
Proof.
  unfold display_action_buttons.
  apply pemits_bind; [apply pemits_of_m, emits_st; by intros []|intros _].
  destruct records as [|first rest]; [apply pemits_pret|].
  apply pemits_after_selectbox_index; [done|intros; apply pemits_pret|].
  intros i Hi w e He.
  eapply confirmed_removal_mono; [|by eapply record_actions_removal].
  intros r ->%list_elem_of_singleton.
  apply nth_elem_of. by rewrite length_fmap in Hi.
Qed.

Lemma map_m_emit (Q : event → Prop) {A B} (f : A → M B) l :
  (∀ a, emits_only Q (f a)) → emits_only Q (map_m f l).
Proof.
  intros Hf. induction l as [|a l IH]; simpl; [apply emits_ret|].
  apply emits_bind; [apply Hf|intros b].
  apply emits_bind; [apply IH|intros; apply emits_ret].
Qed.

Lemma table_row_silent record w : (table_row record w).2 = [].
Proof.
  unfold table_row, format_1f.
  destruct (as_num _); simpl; [|by destruct (dget record "progress_percentage" (VNum 0))].
  rewrite bind_step. simpl.
  destruct (truthy _); simpl.
  - destruct (py_join _ _); simpl; [|done].
    by destruct (get_depth_text _).
  - by destruct (get_depth_text _).
Qed.

Lemma history_table_removal records :
  pemits_only (confirmed_removal records) (display_history_table records).
Proof.
  unfold display_history_table.
  repeat first
    [ apply action_buttons_removal
    | pemits_step
        ltac:(first [exact I | by intros []])
        ltac:(first
          [ apply map_m_emit; intros ?; apply emits_silent; apply table_row_silent
          | repeat emits_step ltac:(by intros []) ]) ].
Qed.

Lemma keep_since_sub cutoff records kept :
  keep_since cutoff records = Ok kept → ∀ r, r ∈ kept → r ∈ records.
Proof.
  revert kept. induction records as [|x records IH]; intros kept; simpl.
  - intros [= <-] r. by intros ?%not_elem_of_nil.
  - destruct (as_num _); [|done].
    destruct (keep_since cutoff records) as [kept'|]; [|done].
    intros [= <-] r. specialize (IH kept' eq_refl r).
    destruct (_ <=? _); rewrite !elem_of_cons; tauto.
Qed.

Lemma apply_filters_sub cal records status_filter time_filter kept :
  apply_filters cal records status_filter time_filter = Ok kept →
  ∀ r, r ∈ kept → r ∈ records.
Proof.
  unfold apply_filters.
  set (filtered := if negb (String.eqb status_filter "全部") then _ else records).
  assert (∀ r, r ∈ filtered → r ∈ records) as Hsub.
  { subst filtered. destruct (negb _); [|done].
    destruct (status_map _); [|done]. destruct (truthy _); [|done].
    intros r. rewrite !list_elem_of_In, filter_In. tauto. }
  destruct (negb (String.eqb time_filter "全部")).
  - intros Hk r Hr. apply Hsub. by eapply keep_since_sub.
  - intros [= <-]. done.
Qed.

Lemma pemits_after_lift (Q : page_event → Prop) {A B} (r : res A) (k : A → P B) :
  (∀ a, r = Ok a → pemits_only Q (k a)) → pemits_only Q (pbind (of_m (lift r)) k).
Proof.
  intros Hk w e. unfold pbind. rewrite of_m_run. simpl.
  destruct r as [a|x]; simpl; [|by intros ?%not_elem_of_nil].
  specialize (Hk a eq_refl w e). by destruct (k a w) as [[??]?].
Qed.

Lemma statistics_emit (Q : event → Prop) records :
  (∀ c, Q (St c)) → emits_only Q (display_statistics records).
Proof.
  intros Hst. unfold display_statistics, percent_of, py_truediv.
  destruct records; [apply emits_ret|].
  repeat emits_step ltac:(apply Hst).
Qed.

(** The answer of the history query: the records of the tracker, or
    nothing after a failure that was reported. *)
Lemma query_history_run limit w :
  query_history limit w
  = match page_fault (Spinner "📊 正在获取历史记录...") with
    | Some msg =>
        (Raise (PyException ExternalError msg), w,
         [Page (Spinner "📊 正在获取历史记录...")])
    | None =>
        match page_fault (AllHistory limit) with
        | None =>
            (Ok (Some (get_all_analysis_history limit)), w,
             [Page (Spinner "📊 正在获取历史记录..."); Page (AllHistory limit)])
        | Some msg =>
            pafter [Page (Spinner "📊 正在获取历史记录..."); Page (AllHistory limit)]
              ((of_m (st (Err ("❌ 获取历史记录失败: " +:+ msg)));;;
                of_m (log LError ("获取历史记录失败: " +:+ msg));;;
                pret None) w)
        end
    end.
Proof.
  unfold query_history. rewrite pbind_step. unfold page at 1.
  destruct (page_fault (Spinner _)); [done|]. cbn [pafter].
  unfold ptry_except. rewrite pbind_step. unfold page.
  destruct (page_fault (AllHistory _)); [|done].
  cbn. by destruct (pbind _ _ w) as [[??]?].
Qed.

Lemma pemits_after_query (Q : page_event → Prop) limit {B}
    (k : option (list (gmap string value)) → P B) :
  (∀ c, Q (Page c)) → (∀ c, Q (Base (St c))) → (∀ l msg, Q (Base (Log l msg))) →
  pemits_only Q (k None) →
  pemits_only Q (k (Some (get_all_analysis_history limit))) →
  pemits_only Q (pbind (query_history limit) k).
Proof.
  intros Hp Hst Hlog Hnone Hsome w e. rewrite pbind_step, query_history_run.
  destruct (page_fault (Spinner _)).
  { by intros ->%list_elem_of_singleton. }
  destruct (page_fault (AllHistory _)) as [msg|].
  - rewrite pbind_step, of_m_run. unfold st, ext. destruct (fault _); cbn.
    { rewrite !elem_of_cons. intros [->|[->|[->|?%not_elem_of_nil]]]; auto. done. }
    specialize (Hnone w e). destruct (k None w) as [[??]?]. cbn in *.
    rewrite !elem_of_cons. intros [->|[->|[->|[->|?]]]]; auto.
  - specialize (Hsome w e). destruct (k _ w) as [[??]?]. cbn in *.
    rewrite !elem_of_cons. intros [->|[->|?]]; auto.
Qed.

(** X11.  On the history page nothing is removed by accident.  Whenever
    [render_analysis_history] removes a file or a Redis key, in any
    environment, it is the file or the key of a record that the history
    query returned, and two buttons report a click in that run: the delete
    button of that record and the confirm button. *)
Theorem history_page_removes_on_two_clicks w e :
  Base e ∈ (render_analysis_history w).2 →
  is_removal e →
  ∃ limit record,
    record ∈ get_all_analysis_history limit
    ∧ removes_only (py_str (dget record "analysis_id" VNone)) e
    ∧ clicked ("delete_" +:+ py_str (dget record "analysis_id" VNone)) = true
    ∧ clicked "❌ 确认删除" = true.
Proof.
  intros He Hr.
  assert (pemits_only
            (λ e, ∃ limit, confirmed_removal (get_all_analysis_history limit) e)
            render_analysis_history) as Hpage.
  { assert (∀ c, ∃ limit, confirmed_removal (get_all_analysis_history limit) (Page c))
      as Hp by (by exists VNone).
    assert (∀ b, ¬ is_removal b →
                 ∃ limit, confirmed_removal (get_all_analysis_history limit) (Base b))
      as Hb by (intros b Hn; exists VNone; by intros ?).
    unfold render_analysis_history, query_history.
    do 3 (apply pemits_bind; [first [by apply pemits_page | apply pemits_of_m, emits_st, Hb; by intros []]|intros _]).
    apply pemits_bind; [by apply pemits_selectbox|intros record_limit].
    apply pemits_bind; [by apply pemits_selectbox|intros status_filter].
    apply pemits_bind; [by apply pemits_selectbox|intros time_filter].
    apply pemits_after_button_unkeyed; [apply Hb; by intros []|].
    apply pemits_bind.
    { apply pemits_when, pemits_of_m, emits_rerun. }
    intros _. fold (query_history record_limit).
    apply pemits_after_query;
      [done|intros; apply Hb; by intros []|intros; apply Hb; by intros []
      |apply pemits_pret|].
    destruct (get_all_analysis_history record_limit) as [|first rest] eqn:Hall.
    { apply pemits_bind; [apply pemits_of_m, emits_st, Hb; by intros []|intros _].
      apply pemits_after_button_unkeyed; [apply Hb; by intros []|].
      apply pemits_when, pemits_switch_page, Hp. }
    apply pemits_after_lift. intros filtered Hf.
    destruct filtered as [|r0 filtered]; [apply pemits_of_m, emits_st, Hb; by intros []|].
    apply pemits_bind.
    { apply pemits_of_m, statistics_emit. intros c. apply Hb. by intros []. }
    intros _.
    apply pemits_bind; [apply pemits_of_m, emits_st, Hb; by intros []|intros _].
    intros w' e' He'. exists record_limit.
    eapply confirmed_removal_mono; [|by eapply history_table_removal].
    intros r Hin. rewrite Hall. eapply apply_filters_sub; [exact Hf|exact Hin]. }
  destruct (Hpage w (Base e) He) as [limit Hc]. destruct (Hc Hr) as (r & ? & ? & ? & ?).
  by exists limit, r.
Qed.


(** *** setup_reanalysis *)

Section WidgetsWork.
Hypothesis widgets_work : ∀ c, fault (St c) = None.

Lemma pst_fine c w : of_m (st c) w = (Ok tt, w, [Base (St c)]).
Proof. rewrite of_m_run. unfold st, ext. by rewrite widgets_work. Qed.

Lemma pbutton_unkeyed_fine l w :
  of_m (button_unkeyed l) w = (Ok (clicked l), w, [Base (St (Button l ""))]).
Proof.
  rewrite of_m_run. unfold button_unkeyed. rewrite bind_step.
  unfold st, ext. by rewrite widgets_work.
Qed.

(** X14.  With working widgets, [setup_reanalysis] remembers the stock of a
    record exactly when the record names one: if the stock symbol is
    missing, empty or the placeholder '未知股票', an error is shown and
    nothing else happens; otherwise the session afterwards holds the symbol
    as [last_stock_symbol] and the market as [last_market_type] ('美股' when
    the record has none), also when the rest of the page fails.  Nothing
    else of the world changes. *)
Theorem reanalysis_remembers_stock record w :
  let out := setup_reanalysis record w in
  let stock_symbol := dget record "stock_symbol" VNone in
  (if usable_symbol stock_symbol then
     session out.1.2
     = <["last_market_type" := dget record "market_type" (VStr "美股")]>
         (<["last_stock_symbol" := stock_symbol]> (session w))
   else
     out = (Ok tt, w, [Base (St (Subheader "🔄 重新分析设置"));
                       Base (St (Err "❌ 无法获取股票代码，无法重新分析"))]))
  ∧ clock out.1.2 = clock w ∧ self out.1.2 = self w
  ∧ files out.1.2 = files w ∧ redis out.1.2 = redis w.
Proof.
  intros out stock_symbol. subst out. unfold setup_reanalysis, usable_symbol.
  fold stock_symbol. rewrite pbind_step, pst_fine. cbn [pafter].
  destruct (truthy stock_symbol); cbn [negb orb andb].
  2: { by rewrite pst_fine. }
  destruct (is_str "未知股票" stock_symbol); cbn [negb].
  { by rewrite pst_fine. }
  rewrite pbind_step, pst_fine. cbn [pafter].
  rewrite pbind_step, of_m_run. cbn [session_set fst snd fmap list_fmap pafter].
  rewrite pbind_step, of_m_run. cbn [session_set fst snd fmap list_fmap pafter].
  rewrite !pafter_fst.
  match goal with
  | |- context [pbind ?m ?k ?w2] =>
      assert (ppreserves eq (pbind m k)) as Hk;
        [|rewrite <- (Hk w2); by cbn]
  end.
  repeat pkeeps_step ltac:(repeat keeps_step).
Qed.

End WidgetsWork.

(** *** initialize_session_state *)

Lemma session_default_run key v w :
  session_default key v w
  = (Ok tt,
     with_session (λ s, s ∪ {[key := v]}) w,
     if bool_decide (is_Some (session w !! key)) then [] else [SessionSet key v])
  ∨ ∃ evs, session_default key v w = (Ok tt, w, evs) ∧ is_Some (session w !! key).
Proof.
  unfold session_default. rewrite bind_step. cbn.
  case_bool_decide as Hk; cbn.
  - right. by eexists.
  - left. f_equal. f_equal. unfold with_session. f_equal.
    apply map_eq. intros k. apply eq_None_not_Some in Hk.
    destruct (decide (k = key)) as [->|Hne].
    + rewrite lookup_insert_eq. rewrite lookup_union_r by done.
      by rewrite lookup_singleton_eq.
    + rewrite lookup_insert_ne by done.
      rewrite lookup_union_l; [done|]. by rewrite lookup_singleton_ne.
Qed.

Lemma session_default_session key v w :
  (session_default key v w).1 = (Ok tt, with_session (λ s, s ∪ {[key := v]}) w).
Proof.
  destruct (session_default_run key v w) as [->|(evs & -> & Hk)]; [done|].
  cbn. f_equal. destruct w as [s c me fs rs]. unfold with_session. cbn in *. f_equal.
  apply map_eq. intros k. destruct Hk as [x Hx].
  destruct (decide (k = key)) as [->|Hne].
  - by rewrite (lookup_union_Some_l _ _ _ x).
  - destruct (s !! k) as [y|] eqn:Hy.
    + symmetry. by apply lookup_union_Some_l.
    + symmetry. apply lookup_union_None. split; [done|]. by rewrite lookup_singleton_ne.
Qed.

Lemma defaults_union (s : gmap string value) :
  s ∪ {["analysis_running" := VBool false]} ∪ {["analysis_results" := VNone]}
    ∪ {["show_analysis_results" := VBool false]} ∪ {["current_analysis_id" := VNone]}
    ∪ {["llm_provider" := VStr "dashscope"]} ∪ {["llm_model" := VStr "qwen-plus"]}
    ∪ {["form_config" := VDict ∅]}
  = s ∪ session_defaults.
Proof.
  unfold session_defaults. cbn [list_to_map foldr uncurry fst snd].
  rewrite <- !(assoc_L (∪)). f_equal.
Qed.

(** The session after the defaults of [initialize_session_state]. *)
Lemma session_defaults_run (rest : P unit) w :
  ((of_m (session_default "analysis_running" (VBool false));;;
    of_m (session_default "analysis_results" VNone);;;
    of_m (session_default "show_analysis_results" (VBool false));;;
    of_m (session_default "current_analysis_id" VNone);;;
    of_m (session_default "llm_provider" (VStr "dashscope"));;;
    of_m (session_default "llm_model" (VStr "qwen-plus"));;;
    of_m (session_default "form_config" (VDict ∅));;;
    rest) w).1
  = (rest (with_session (λ s, s ∪ session_defaults) w)).1.
Proof.
  assert (∀ key v (k : P unit) w0,
            ((of_m (session_default key v);;; k) w0).1
            = (k (with_session (λ s, s ∪ {[key := v]}) w0)).1) as Hstep.
  { intros key v k w0. rewrite pbind_step, of_m_run.
    pose proof (session_default_session key v w0) as Hd.
    destruct (session_default key v w0) as [[r w1] ev1]. cbn in Hd.
    injection Hd as -> ->. cbn [fst snd]. by rewrite pafter_fst. }
  rewrite !Hstep. f_equal. f_equal. destruct w as [s c me fs rs].
  unfold with_session. cbn. f_equal. apply defaults_union.
Qed.

#[local] Arguments session_defaults : simpl never.

(** X15.  [initialize_session_state] always returns, and loses nothing: the
    session afterwards is the old session with the seven defaults added
    below it, so every entry that was there is kept and each of the seven
    keys is present.  The only entry ever replaced is
    [current_analysis_id], and only when it was missing or empty and the
    persisted id was read without failure and is not empty; a failure to
    read it is logged and changes nothing.  The clock, the display object,
    the files and Redis are not touched. *)
Theorem session_initialised_without_loss w :
  let out := initialize_session_state w in
  let restored :=
    bool_decide (page_fault PersistentId = None)
    && truthy get_persistent_analysis_id
    && negb (truthy (default VNone (session w !! "current_analysis_id"))) in
  out.1.1 = Ok tt
  ∧ session out.1.2
    = (if restored
       then <["current_analysis_id" := get_persistent_analysis_id]>
              (session w ∪ session_defaults)
       else session w ∪ session_defaults)
  ∧ (∀ k v, session w !! k = Some v → k ≠ "current_analysis_id" →
            session out.1.2 !! k = Some v)
  ∧ (∀ k, k ∈ session_keys → is_Some (session out.1.2 !! k))
  ∧ clock out.1.2 = clock w ∧ self out.1.2 = self w
  ∧ files out.1.2 = files w ∧ redis out.1.2 = redis w.
Proof.
  intros out restored.
  assert (out.1.1 = Ok tt
          ∧ session out.1.2
            = (if restored
               then <["current_analysis_id" := get_persistent_analysis_id]>
                      (session w ∪ session_defaults)
               else session w ∪ session_defaults)
          ∧ clock out.1.2 = clock w ∧ self out.1.2 = self w
          ∧ files out.1.2 = files w ∧ redis out.1.2 = redis w) as (Hr & Hs & Hrest).
  { subst out restored. unfold initialize_session_state.
    rewrite (surjective_pairing (_ w).1). rewrite session_defaults_run.
    set (w1 := with_session _ w).
    assert (session w1 !! "current_analysis_id"
            = Some (default VNone (session w !! "current_analysis_id"))) as Hcur.
    { subst w1. cbn. destruct (session w !! "current_analysis_id") as [v|] eqn:Hv; cbn.
      - by apply lookup_union_Some_l.
      - rewrite lookup_union_r by done. done. }
    unfold ptry_except. rewrite pbind_step. unfold page.
    destruct (page_fault PersistentId) as [msg|]; cbn.
    { done. }
    destruct (truthy get_persistent_analysis_id); cbn; [|done].
    rewrite pbind_step, of_m_run. unfold session_attr. rewrite Hcur. cbn.
    by destruct (truthy (default VNone _)); cbn. }
  repeat split; try done; try apply Hrest.
  - intros k v Hk Hne. rewrite Hs.
    assert ((session w ∪ session_defaults) !! k = Some v) by by apply lookup_union_Some_l.
    destruct restored; [|done]. by rewrite lookup_insert_ne.
  - intros k Hk. rewrite Hs.
    assert (is_Some ((session w ∪ session_defaults) !! k)) as Hin.
    { destruct (session w !! k) as [v|] eqn:Hv.
      - exists v. by apply lookup_union_Some_l.
      - rewrite lookup_union_r by done. unfold session_keys in Hk.
        repeat (apply elem_of_cons in Hk as [->|Hk]; [by eexists|]).
        by apply not_elem_of_nil in Hk. }
    destruct restored; [|done].
    destruct (decide (k = "current_analysis_id")) as [->|Hne].
    + rewrite lookup_insert_eq. by eexists.
    + by rewrite lookup_insert_ne.
Qed.

(** *** render_analysis_history *)

(** X16.  When the history cannot be read, the page says so and stops: if
    the query of the tracker raises while everything else works and the
    refresh button is not pressed, [render_analysis_history] returns
    normally with the world unchanged, and the last things it does are the
    query, the error message with the reason, and the log line; no
    statistics and no table follow. *)
Theorem history_failure_is_reported w msg :
  (∀ limit, page_fault (AllHistory limit) = Some msg) →
  (∀ c, (∀ limit, c ≠ AllHistory limit) → page_fault c = None) →
  (∀ c, fault (St c) = None) →
  clicked "🔄 刷新" = false →
  ∃ limit evs,
    render_analysis_history w
    = (Ok tt, w,
       evs ++ [Page (AllHistory limit);
               Base (St (Err ("❌ 获取历史记录失败: " +:+ msg)));
               Base (Log LError ("获取历史记录失败: " +:+ msg))]).
Proof.
  intros Hquery Hpage Hst Hquiet. unfold render_analysis_history.
  assert (∀ c, (∀ limit, c ≠ AllHistory limit) → page c w = (Ok tt, w, [Page c])) as Hp.
  { intros c Hc. unfold page. by rewrite Hpage. }
  rewrite pbind_step, Hp by done. cbn [pafter].
  do 2 (rewrite pbind_step, (pst_fine Hst); cbn [pafter]).
  unfold selectbox.
  do 3 (rewrite pbind_step, pbind_step, Hp by done; cbn [pafter pret]).
  rewrite pbind_step, (pbutton_unkeyed_fine Hst), Hquiet. cbn [pafter].
  rewrite pbind_step. cbn [pwhen pret pafter].
  rewrite pbind_step, query_history_run. rewrite Hpage by done. rewrite Hquery.
  rewrite pbind_step, (pst_fine Hst). cbn [pafter].
  rewrite pbind_step, of_m_run. cbn.
  eexists _, (_ :: _ :: _ :: _ :: _ :: _ :: _ :: _ :: []). reflexivity.
Qed.

End WithEnv.
End PagesFacts.

Module ScriptFacts.
Import History Storage Pages Script.
#[local] Open Scope page_scope.

Section WithEnv.
Context `{!Env} `{!Outside}.

Lemma harmless_pret {A} (a : A) : harmless (pret a).
Proof. by intros w. Qed.

Lemma harmless_say s : harmless (say s).
Proof. by intros w. Qed.

Lemma harmless_page c : harmless (page c).
Proof. intros w. unfold page. by destruct (page_fault c). Qed.

Lemma harmless_lift {A} (r : res A) : r ≠ Raise RerunException → harmless (of_m (lift r)).
Proof. intros Hr w. by rewrite of_m_run. Qed.

Lemma harmless_bind {A B} (m : P A) (k : A → P B) :
  harmless m → (∀ a, harmless (k a)) → harmless (pbind m k).
Proof.
  intros Hm Hk w. destruct (Hm w) as [Hw Hr]. unfold pbind.
  destruct (m w) as [[[a|e] w1] ev1]; simpl in *; subst w1.
  - destruct (Hk a w) as [Hw' Hr']. by destruct (k a w) as [[r w2] ev2].
  - split; [done|]. intros [= ->]. by apply Hr.
Qed.

Lemma harmless_try_except {A} (m : P A) (h : string → P A) :
  harmless m → (∀ msg, harmless (h msg)) → harmless (ptry_except m h).
Proof.
  intros Hm Hh w. destruct (Hm w) as [Hw Hr]. unfold ptry_except.
  destruct (m w) as [[[a|[cls msg|]] w1] ev1]; simpl in *; subst w1; try done.
  destruct (Hh msg w) as [Hw' Hr']. by destruct (h msg w) as [[r w2] ev2].
Qed.

Lemma int_of_env_no_rerun name dflt : int_of_env name dflt ≠ Raise RerunException.
Proof. unfold int_of_env. by repeat case_match. Qed.

Lemma harmless_describe_key i key : harmless (describe_key i key).
Proof.
  unfold describe_key.
  apply harmless_bind; [apply harmless_page|intros _].
  destruct (truthy _); [|apply harmless_pret].
  apply harmless_bind.
  { apply harmless_lift. by destruct (json_loads _). }
  intros progress_data.
  do 3 (apply harmless_bind;
        [apply harmless_lift; by destruct progress_data|intros ?]).
  apply harmless_bind.
  { destruct (truthy _); [|apply harmless_pret].
    apply harmless_lift. by destruct (format_timestamp _). }
  intros update_str.
  repeat (apply harmless_bind; [apply harmless_say|intros _]). apply harmless_say.
Qed.

Lemma harmless_describe_keys i keys : harmless (describe_keys i keys).
Proof.
  revert i. induction keys as [|key keys IH]; intros i; simpl; [apply harmless_pret|].
  apply harmless_bind; [|intros _; apply IH].
  apply harmless_try_except; [apply harmless_describe_key|intros; apply harmless_say].
Qed.

Lemma harmless_redis_report : harmless redis_report.
Proof.
  unfold redis_report, env_int.
  destruct (negb redis_enabled); [apply harmless_say|].
  apply harmless_bind.
  { intros w. rewrite of_m_run. unfold py_import. by destruct (importable _). }
  intros _.
  do 2 (apply harmless_bind; [apply harmless_lift, int_of_env_no_rerun|intros ?]).
  apply harmless_bind; [apply harmless_page|intros _].
  apply harmless_bind; [apply harmless_say|intros _].
  apply harmless_bind; [apply harmless_page|intros _].
  apply harmless_bind; [by intros w|intros keys].
  apply harmless_bind; [apply harmless_say|intros _].
  apply harmless_bind; [apply harmless_describe_keys|intros _].
  destruct keys as [|sample_key keys]; [apply harmless_pret|].
  apply harmless_bind; [apply harmless_page|intros _].
  repeat case_match; apply harmless_say.
Qed.


End WithEnv.
End ScriptFacts.

(** ** The stores seen through the scans, and the filters composed *)

Module RoundTrips.
Import History Storage StorageFacts HistoryFacts.

(** *** Patterns *)

Lemma strip_prefix_Some p s r : strip_prefix p s = Some r ↔ s = p +:+ r.
Proof.
  revert s. induction p as [|c p IH]; intros s; simpl.
  - change ("" +:+ r) with r. split; [by intros [= ->] | by intros ->].
  - change (String c p +:+ r) with (String c (p +:+ r)).
    destruct s as [|d s]; [done|].
    destruct (Ascii.eqb_spec c d) as [->|Hne].
    + rewrite IH. split; [by intros -> | by intros [= ->]].
    + split; [done | intros [= <- _]; done].
Qed.

(** A pattern without wildcard matches itself only. *)
Lemma glob_match_literal lit s :
  literal lit = true → glob_match lit s = true ↔ s = lit.
Proof.
  revert s. induction lit as [|c lit IH]; intros s; simpl.
  - intros _. by rewrite String.eqb_eq.
  - intros [Hc Hlit]%andb_true_iff. apply negb_true_iff in Hc. rewrite Hc.
    destruct s as [|d s]; [done|].
    rewrite andb_true_iff, Ascii.eqb_eq, (IH _ Hlit).
    split; [by intros [-> ->] | by intros [= -> ->]].
Qed.

(** A pattern that starts with literal characters matches the strings that
    start with them and whose rest matches the rest of the pattern. *)
Lemma glob_match_prefix p rest s :
  literal p = true →
  glob_match (p +:+ rest) s = true ↔ ∃ r, s = p +:+ r ∧ glob_match rest r = true.
Proof.
  revert s. induction p as [|c p IH]; intros s.
  - intros _. change ("" +:+ rest) with rest. split.
    + intros Hm. by exists s.
    + by intros (r & -> & Hm).
  - change (String c p +:+ rest) with (String c (p +:+ rest)). simpl.
    intros [Hc Hp]%andb_true_iff. apply negb_true_iff in Hc. rewrite Hc.
    destruct s as [|d s].
    + split; [done | by intros (r & ? & _)].
    + rewrite andb_true_iff, Ascii.eqb_eq, (IH _ Hp). split.
      * intros [-> (r & -> & Hm)]. by exists r.
      * intros (r & [= -> ->] & Hm). split; [done|]. by exists r.
Qed.

(** A wildcard followed by literal characters matches the strings that end
    with them. *)
Lemma glob_match_star_literal lit s :
  literal lit = true →
  glob_match (String star lit) s = true ↔ ∃ x, s = x +:+ lit.
Proof.
  intros Hlit. induction s as [|d s IH].
  - simpl. rewrite orb_false_r, (glob_match_literal _ _ Hlit). split.
    + intros <-. by exists "".
    + intros ([|? ?] & Hx); [done|]. discriminate Hx.
  - simpl in *. rewrite orb_true_iff, (glob_match_literal _ _ Hlit), IH. split.
    + intros [<-|[x ->]]; [by exists "" | by exists (String d x)].
    + intros ([|c x] & Hx).
      * left. by rewrite Hx.
      * right. injection Hx as -> ->. by exists x.
Qed.

Lemma redis_scan_only k :
  glob_match redis_scan_pattern k = true → ∃ id, k = redis_key id.
Proof.
  intros (r & -> & _)%(glob_match_prefix "progress:" "*"); [|done]. by exists r.
Qed.

Lemma file_scan_only name :
  glob_match "progress_*.json" name = true →
  ∃ id, name = "progress_" +:+ id +:+ ".json".
Proof.
  intros (r & -> & Hr)%(glob_match_prefix "progress_" "*.json"); [|done].
  apply (glob_match_star_literal ".json") in Hr as [x ->]; [|done]. by exists x.
Qed.

Lemma elem_of_progress_keys k w :
  k ∈ progress_keys w ↔ k ∈ redis w ∧ ∃ id, k = redis_key id.
Proof.
  unfold progress_keys.
  rewrite list_elem_of_In, filter_In, <- list_elem_of_In, elem_of_elements.
  split; intros [Hin Hm]; (split; [done|]).
  - by apply redis_scan_only.
  - destruct Hm as [id ->]. apply redis_scan_matches.
Qed.

Lemma elem_of_progress_files p w :
  p ∈ progress_files w ↔ p ∈ files w ∧ ∃ id, has_slash id = false ∧ p = progress_file id.
Proof.
  split.
  - unfold progress_files, glob_in.
    rewrite list_elem_of_In, filter_In, <- list_elem_of_In, elem_of_elements.
    intros [Hin Hm]. split; [done|].
    destruct (strip_prefix _ p) as [name|] eqn:Hname; [|done].
    apply strip_prefix_Some in Hname as ->.
    apply andb_true_iff in Hm as [Hslash Hm]. apply negb_true_iff in Hslash.
    apply file_scan_only in Hm as [id ->]. exists id. split; [|done].
    rewrite !has_slash_append in Hslash.
    by destruct (has_slash id); [rewrite orb_true_r in Hslash|].
  - intros [Hin (id & Hid & ->)]. by apply progress_files_lists_job.
Qed.

(** X18.  The two scans of [analyze_data_storage.py] list exactly the
    records of the two stores: a key is listed by the Redis scan exactly
    when the server holds it and it is the key of some job, a path is listed
    by the directory scan exactly when it exists and is the progress file of
    some job whose identifier is a file name; neither scan lists anything
    twice. *)
Theorem scans_list_exactly_the_records (w : world) :
  (∀ k, k ∈ progress_keys w ↔ k ∈ redis w ∧ ∃ id, k = redis_key id)
  ∧ (∀ p, p ∈ progress_files w
          ↔ p ∈ files w ∧ ∃ id, has_slash id = false ∧ p = progress_file id)
  ∧ NoDup (progress_keys w)
  ∧ NoDup (progress_files w).
Proof.
  split; [intros k; apply elem_of_progress_keys|].
  split; [intros p; apply elem_of_progress_files|].
  split.
  - unfold progress_keys.
    apply NoDup_ListNoDup, List.NoDup_filter, NoDup_ListNoDup, NoDup_elements.
  - unfold progress_files, glob_in.
    apply NoDup_ListNoDup, List.NoDup_filter, NoDup_ListNoDup, NoDup_elements.
Qed.

(** *** Deleting, then scanning *)

Section Deleting.
Context `{!Env}.
Hypothesis redis_installed : importable "redis" = true.
Hypothesis nothing_fails : ∀ e, fault e = None.
Hypothesis port_reads : ∃ port, int_of_env "REDIS_PORT" 6379 = Ok port.
Hypothesis db_reads : ∃ db, int_of_env "REDIS_DB" 0 = Ok db.

Lemma durable_outcome_fine id w :
  durable_outcome id w = if bool_decide (progress_file id ∈ files w) then Removed else NotFound.
Proof. unfold durable_outcome. by rewrite nothing_fails. Qed.

Lemma expiring_outcome_fine id w :
  expiring_outcome id w =
  if redis_enabled then
    if bool_decide (redis_key id ∈ redis w) then Removed else NotFound
  else NotAttempted.
Proof.
  unfold expiring_outcome. destruct port_reads as [port ->], db_reads as [db ->].
  by rewrite nothing_fails.
Qed.

Lemma files_after_delete id w :
  files (delete_analysis_record id w).1.2 = files w ∖ {[progress_file id]}.
Proof.
  destruct (delete_attempts_both_backends (λ c, nothing_fails (St c)) id w redis_installed)
    as (_ & _ & Hfiles & _).
  rewrite Hfiles, durable_outcome_fine. case_bool_decide as Hin; [done|].
  apply set_eq. intros p. rewrite elem_of_difference, elem_of_singleton.
  split; [|tauto]. intros Hp. split; [done|]. by intros ->.
Qed.

Lemma redis_after_delete id w :
  redis (delete_analysis_record id w).1.2
  = if redis_enabled then redis w ∖ {[redis_key id]} else redis w.
Proof.
  destruct (delete_attempts_both_backends (λ c, nothing_fails (St c)) id w redis_installed)
    as (_ & _ & _ & Hredis & _).
  rewrite Hredis, expiring_outcome_fine. destruct redis_enabled; [|done].
  by case_bool_decide.
Qed.

(** X19.  Where the [redis] package is installed, no outside call fails and
    the Redis port and database number can be read, a job deleted by
    [delete_analysis_record] is gone from the scans of
    [analyze_data_storage.py]: the directory scan no longer lists its file
    and, with Redis enabled, the Redis scan no longer lists its key.  Every
    other entry of either scan is listed after the call exactly when it was
    listed before. *)
Theorem deleted_job_leaves_the_scans (id : string) (w : world) :
  let after := (delete_analysis_record id w).1.2 in
  (progress_file id ∉ progress_files after)
  ∧ (redis_enabled = true → redis_key id ∉ progress_keys after)
  ∧ (∀ p, p ≠ progress_file id → (p ∈ progress_files after ↔ p ∈ progress_files w))
  ∧ (∀ k, k ≠ redis_key id → (k ∈ progress_keys after ↔ k ∈ progress_keys w)).
Proof.
  intros after. subst after.
  split.
  { rewrite elem_of_progress_files, files_after_delete, elem_of_difference, elem_of_singleton.
    tauto. }
  split.
  { intros Hen.
    rewrite elem_of_progress_keys, redis_after_delete, Hen, elem_of_difference,
      elem_of_singleton.
    tauto. }
  split.
  - intros p Hp.
    rewrite !elem_of_progress_files, files_after_delete, elem_of_difference, elem_of_singleton.
    tauto.
  - intros k Hk. rewrite !elem_of_progress_keys, redis_after_delete.
    destruct redis_enabled; [|done].
    rewrite elem_of_difference, elem_of_singleton. tauto.
Qed.

(** X20.  Under the same conditions a second [delete_analysis_record] of
    the same job finds nothing to remove: it returns without asking for a
    rerun, reports that no record was found, and leaves the files and the
    Redis keys as the first call left them. *)
Theorem second_delete_finds_nothing (id : string) (w : world) :
  let after := (delete_analysis_record id w).1.2 in
  let again := delete_analysis_record id after in
  again.1.1 = Ok tt
  ∧ St (Err "❌ 删除失败，没有找到要删除的记录") ∈ again.2
  ∧ files again.1.2 = files after
  ∧ redis again.1.2 = redis after.
Proof.
  intros after again.
  assert (progress_file id ∉ files after) as Hfile.
  { subst after. rewrite files_after_delete, elem_of_difference, elem_of_singleton. tauto. }
  assert (redis_enabled = true → redis_key id ∉ redis after) as Hkey.
  { intros Hen. subst after.
    rewrite redis_after_delete, Hen, elem_of_difference, elem_of_singleton. tauto. }
  assert (durable_outcome id after = NotFound) as Hd
    by (rewrite durable_outcome_fine; by case_bool_decide).
  assert (removed (expiring_outcome id after) = 0) as Hx.
  { rewrite expiring_outcome_fine. destruct redis_enabled; [|done].
    by rewrite bool_decide_false by by apply Hkey. }
  destruct (delete_attempts_both_backends (λ c, nothing_fails (St c)) id after redis_installed)
    as (_ & _ & _ & _ & _ & _ & Hout).
  rewrite Hd, Hx in Hout. simpl in Hout. destruct Hout as (Hres & Herr & _).
  split; [exact Hres|]. split; [exact Herr|].
  subst again. rewrite files_after_delete, redis_after_delete.
  split.
  - apply set_eq. intros p. rewrite elem_of_difference, elem_of_singleton.
    split; [tauto|]. intros Hp. split; [done|]. by intros ->.
  - destruct redis_enabled eqn:Hen; [|done].
    specialize (Hkey eq_refl).
    apply set_eq. intros k. rewrite elem_of_difference, elem_of_singleton.
    split; [tauto|]. intros Hk. split; [done|]. by intros ->.
Qed.

End Deleting.

(** *** What the delete operation addresses *)

Section Addressing.
Context `{!Env}.

(** Where Redis is enabled and its port and database number can be read,
    the Redis part issues the [delete] of the job's key. *)
Lemma delete_redis_record_attempts id w :
  redis_enabled = true →
  (∃ port, int_of_env "REDIS_PORT" 6379 = Ok port) →
  (∃ db, int_of_env "REDIS_DB" 0 = Ok db) →
  RedisDelete (redis_key id) ∈ (delete_redis_record id w).2.
Proof.
  intros Hen [port Hport] [db Hdb].
  unfold delete_redis_record, try_except, redis_delete, log, lift.
  rewrite Hen, bind_step, Hport. simpl.
  rewrite bind_step, Hdb. simpl.
  rewrite bind_step, bind_step. unfold ext.
  destruct (fault _); simpl; [by left|].
  case_bool_decide; simpl; by left.
Qed.

(** The report that ends [delete_analysis_record], and its handler, leave
    the stores alone. *)
Lemma delete_report_keeps_store count (problems : list string) :
  preserves same_store
    (if 0 <? count then
       st (Success ("✅ 成功删除 " +:+ pretty count +:+ " 项记录"));;;
       for_each problems (λ msg, st (Warn ("⚠️ " +:+ msg)));;;
       rerun
     else
       st (Err "❌ 删除失败，没有找到要删除的记录");;;
       for_each problems (λ msg, st (Err ("❌ " +:+ msg)))).
Proof. repeat keeps_step. Qed.

Lemma delete_handler_keeps_store id msg :
  preserves same_store
    (st (Err ("❌ 删除操作失败: " +:+ msg));;;
     log LError ("删除分析记录失败: " +:+ id +:+ ", 错误: " +:+ msg)).
Proof. repeat keeps_step. Qed.

(** Behind its [import], [delete_analysis_record] runs the file part and
    then the Redis part; what follows leaves the stores as the two parts
    left them. *)
Lemma delete_runs_both_parts id w :
  importable "redis" = true →
  let file_part := delete_file_record id w in
  let redis_part := delete_redis_record id file_part.1.2 in
  let out := delete_analysis_record id w in
  (∃ rest, out.2 = file_part.2 ++ redis_part.2 ++ rest)
  ∧ same_store redis_part.1.2 out.1.2.
Proof.
  intros Hpkg file_part redis_part out.
  pose proof (delete_file_record_run id w) as Hfile. cbv zeta in Hfile.
  destruct (delete_redis_record_run id (delete_file_record id w).1.2) as (evs & Hredis & _).
  remember (delete_analysis_record id w) as o eqn:Ho. subst out redis_part file_part.
  unfold delete_analysis_record, try_except, py_import in Ho.
  rewrite Hpkg, bind_step in Ho. simpl in Ho. rewrite after_nil in Ho.
  rewrite bind_step in Ho.
  rewrite Hredis. rewrite Hfile in Ho, Hredis |- *. cbn [fst snd] in Ho, Hredis |- *.
  rewrite bind_step in Ho. rewrite Hredis in Ho. cbn [fst snd] in Ho.
  match type of Ho with
  | context [after evs (?m ?w2)] =>
      pose proof (delete_report_keeps_store _ _ w2 : same_store w2 (m w2).1.2) as Hrep;
      destruct (m w2) as [[[[]|[cls msg|]] w3] ev3]
  end.
  all: cbn [after fst snd] in Ho, Hrep.
  - subst o. split; [by eexists | done].
  - pose proof (delete_handler_keeps_store id msg w3) as Hh.
    destruct (bind _ _ w3) as [[r4 w4] ev4]. cbn [fst snd] in Hh. subst o.
    cbn [fst snd]. split.
    + rewrite <- !app_assoc. by eexists.
    + by etrans.
  - subst o. split; [by eexists | done].
Qed.

(** Whether or not the [import] works, the call can only take the job's
    file and the job's key away. *)
Lemma delete_store_frame id w :
  let out := delete_analysis_record id w in
  (∀ p, p ≠ progress_file id → (p ∈ files out.1.2 ↔ p ∈ files w))
  ∧ (∀ k, k ≠ redis_key id → (k ∈ redis out.1.2 ↔ k ∈ redis w)).
Proof.
  intros out.
  destruct (importable "redis") eqn:Hpkg.
  - destruct (delete_runs_both_parts id w Hpkg) as [_ [Hf Hr]]. fold out in Hf, Hr.
    pose proof (delete_file_record_run id w) as Hfile. cbv zeta in Hfile.
    destruct (delete_redis_record_run id (delete_file_record id w).1.2)
      as (evs & Hredis & _).
    rewrite Hredis in Hf, Hr. rewrite Hfile in Hf, Hr. cbn [fst snd] in Hf, Hr.
    rewrite Hf, Hr. split.
    + intros p Hp. destruct w; simpl.
      destruct (durable_outcome _ _); [|done..].
      rewrite elem_of_difference, elem_of_singleton. tauto.
    + intros k Hk. destruct w; simpl.
      destruct (expiring_outcome _ _); [| |done..].
      all: rewrite elem_of_difference, elem_of_singleton; tauto.
  - assert (same_store w out.1.2) as [Hf Hr].
    { subst out. unfold delete_analysis_record, try_except, py_import.
      rewrite Hpkg, bind_step. simpl.
      pose proof (delete_handler_keeps_store id "No module named 'redis'" w) as Hh.
      destruct (bind _ _ w) as [[r4 w4] ev4]. exact Hh. }
    rewrite Hf, Hr. done.
Qed.

(** The removals tried: with the [import] working, the file part tries
    [os.remove] on the job's file whenever that file exists, and the Redis
    part tries [delete] on the job's key whenever Redis is enabled and
    configured; a removal that does not raise takes the record away. *)
Lemma delete_removes_job id w :
  importable "redis" = true →
  let out := delete_analysis_record id w in
  (progress_file id ∈ files w →
     OsRemove (progress_file id) ∈ out.2
     ∧ (fault (OsRemove (progress_file id)) = None → progress_file id ∉ files out.1.2))
  ∧ (redis_enabled = true →
     (∃ port, int_of_env "REDIS_PORT" 6379 = Ok port) →
     (∃ db, int_of_env "REDIS_DB" 0 = Ok db) →
     RedisDelete (redis_key id) ∈ out.2
     ∧ (fault (RedisDelete (redis_key id)) = None → redis_key id ∉ redis out.1.2)).
Proof.
  intros Hpkg out.
  destruct (delete_runs_both_parts id w Hpkg) as [[rest Hevs] [Hf Hr]].
  fold out in Hevs, Hf, Hr.
  pose proof (delete_file_record_run id w) as Hfile. cbv zeta in Hfile.
  destruct (delete_redis_record_run id (delete_file_record id w).1.2)
    as (evs & Hredis & _).
  split.
  - intros Hin. split.
    + rewrite Hevs, Hfile. cbn [snd]. apply elem_of_app. left.
      unfold durable_outcome. rewrite bool_decide_true by done.
      destruct (fault _); by left.
    + intros Hok. rewrite Hf, Hredis, Hfile. cbn [fst snd].
      unfold durable_outcome. rewrite bool_decide_true, Hok by done.
      destruct w; simpl. rewrite elem_of_difference, elem_of_singleton. tauto.
  - intros Hen Hport Hdb. split.
    + rewrite Hevs. apply elem_of_app. right. apply elem_of_app. left.
      by apply delete_redis_record_attempts.
    + intros Hok. rewrite Hr, Hredis. cbn [fst snd].
      unfold expiring_outcome.
      destruct Hport as [port ->], Hdb as [db ->]. rewrite Hen, Hok.
      destruct (delete_file_record id w).1.2; simpl.
      case_bool_decide; rewrite elem_of_difference, elem_of_singleton; tauto.
Qed.

End Addressing.

(** C8.  For every job identifier, the record's Redis key is "progress:"
    followed by the identifier and its file is "progress_" followed by the
    identifier and ".json" in the data directory "./data"; different jobs
    have different keys and different files.

    The scans of [analyze_data_storage.py] use the same two schemes: their
    patterns, with the wildcard replaced by the identifier, are that key and
    that file, and they match them; the Redis scan lists the job's key
    exactly when the server holds it, the directory scan lists the job's
    file exactly when it exists (for an identifier that is a file name), and
    whatever either scan lists is the key or the file of some job.

    [delete_analysis_record] uses them too.  In any environment every
    [os.remove] and every Redis [delete] it issues is on that file and on
    that key, and no other file or key is touched.  Where the [redis]
    package can be imported, it issues [os.remove] on that file whenever the
    file exists, and [delete] on that key whenever Redis is enabled and its
    port and database number can be read; a removal that does not raise
    leaves the store without the record. *)
Theorem records_addressed_by_job_id (id : string) :
  redis_key id = "progress:" +:+ id
  ∧ progress_file id = data_dir +:+ "/progress_" +:+ id +:+ ".json"
  ∧ progress_file id = os_path_join data_dir ("progress_" +:+ id +:+ ".json")
  ∧ (∀ id', progress_file id = progress_file id' → id = id')
  ∧ (∀ id', redis_key id = redis_key id' → id = id')
  ∧ instantiate file_scan_pattern id = progress_file id
  ∧ instantiate redis_scan_pattern id = redis_key id
  ∧ glob_match "progress_*.json" ("progress_" +:+ id +:+ ".json") = true
  ∧ glob_match redis_scan_pattern (redis_key id) = true
  ∧ (∀ (E : Env) w e,
       e ∈ (delete_analysis_record id w).2 →
       (∀ p, e = OsRemove p → p = progress_file id)
       ∧ (∀ k, e = RedisDelete k → k = redis_key id))
  ∧ (∀ w,
       (redis_key id ∈ progress_keys w ↔ redis_key id ∈ redis w)
       ∧ (has_slash id = false →
          (progress_file id ∈ progress_files w ↔ progress_file id ∈ files w))
       ∧ (∀ k, k ∈ progress_keys w → ∃ id', k = redis_key id')
       ∧ (∀ p, p ∈ progress_files w → ∃ id', p = progress_file id'))
  ∧ (∀ (E : Env) w,
       let out := delete_analysis_record id w in
       (importable "redis" = true → progress_file id ∈ files w →
          OsRemove (progress_file id) ∈ out.2
          ∧ (fault (OsRemove (progress_file id)) = None →
             progress_file id ∉ files out.1.2))
       ∧ (importable "redis" = true → redis_enabled = true →
          (∃ port, int_of_env "REDIS_PORT" 6379 = Ok port) →
          (∃ db, int_of_env "REDIS_DB" 0 = Ok db) →
          RedisDelete (redis_key id) ∈ out.2
          ∧ (fault (RedisDelete (redis_key id)) = None →
             redis_key id ∉ redis out.1.2))
       ∧ (∀ p, p ≠ progress_file id → (p ∈ files out.1.2 ↔ p ∈ files w))
       ∧ (∀ k, k ≠ redis_key id → (k ∈ redis out.1.2 ↔ k ∈ redis w))).
Proof.
  split; [done|]. split; [done|]. split; [done|].
  split; [intros id'; apply progress_file_inj|].
  split; [intros id'; apply redis_key_inj|].
  split; [done|].
  split; [change (instantiate redis_scan_pattern id) with ("progress:" +:+ (id +:+ ""));
          by rewrite append_empty_r|].
  split; [apply file_scan_matches|]. split; [apply redis_scan_matches|].
  split; [intros E w e; apply delete_addresses_job|].
  split.
  - intros w. split; [|split; [|split]].
    + rewrite elem_of_progress_keys. split; [tauto|]. intros Hin. split; [done|]. by exists id.
    + intros Hid. rewrite elem_of_progress_files. split; [tauto|].
      intros Hin. split; [done|]. by exists id.
    + intros k [_ Hk]%elem_of_progress_keys. exact Hk.
    + intros p [_ (id' & _ & Hp)]%elem_of_progress_files. by exists id'.
  - intros E w out.
    split; [intros Hpkg; apply (delete_removes_job id w Hpkg)|].
    split; [intros Hpkg; apply (delete_removes_job id w Hpkg)|].
    apply delete_store_frame.
Qed.

(** *** The filters composed *)

Lemma keep_since_timestamped cutoff records kept :
  keep_since cutoff records = Ok kept → forallb timestamped records = true.
Proof.
  intros Hk. destruct (forallb timestamped records) eqn:Hts; [done|].
  destruct (keep_since_raises cutoff _ Hts) as [msg Hr]. congruence.
Qed.

Lemma keeps_status_all r : keeps_status "全部" r = true.
Proof. done. Qed.

Lemma filter_idem {A} (f : A → bool) l : List.filter f (List.filter f l) = List.filter f l.
Proof.
  rewrite filter_filter_andb. apply List.filter_ext. intros a. by destruct (f a).
Qed.

Lemma filter_swap {A} (f g : A → bool) l :
  List.filter f (List.filter g l) = List.filter g (List.filter f l).
Proof.
  rewrite !filter_filter_andb. apply List.filter_ext. intros a. apply andb_comm.
Qed.

Lemma filter_all {A} (f : A → bool) l : forallb f l = true → List.filter f l = l.
Proof.
  induction l as [|x l IH]; [done|]. simpl.
  intros [Hx Hl]%andb_true_iff. by rewrite Hx, IH.
Qed.

Lemma forallb_filter_self {A} (f : A → bool) l : forallb f (List.filter f l) = true.
Proof.
  apply forallb_forall. by intros x [_ Hx]%filter_In.
Qed.

(** X21.  [apply_filters] reads the clock on every call that has a time
    range, so the two calls below have each their own calendar: [cal] for
    the first and [later] for the second.  Whenever [apply_filters] returns
    a list, filtering that list again with the same choices never fails and
    never brings a record back: it returns, in order, the records whose
    last update reaches the cutoff of the second call.  It returns the list
    unchanged when the cutoff of the second call is not after that of the
    first, as it is at the same instant and under the time filter "全部".
    The status filter does not read the clock: the status filter alone, at
    any time, followed by the time filter alone at the instant of [cal]
    gives the same list as both filters at that instant, and so does the
    time filter alone at that instant followed by the status filter alone,
    whenever the time filter alone returns. *)
Theorem filters_compose cal later records status_filter time_filter kept :
  apply_filters cal records status_filter time_filter = Ok kept →
  (∃ again,
     apply_filters later kept status_filter time_filter = Ok again
     ∧ sublist again kept
     ∧ ∀ r, r ∈ again
            ↔ r ∈ kept
              ∧ (time_filter ≠ "全部" → cutoff_timestamp later time_filter ≤ last_update_of r))
  ∧ (time_filter = "全部" ∨ cutoff_timestamp later time_filter ≤ cutoff_timestamp cal time_filter →
     apply_filters later kept status_filter time_filter = Ok kept)
  ∧ (∃ by_status,
       apply_filters later records status_filter "全部" = Ok by_status
       ∧ apply_filters cal by_status "全部" time_filter = Ok kept)
  ∧ (∀ by_time,
       apply_filters cal records "全部" time_filter = Ok by_time →
       apply_filters later by_time status_filter "全部" = Ok kept).
Proof.
  rewrite !apply_filters_steps.
  change (String.eqb "全部" "全部") with true. cbv iota.
  destruct (String.eqb_spec time_filter "全部") as [->|Ht].
  - intros [= <-]. rewrite filter_idem. split; [|split; [done|split]].
    + eexists. split; [done|]. split; [done|]. intros r. split; [|by intros [? _]].
      intros Hr. by split.
    + eexists. split; [done|]. rewrite apply_filters_steps.
      change (String.eqb "全部" "全部") with true. cbv iota.
      by rewrite (filter_true (keeps_status "全部")).
    + intros by_time [= <-]. rewrite apply_filters_steps.
      change (String.eqb "全部" "全部") with true. cbv iota.
      by rewrite (filter_true (keeps_status "全部")).
  - intros Hkept.
    pose proof (keep_since_timestamped _ _ _ Hkept) as Hts.
    rewrite keep_since_ok in Hkept by done. injection Hkept as <-.
    set (kept := List.filter (λ r, cutoff_timestamp cal time_filter <=? last_update_of r)
                   (List.filter (keeps_status status_filter) records)).
    assert (List.filter (keeps_status status_filter) kept = kept) as Hstatus.
    { subst kept. rewrite (filter_swap (keeps_status status_filter)). by rewrite filter_idem. }
    assert (forallb timestamped kept = true) as Hkts by by apply forallb_filter.
    rewrite Hstatus, (keep_since_ok _ kept) by done.
    split; [|split; [|split]].
    + eexists. split; [done|]. split; [apply filter_sublist|].
      intros r. rewrite !list_elem_of_In, filter_In, Z.leb_le. tauto.
    + intros [?|Hle]; [done|]. f_equal. apply filter_all.
      apply forallb_forall. intros r [_ Hr]%filter_In.
      apply Z.leb_le. apply Z.leb_le in Hr. lia.
    + eexists. split; [done|]. rewrite apply_filters_steps.
      destruct (String.eqb_spec time_filter "全部") as [?|_]; [done|].
      rewrite (filter_true (keeps_status "全部")) by done.
      by rewrite keep_since_ok.
    + intros by_time Hby. rewrite (filter_true (keeps_status "全部")) in Hby by done.
      pose proof (keep_since_timestamped _ _ _ Hby) as Hall.
      rewrite keep_since_ok in Hby by done. injection Hby as <-.
      rewrite apply_filters_steps.
      change (String.eqb "全部" "全部") with true. cbv iota.
      subst kept. by rewrite filter_swap.
Qed.

End RoundTrips.

(** ** The refresh-rate limiter *)

Module LimiterFacts.
Import Display DisplayFacts.

Section WithEnv.
Context `{!Env}.
Variable id : string.

(** What does not sleep fits. *)
Lemma calm_awake K {A} (m : M A) : calm K m → emits_only (sleeps_for_depth id) m.
Proof.
  intros Hm w e He secs ->. by destruct (proj1 (Hm w) secs).
Qed.

Lemma emits_after_fetch (P : event → Prop) {B} (k : option (gmap string value) → M B) :
  P (Fetch id) → emits_only P (k (get_progress_by_id id)) →
  emits_only P (bind (fetch id) k).
Proof.
  intros Hf Hk w e. rewrite bind_step. unfold fetch. rewrite bind_step. unfold ext.
  destruct (fault _); simpl.
  - by intros ->%list_elem_of_singleton.
  - specialize (Hk w e). destruct (k _ w) as [[r w2] ev2]. simpl in *.
    rewrite elem_of_cons. intros [->|?]; auto.
Qed.

Lemma emits_after_lift (P : event → Prop) {A B} (r : res A) (k : A → M B) :
  (∀ a, r = Ok a → emits_only P (k a)) → emits_only P (bind (lift r) k).
Proof.
  intros Hk w e. rewrite bind_step. simpl. destruct r as [a|x]; simpl.
  - rewrite after_nil. by apply Hk.
  - by intros ?%not_elem_of_nil.
Qed.

Lemma emits_sleep (P : event → Prop) secs : P (Sleep secs) → emits_only P (sleep secs).
Proof. intros Hs w e. simpl. by intros ->%list_elem_of_singleton. Qed.

Ltac other_event := by intros ? [=].

Lemma refresh_controls_fits d status :
  get_progress_by_id id = Some d →
  emits_only (sleeps_for_depth id) (refresh_controls id d status).
Proof.
  intros Hd. unfold refresh_controls.
  apply emits_try_except; [|intros; apply emits_log; other_event].
  apply emits_bind; [apply emits_session_get|intros last_refresh_time].
  apply emits_bind; [apply emits_time_time|intros current_time].
  apply emits_after_lift. intros research_depth Hdepth.
  repeat first
    [ apply emits_sleep; intros secs [= <-]; by exists d, research_depth
    | emits_step other_event ].
Qed.

#[local] Hint Resolve calm_shown_elapsed calm_restore_results calm_display_missing : calm.

Lemma display_found_fits d ctl rep :
  get_progress_by_id id = Some d →
  emits_only (sleeps_for_depth id) (display_found id d ctl rep).
Proof.
  intros Hd. unfold display_found.
  repeat (apply emits_bind;
          [apply (calm_awake (eq (refresh_protection_key id)));
           by unfold refresh_protection_key; repeat calm_step
          |intros]).
  apply emits_bind; [|intros; apply emits_ret].
  apply emits_when. by apply refresh_controls_fits.
Qed.

Lemma display_static_fits ctl rep :
  emits_only (sleeps_for_depth id) (display_static_progress_with_controls id ctl rep).
Proof.
  unfold display_static_progress_with_controls.
  apply emits_bind; [apply emits_session_get|intros locked].
  destruct (truthy locked).
  { apply emits_bind; [apply emits_log; other_event|intros; apply emits_ret]. }
  apply emits_bind; [apply emits_session_set; other_event|intros _].
  apply emits_finally.
  - unfold display_body.
    apply emits_bind; [apply emits_st; other_event|intros _].
    apply emits_after_fetch; [other_event|].
    destruct (get_progress_by_id id) as [d|] eqn:Hd; simpl.
    + case_bool_decide.
      * apply (calm_awake (eq (refresh_protection_key id))), calm_display_missing.
      * by apply display_found_fits.
    + apply (calm_awake (eq (refresh_protection_key id))), calm_display_missing.
  - unfold release_display_lock.
    apply emits_bind; [apply emits_session_contains|intros held].
    apply emits_when, emits_session_del. other_event.
Qed.

Lemma first_step_depth d step rest :
  d !! "steps" = Some (VList (VDict step :: rest)) →
  research_depth_of d = Ok (dget step "research_depth" (VNum 2)).
Proof. intros Hsteps. unfold research_depth_of, dget. by rewrite Hsteps. Qed.

Lemma is_int_1 depth : is_int 1 depth = true ↔ depth = VNum 1 ∨ depth = VBool true.
Proof.
  unfold is_int. destruct depth as [|[]|z| | |]; simpl; try (split; [done|by intros [|]]).
  - split; [by right|done].
  - rewrite Z.eqb_eq. split; [intros ->; by left|by intros [[= ->]|]].
Qed.


End WithEnv.
End LimiterFacts.

(** ** The progress display: its answer, its refresh controls and the
       view-report handler *)

Module ControlsFacts.
Import Display DisplayFacts.

Section Answering.
Context `{!Env}.

Lemma answers_ret {A} (Q : A → Prop) a : Q a → answers Q (ret a).
Proof. intros HQ w a' [= <-]. exact HQ. Qed.

Lemma answers_bind {A B} (Q : B → Prop) (m : M A) (k : A → M B) :
  (∀ a, answers Q (k a)) → answers Q (bind m k).
Proof.
  intros Hk w b. rewrite bind_step.
  destruct (m w) as [[[a|e] w1] ev1]; [|done].
  rewrite after_fst. apply Hk.
Qed.

Lemma answers_finally {A} (Q : A → Prop) (m : M A) (c : M unit) :
  answers Q m → answers Q (finally_ m c).
Proof.
  intros Hm w a. unfold finally_.
  destruct (m w) as [[r w1] ev1] eqn:Hrun.
  destruct (c w1) as [[[[]|e] w2] ev2]; simpl; [|done].
  intros ->. apply (Hm w). by rewrite Hrun.
Qed.

Lemma answers_after_fetch {B} (Q : B → Prop) id (k : option (gmap string value) → M B) :
  answers Q (k (get_progress_by_id id)) → answers Q (bind (fetch id) k).
Proof.
  intros Hk w b. rewrite bind_step. unfold fetch. rewrite bind_step. unfold ext.
  destruct (fault (Fetch id)); simpl; [done|].
  rewrite after_fst. apply Hk.
Qed.

Lemma display_found_answers id d ctl rep :
  answers (eq (is_terminal (s_status (parse_static d)))) (display_found id d ctl rep).
Proof.
  unfold display_found.
  repeat (apply answers_bind; intros ?). by apply answers_ret.
Qed.

Lemma display_missing_answers id ctl : answers (eq false) (display_missing id ctl).
Proof.
  unfold display_missing. repeat (apply answers_bind; intros ?). by apply answers_ret.
Qed.

(** What the tracker's record says about completion. *)
Lemma display_body_answers id ctl rep :
  answers
    (eq match get_progress_by_id id with
        | Some d => negb (bool_decide (d = ∅)) && is_terminal (s_status (parse_static d))
        | None => false
        end)
    (display_body id ctl rep).
Proof.
  unfold display_body. apply answers_bind. intros _.
  apply answers_after_fetch.
  destruct (get_progress_by_id id) as [d|]; simpl; [|apply display_missing_answers].
  case_bool_decide; simpl; [apply display_missing_answers | apply display_found_answers].
Qed.

(** X22.  Whenever [display_static_progress_with_controls] returns, its
    answer is [True] exactly when the display lock was free and the tracker
    holds a non-empty record of the job whose status is completed or
    failed; in particular it never reports completion for a job without a
    record, for a running job, or from a poll that was dropped. *)
Theorem completion_answer_follows_record id ctl rep w (r : bool) :
  (display_static_progress_with_controls id ctl rep w).1.1 = Ok r →
  r = negb (truthy (dget (session w) (display_lock_key id) (VBool false)))
      && match get_progress_by_id id with
         | Some d => negb (bool_decide (d = ∅)) && is_terminal (s_status (parse_static d))
         | None => false
         end.
Proof.
  unfold display_static_progress_with_controls. rewrite bind_step. simpl.
  destruct (truthy (dget (session w) (display_lock_key id) (VBool false))); simpl.
  - by intros [= <-].
  - rewrite after_fst. intros Hr. symmetry.
    refine (answers_bind (eq _) _ _ _ w r Hr). intros _.
    apply answers_finally, display_body_answers.
Qed.

End Answering.

(** *** A running job with a well-formed record, no outside call failing *)

Section Refreshing.
Context `{!Env}.
Hypothesis no_fault : ∀ e, fault e = None.
Variables (id : string) (d : gmap string value).
Variables (started elapsed total percent : Z) (depth : value).
Hypothesis record_held : get_progress_by_id id = Some d.
Hypothesis record_filled : d ≠ ∅.
Hypothesis job_running : s_status (parse_static d) = VStr "running".
Hypothesis start_time_read : as_num (s_start_time (parse_static d)) = Some started.
Hypothesis elapsed_time_read : as_num (s_elapsed_time (parse_static d)) = Some elapsed.
Hypothesis total_time_read : as_num (s_estimated_total_time (parse_static d)) = Some total.
Hypothesis percentage_read : as_num (s_progress_percentage (parse_static d)) = Some percent.
Hypothesis depth_read : research_depth_of d = Ok depth.

Ltac step_with H := rewrite bind_step, H; cbv beta iota; rewrite after_fst.
Ltac step_st := step_with (st_ok no_fault).

(** The fields as the [.get] calls read them. *)
Ltac fields :=
  pose proof job_running as Hstatus; pose proof start_time_read as Hstart;
  pose proof elapsed_time_read as Helapsed; pose proof total_time_read as Htotal;
  pose proof percentage_read as Hpercent;
  simpl in Hstatus, Hstart, Helapsed, Htotal, Hpercent.

Lemma shown_elapsed_running w :
  ∃ v n, shown_elapsed (VStr "running") (s_start_time (parse_static d))
           (s_elapsed_time (parse_static d)) w = (Ok v, w, [])
         ∧ as_num v = Some n.
Proof.
  fields. unfold shown_elapsed. simpl.
  rewrite bind_step. unfold py_gt. rewrite Hstart. simpl.
  destruct (0 <? started).
  - rewrite bind_step. simpl. unfold py_sub. rewrite Hstart. simpl.
    by eexists _, _.
  - simpl. by eexists _, _.
Qed.

Lemma display_body_found rep w :
  (display_body id true rep w).1 = (display_found id d true rep w).1.
Proof.
  unfold display_body. step_st. step_with (fetch_ok no_fault).
  rewrite record_held. simpl. by rewrite bool_decide_false.
Qed.

Lemma display_found_running rep w :
  (display_found id d true rep w).1
  = (bind (refresh_controls id d (VStr "running")) (λ _, ret false) w).1.
Proof.
  unfold display_found. rewrite job_running.
  destruct (shown_elapsed_running w) as (v & n & Hv & Hn).
  step_with Hv.
  rewrite bind_step. unfold py_sub at 1. rewrite total_time_read, Hn.
  cbn [ret]. cbv beta iota. rewrite after_fst.
  rewrite bind_step. unfold py_max0 at 1. cbn [as_num ret]. cbv beta iota. rewrite after_fst.
  step_st. step_st.
  rewrite bind_step. unfold format_1f at 1. rewrite percentage_read.
  cbn [ret]. cbv beta iota. rewrite after_fst.
  step_st. step_st.
  change (is_str "completed" (VStr "running")) with false.
  change (is_str "failed" (VStr "running")) with false. cbv iota.
  step_st.
  rewrite bind_step. unfold progress_arg at 1. rewrite percentage_read.
  cbn [ret]. cbv beta iota. rewrite after_fst.
  step_st. step_st.
  rewrite bind_step. cbn [status_icon ret]. cbv beta iota. rewrite after_fst.
  step_st.
  reflexivity.
Qed.

Lemma refresh_controls_manual status w :
  clicked ("refresh_unified_" +:+ id) = true →
  (refresh_controls id d status w).1
  = (Raise RerunException, with_session (delete (refresh_protection_key id)) w).
Proof.
  intros Hpressed. unfold refresh_controls, try_except.
  rewrite bind_step. cbn [session_get]. cbv beta iota. rewrite after_nil.
  rewrite bind_step. cbn [time_time]. cbv beta iota. rewrite after_nil.
  rewrite bind_step, depth_read. cbn [lift]. cbv beta iota. rewrite after_nil.
  rewrite bind_step, (st_ok no_fault). cbv beta iota.
  rewrite bind_step, (button_ok no_fault), Hpressed. cbv beta iota.
  rewrite bind_step. cbn [when].
  rewrite bind_step. cbn [session_contains]. cbv beta iota. rewrite after_nil.
  rewrite bind_step.
  case_bool_decide as Hheld; cbn [when session_del ret rerun raise after]; cbv beta iota.
  - reflexivity.
  - cbn. f_equal. destruct w as [s c me fs ks]. unfold with_session. cbn. f_equal.
    symmetry. apply delete_id. by apply eq_None_not_Some.
Qed.

Lemma try_except_rerun {A} (m : M A) h w w' :
  (m w).1 = (Raise RerunException, w') → (try_except m h w).1 = (Raise RerunException, w').
Proof. unfold try_except. destruct (m w) as [[r w1] ev1]. simpl. by intros [= -> ->]. Qed.

Lemma try_except_ok {A} (m : M A) h w a w' :
  (m w).1 = (Ok a, w') → (try_except m h w).1 = (Ok a, w').
Proof. unfold try_except. destruct (m w) as [[r w1] ev1]. simpl. by intros [= -> ->]. Qed.

(** [refresh_controls] of a running job whose refresh button is not
    pressed and whose auto-refresh box is ticked (it is by default). *)
Lemma refresh_controls_auto w last :
  clicked ("refresh_unified_" +:+ id) = false →
  truthy (dget (session w) ("auto_refresh_unified_" +:+ id) (VBool true)) = true →
  as_num (dget (session w) (refresh_protection_key id) (VNum 0)) = Some last →
  ∃ ticked,
    clock ticked = clock w
    ∧ (∀ k, k ≠ "auto_refresh_unified_" +:+ id → session ticked !! k = session w !! k)
    ∧ (refresh_controls id d (VStr "running") w).1
      = if protection_interval depth <=? clock w - last
        then (Raise RerunException,
              with_clock (λ t, t + sleep_time depth)
                (with_session (insert (refresh_protection_key id) (VNum (clock w))) ticked))
        else (Ok tt, ticked).
Proof.
  intros Hpressed Hauto Hlast.
  assert (∃ ticked evs,
            (if negb (bool_decide (is_Some (session w !! ("auto_refresh_unified_" +:+ id))))
             then session_set ("auto_refresh_unified_" +:+ id) (VBool true)
             else ret tt) w
            = (Ok tt, ticked, evs)
            ∧ truthy (dget (session ticked) ("auto_refresh_unified_" +:+ id) (VBool false))
              = true
            ∧ clock ticked = clock w
            ∧ ∀ k, k ≠ "auto_refresh_unified_" +:+ id → session ticked !! k = session w !! k)
    as (ticked & evs & Hwhen & Hticked & Hclock & Hrest).
  { unfold dget in *. case_bool_decide as Hknown; cbn.
    - eexists _, _. split; [done|]. split; [|done].
      destruct Hknown as [v Hv]. by rewrite Hv in *.
    - eexists _, _. split; [done|]. unfold with_session. cbn [session clock].
      split; [by rewrite lookup_insert_eq|]. split; [done|].
      intros k Hk. by rewrite lookup_insert_ne. }
  exists ticked. split; [done|]. split; [done|].
  unfold refresh_controls.
  destruct (protection_interval depth <=? clock w - last) eqn:Hdue;
    [apply try_except_rerun | apply try_except_ok].
  all: rewrite bind_step; cbn [session_get]; cbv beta iota; rewrite after_fst.
  all: rewrite bind_step; cbn [time_time]; cbv beta iota; rewrite after_fst.
  all: rewrite bind_step, depth_read; cbn [lift]; cbv beta iota; rewrite after_fst.
  all: step_st.
  all: step_with (button_ok no_fault); rewrite Hpressed.
  all: rewrite bind_step; cbn [when ret]; cbv beta iota; rewrite after_fst.
  all: rewrite bind_step; cbn [session_contains]; cbv beta iota; rewrite after_fst.
  all: step_with Hwhen.
  all: step_with (checkbox_ok no_fault); rewrite Hticked.
  all: change (true && is_str "running" (VStr "running")) with true; cbv iota.
  all: rewrite bind_step; unfold py_sub; cbn [as_num]; rewrite Hlast;
       cbn [ret]; cbv beta iota; rewrite after_fst.
  all: rewrite bind_step; unfold py_ge; cbn [as_num ret]; cbv beta iota; rewrite after_fst.
  all: rewrite Hdue; cbn [when].
  - rewrite bind_step; cbn [session_set]; cbv beta iota; rewrite after_fst.
    rewrite bind_step. unfold sleep. cbv beta iota. rewrite after_fst.
    reflexivity.
  - reflexivity.
Qed.

Lemma bind_fst {A B} (m : M A) (k : A → M B) w :
  (bind m k w).1
  = match (m w).1 with
    | (Ok a, w1) => (k a w1).1
    | (Raise e, w1) => (Raise e, w1)
    end.
Proof.
  rewrite bind_step. destruct (m w) as [[[a|e] w1] ev1]; [|done]. by rewrite after_fst.
Qed.

(** The [finally] block changes the lock entry only. *)
Lemma finally_release_world {A} (body : M A) w :
  let out := finally_ body (release_display_lock id) w in
  out.1.1 = (body w).1.1
  ∧ clock out.1.2 = clock (body w).1.2
  ∧ ∀ k, k ≠ display_lock_key id → session out.1.2 !! k = session (body w).1.2 !! k.
Proof.
  unfold finally_. destruct (body w) as [[r w1] ev1].
  unfold release_display_lock. rewrite bind_step. simpl.
  case_bool_decide; simpl; (split; [done|]); (split; [done|]); intros k Hk; [|done].
  by rewrite lookup_delete_ne.
Qed.

Lemma protection_not_lock : refresh_protection_key id ≠ display_lock_key id.
Proof. by intros [=]. Qed.

Lemma protection_not_box : refresh_protection_key id ≠ "auto_refresh_unified_" +:+ id.
Proof. by intros [=]. Qed.

Lemma box_not_lock : "auto_refresh_unified_" +:+ id ≠ display_lock_key id.
Proof. by intros [=]. Qed.

(** What the whole call does, in terms of its refresh controls. *)
Lemma display_static_running rep w :
  truthy (dget (session w) (display_lock_key id) (VBool false)) = false →
  let out := display_static_progress_with_controls id true rep w in
  let inner := bind (refresh_controls id d (VStr "running")) (λ _, ret false)
                 (with_session (insert (display_lock_key id) (VBool true)) w) in
  out.1.1 = inner.1.1
  ∧ clock out.1.2 = clock inner.1.2
  ∧ ∀ k, k ≠ display_lock_key id → session out.1.2 !! k = session inner.1.2 !! k.
Proof.
  intros Hlock out inner. subst out inner.
  rewrite (display_static_unlocked _ _ _ _ Hlock), after_fst.
  destruct (finally_release_world (display_body id true rep)
              (with_session (insert (display_lock_key id) (VBool true)) w))
    as (Hres & Hclock & Hsession).
  rewrite display_body_found, display_found_running in Hres, Hclock, Hsession.
  done.
Qed.

(** X23.  A poll of a running job whose record is well formed, with the
    display lock free, no outside call failing, the refresh button not
    pressed and the auto-refresh box ticked (as it is by default), forces a
    refresh exactly when the time since the last protected refresh (0 when
    none is stored) has reached the protection interval of the plan's depth:
    then the call stamps the current time under the refresh protection key,
    sleeps for the sleep time of that depth and asks for a rerun; otherwise
    it returns [False] without sleeping and leaves the stamp as it was. *)
Theorem refresh_fires_exactly_when_due rep w last :
  truthy (dget (session w) (display_lock_key id) (VBool false)) = false →
  clicked ("refresh_unified_" +:+ id) = false →
  truthy (dget (session w) ("auto_refresh_unified_" +:+ id) (VBool true)) = true →
  as_num (dget (session w) (refresh_protection_key id) (VNum 0)) = Some last →
  let out := display_static_progress_with_controls id true rep w in
  if protection_interval depth <=? clock w - last
  then out.1.1 = Raise RerunException
       ∧ clock out.1.2 = clock w + sleep_time depth
       ∧ session out.1.2 !! refresh_protection_key id = Some (VNum (clock w))
  else out.1.1 = Ok false
       ∧ clock out.1.2 = clock w
       ∧ session out.1.2 !! refresh_protection_key id
         = session w !! refresh_protection_key id.
Proof.
  intros Hlock Hpressed Hauto Hlast out. subst out.
  destruct (display_static_running rep w Hlock) as (-> & -> & Hsession).
  rewrite (Hsession _ protection_not_lock). clear Hsession.
  rewrite bind_fst.
  destruct (refresh_controls_auto
              (with_session (insert (display_lock_key id) (VBool true)) w) last)
    as (ticked & Hclock & Hrest & ->).
  - done.
  - unfold dget, with_session. cbn [session].
    rewrite lookup_insert_ne by (apply not_eq_sym, box_not_lock). exact Hauto.
  - unfold dget, with_session. cbn [session].
    rewrite lookup_insert_ne by (apply not_eq_sym, protection_not_lock). exact Hlast.
  - unfold with_session at 1 in Hclock. cbn [clock] in Hclock.
    change (clock (with_session (insert (display_lock_key id) (VBool true)) w))
      with (clock w).
    destruct (protection_interval depth <=? clock w - last).
    + split; [done|]. unfold with_clock, with_session. cbn [clock session].
      split; [by rewrite Hclock | apply lookup_insert_eq].
    + cbn [ret fst snd]. split; [done|]. split; [done|].
      rewrite (Hrest _ protection_not_box). unfold with_session. cbn [session].
      apply lookup_insert_ne, not_eq_sym, protection_not_lock.
Qed.

(** X24.  A poll of a running job whose record is well formed, with the
    display lock free and no outside call failing, in which the viewer
    presses the refresh button, asks for a rerun at once: it does not sleep,
    and it removes the stamp of the last protected refresh, so the rate
    limiter starts afresh. *)
Theorem manual_refresh_lifts_protection rep w :
  truthy (dget (session w) (display_lock_key id) (VBool false)) = false →
  clicked ("refresh_unified_" +:+ id) = true →
  let out := display_static_progress_with_controls id true rep w in
  out.1.1 = Raise RerunException
  ∧ clock out.1.2 = clock w
  ∧ session out.1.2 !! refresh_protection_key id = None.
Proof.
  intros Hlock Hpressed out. subst out.
  destruct (display_static_running rep w Hlock) as (-> & -> & Hsession).
  rewrite (Hsession _ protection_not_lock). clear Hsession.
  rewrite bind_fst, (refresh_controls_manual _ _ Hpressed).
  split; [done|]. split; [done|].
  unfold with_session. cbn [session fst snd]. apply lookup_delete_eq.
Qed.

End Refreshing.

(** *** The view-report handlers *)

Section Restoring.
Context `{!Env}.

(** X25.  The view-report handler of
    [display_static_progress_with_controls] restores results from the
    tracker only into a session that holds none: with results in the
    session it does nothing at all.  Otherwise the session's results are
    either left as they were or become the formatted [raw_results] of the
    tracker's record, and then these are not empty and the analysis is
    marked as not running.  No other session entry changes, and a failure
    of the tracker or of the formatter is shown, not raised: the handler
    returns whenever [st.error] does. *)
Theorem view_report_keeps_held_results (id : string) (w : world) :
  let out := restore_results id w in
  (truthy (dget (session w) "analysis_results" VNone) = true → out = (Ok tt, w, []))
  ∧ (session out.1.2 !! "analysis_results" = session w !! "analysis_results"
     ∨ ∃ d, get_progress_by_id id = Some d
            ∧ truthy (format_analysis_results (dget d "raw_results" VNone)) = true
            ∧ session out.1.2 !! "analysis_results"
              = Some (format_analysis_results (dget d "raw_results" VNone))
            ∧ session out.1.2 !! "analysis_running" = Some (VBool false))
  ∧ (∀ k, k ≠ "analysis_results" → k ≠ "analysis_running" →
          session out.1.2 !! k = session w !! k)
  ∧ ((∀ msg, fault (St (Err msg)) = None) → out.1.1 = Ok tt).
Proof.
  intros out. subst out.
  unfold restore_results, try_except, fetch, format_results, st, ext, bind.
  cbn [session_get].
  destruct (truthy (dget (session w) "analysis_results" VNone)) eqn:Hheld; cbn [negb when].
  { split; [done|]. split; [by left|]. done. }
  split; [done|].
  destruct (fault (Fetch id)) as [msg|]; simpl.
  { destruct (fault (St _)) eqn:Hst; simpl.
    - split; [by left|]. split; [done|]. intros Hok. by rewrite Hok in Hst.
    - split; [by left|]. done. }
  destruct (get_progress_by_id id) as [d|] eqn:Hd; [|simpl; split; [by left|done]].
  case_bool_decide as Hempty; simpl; [split; [by left|done]|].
  destruct (truthy (dget d "raw_results" VNone)); simpl; [|split; [by left|done]].
  destruct (fault (FormatResults _)) as [msg|]; simpl.
  { destruct (fault (St _)) eqn:Hst; simpl.
    - split; [by left|]. split; [done|]. intros Hok. by rewrite Hok in Hst.
    - split; [by left|]. done. }
  destruct (truthy (format_analysis_results _)) eqn:Hfmt; simpl; [|split; [by left|done]].
  split.
  - right. exists d. split; [done|]. split; [done|].
    split; [by rewrite lookup_insert_ne, lookup_insert_eq | by rewrite lookup_insert_eq].
  - split; [|done]. intros k Hres Hrun. by rewrite !lookup_insert_ne.
Qed.

End Restoring.

End ControlsFacts.

(** ** More closed instances *)

Module MoreInstances.
Import Display Refresher History Actions Pages Sample Fixtures.

Lemma update_display_records_poll_witness :
  @poll_due (world_at 1000 [] []) = true
  ∧ (@update_display (stored fast_record) (world_at 1000 [] [])).1.1 = Ok true.
Proof.
  split; [reflexivity|].
  refine (proj1 (@RefresherFacts.update_display_records_poll (stored fast_record)
                   (world_at 1000 [] []) fast_record eq_refl eq_refl eq_refl _
                   (λ _, eq_refl))).
  intros Hempty. apply (f_equal (λ m : gmap string value, m !! "status")) in Hempty.
  vm_compute in Hempty. discriminate Hempty.
Defined.

Lemma auto_refresh_progress_terminates_witness :
  0 < refresh_interval (self (world_at 0 [] []))
  ∧ 1 < refresh_interval (self (world_at 0 [] [])) * 2
  ∧ ((@auto_refresh_progress nothing_stored 3 1 (world_at 0 [] [])).1.1 = Ok (Some tt)
     ∨ ∃ e, (@auto_refresh_progress nothing_stored 3 1 (world_at 0 [] [])).1.1 = Raise e).
Proof.
  split; [reflexivity|]. split; [reflexivity|].
  apply (@RefresherFacts.auto_refresh_progress_terminates nothing_stored 2 1
           (world_at 0 [] [])); reflexivity.
Defined.

Lemma report_loaded_or_session_untouched_witness :
  (@load_and_display_report reporting (VStr "job1") (world_at 1000 [] [])).1.1 = Ok tt.
Proof.
  exact (proj1 (@ActionsFacts.report_loaded_or_session_untouched reporting
                  (λ _, eq_refl) (VStr "job1") (world_at 1000 [] []))).
Defined.

Lemma record_details_survive_bad_progress_witness :
  (@display_record_details reporting (outside [] VNone no_faults) finished_record
     (world_at 1000 [] [])).1.1 = Ok tt.
Proof.
  apply (@ActionsFacts.record_details_survive_bad_progress reporting
           (outside [] VNone no_faults) finished_record (world_at 1000 [] [])
           100 "market, news" "快速分析"); [reflexivity..|].
  intros c. reflexivity.
Defined.

Lemma table_rows_can_be_styled_witness :
  ∃ row,
    (@table_row reporting (outside [] VNone no_faults) finished_record
       (world_at 1000 [] [])).1.1 = Ok row
    ∧ @style_status_row (drop_column "操作" row)
      = Ok (replicate 8 "background-color: #d4edda").
Proof.
  eexists. split; [vm_compute; reflexivity|].
  refine (eq_trans
            (proj2 (proj2 (proj2
               (@ActionsFacts.table_rows_can_be_styled reporting
                  (outside [] VNone no_faults) finished_record (world_at 1000 [] []) _ _))))
            _); [vm_compute; reflexivity|reflexivity].
Defined.

(** The history page with one finished job, when the viewer presses its
    delete button and confirms: the file of the job is removed. *)
Example delete_on_page :
  Base (OsRemove "./data/progress_job1.json")
  ∈ (@render_analysis_history deleting (outside [finished_record] VNone no_faults)
       (world_at 1000 ["./data/progress_job1.json"] [])).2.
Proof.
  apply list_elem_of_In. vm_compute.
  repeat first [left; reflexivity | right].
Qed.

Lemma history_page_removes_on_two_clicks_witness :
  ∃ limit record,
    record ∈ @get_all_analysis_history (outside [finished_record] VNone no_faults) limit
    ∧ removes_only (@py_str deleting (dget record "analysis_id" VNone))
        (OsRemove "./data/progress_job1.json")
    ∧ @clicked deleting ("delete_" +:+ @py_str deleting (dget record "analysis_id" VNone))
      = true
    ∧ @clicked deleting "❌ 确认删除" = true.
Proof.
  exact (@PagesFacts.history_page_removes_on_two_clicks deleting
           (outside [finished_record] VNone no_faults)
           (world_at 1000 ["./data/progress_job1.json"] [])
           (OsRemove "./data/progress_job1.json") delete_on_page I).
Defined.

(** The buttons of the finished job, when the viewer presses the report
    button: the results are formatted. *)
Example report_on_row :
  Base (FormatResults (VDict (list_to_map [("stock_symbol", VStr "AAPL")])))
  ∈ (@display_record_actions reporting (outside [] VNone no_faults) finished_record
       (world_at 1000 [] [])).2.
Proof.
  apply list_elem_of_In. vm_compute.
  repeat first [left; reflexivity | right].
Qed.


Lemma reanalysis_remembers_stock_witness :
  session (@setup_reanalysis reporting (outside [] VNone no_faults) finished_record
             (world_at 1000 [] [])).1.2
  = <["last_market_type" := VStr "美股"]> (<["last_stock_symbol" := VStr "AAPL"]> ∅).
Proof.
  exact (proj1 (@PagesFacts.reanalysis_remembers_stock reporting
                  (outside [] VNone no_faults) (λ _, eq_refl) finished_record
                  (world_at 1000 [] []))).
Defined.

Lemma history_failure_is_reported_witness :
  ∃ limit evs,
    @render_analysis_history nothing_stored (outside [] VNone history_down)
      (world_at 1000 [] [])
    = (Ok tt, world_at 1000 [] [],
       evs ++ [Page (AllHistory limit);
               Base (St (Err ("❌ 获取历史记录失败: " +:+ "connection refused")));
               Base (Log LError ("获取历史记录失败: " +:+ "connection refused"))]).
Proof.
  apply (@PagesFacts.history_failure_is_reported nothing_stored
           (outside [] VNone history_down) (world_at 1000 [] []) "connection refused").
  - intros limit. reflexivity.
  - intros c Hc. destruct c; try reflexivity. destruct (Hc limit eq_refl).
  - intros c. reflexivity.
  - reflexivity.
Defined.

(** Two jobs on disk, one of them also in Redis. *)
Lemma deleted_job_leaves_the_scans_witness :
  ("./data/progress_job1.json"
    ∉ Storage.progress_files
        (@delete_analysis_record redis_env "job1"
           (world_at 1000 ["./data/progress_job1.json"; "./data/progress_job2.json"]
              ["progress:job1"])).1.2)
  ∧ "./data/progress_job2.json"
    ∈ Storage.progress_files
        (@delete_analysis_record redis_env "job1"
           (world_at 1000 ["./data/progress_job1.json"; "./data/progress_job2.json"]
              ["progress:job1"])).1.2.
Proof.
  destruct (@RoundTrips.deleted_job_leaves_the_scans redis_env eq_refl (λ _, eq_refl)
              (ex_intro _ 6379 eq_refl) (ex_intro _ 0 eq_refl) "job1"
              (world_at 1000 ["./data/progress_job1.json"; "./data/progress_job2.json"]
                 ["progress:job1"]))
    as (Hgone & _ & Hothers & _).
  split; [exact Hgone|].
  apply Hothers; [discriminate|].
  apply list_elem_of_In. vm_compute. repeat first [left; reflexivity | right].
Defined.

Lemma second_delete_finds_nothing_witness :
  (@delete_analysis_record redis_env "job1"
     (@delete_analysis_record redis_env "job1"
        (world_at 1000 ["./data/progress_job1.json"] ["progress:job1"])).1.2).1.1
  = Ok tt.
Proof.
  exact (proj1 (@RoundTrips.second_delete_finds_nothing redis_env eq_refl (λ _, eq_refl)
                  (ex_intro _ 6379 eq_refl) (ex_intro _ 0 eq_refl) "job1"
                  (world_at 1000 ["./data/progress_job1.json"] ["progress:job1"]))).
Defined.

(** The record updated at 900 passes "最近7天" at time 605000 (cutoff 200)
    and is dropped by the same filter a thousand seconds later (cutoff
    1200). *)
Lemma filters_compose_witness :
  apply_filters (calendar_at 605000) [finished_record] "已完成" "最近7天" = Ok [finished_record]
  ∧ ∃ again,
      apply_filters (calendar_at 606000) [finished_record] "已完成" "最近7天" = Ok again
      ∧ sublist again [finished_record]
      ∧ again = [].
Proof.
  split; [reflexivity|].
  destruct (RoundTrips.filters_compose (calendar_at 605000) (calendar_at 606000)
              [finished_record] "已完成" "最近7天" [finished_record] eq_refl)
    as ((again & Hagain & Hsub & _) & _).
  exists again. split; [exact Hagain|]. split; [exact Hsub|].
  assert (apply_filters (calendar_at 606000) [finished_record] "已完成" "最近7天" = Ok [])
    as Hrun by reflexivity.
  rewrite Hrun in Hagain. by injection Hagain as <-.
Defined.

Lemma fast_record_filled : fast_record ≠ ∅.
Proof.
  intros Hempty. apply (f_equal (λ m : gmap string value, m !! "status")) in Hempty.
  vm_compute in Hempty. discriminate Hempty.
Qed.

Lemma completion_answer_follows_record_witness :
  (@display_static_progress_with_controls (stored failed_record) "job1" true true
     (world_at 1000 [] [])).1.1 = Ok true
  ∧ is_terminal (s_status (parse_static failed_record)) = true.
Proof.
  assert ((@display_static_progress_with_controls (stored failed_record) "job1" true true
             (world_at 1000 [] [])).1.1 = Ok true) as Hrun by (vm_compute; reflexivity).
  split; [exact Hrun|].
  pose proof (@ControlsFacts.completion_answer_follows_record (stored failed_record)
                "job1" true true (world_at 1000 [] []) true Hrun) as Hanswer.
  cbn [get_progress_by_id stored quiet_env] in Hanswer.
  symmetry in Hanswer. apply andb_true_iff in Hanswer as [_ Hanswer].
  apply andb_true_iff in Hanswer as [_ Hanswer]. exact Hanswer.
Defined.

(** At time 1000, with no refresh stamped yet, the depth-1 plan's interval
    of 5 has passed. *)
Lemma refresh_fires_exactly_when_due_witness :
  (@display_static_progress_with_controls (stored fast_record) "job1" true true
     (world_at 1000 [] [])).1.1 = Raise RerunException
  ∧ clock (@display_static_progress_with_controls (stored fast_record) "job1" true true
             (world_at 1000 [] [])).1.2 = 1006
  ∧ session (@display_static_progress_with_controls (stored fast_record) "job1" true true
               (world_at 1000 [] [])).1.2 !! refresh_protection_key "job1"
    = Some (VNum 1000).
Proof.
  exact (@ControlsFacts.refresh_fires_exactly_when_due (stored fast_record) (λ _, eq_refl)
           "job1" fast_record 100 0 0 0 (VNum 1) eq_refl fast_record_filled
           eq_refl eq_refl eq_refl eq_refl eq_refl eq_refl true (world_at 1000 [] []) 0
           eq_refl eq_refl eq_refl eq_refl).
Defined.

Lemma manual_refresh_lifts_protection_witness :
  (@display_static_progress_with_controls refreshing "job1" true true
     (world_at 1000 [] [])).1.1 = Raise RerunException
  ∧ clock (@display_static_progress_with_controls refreshing "job1" true true
             (world_at 1000 [] [])).1.2 = 1000
  ∧ session (@display_static_progress_with_controls refreshing "job1" true true
               (world_at 1000 [] [])).1.2 !! refresh_protection_key "job1" = None.
Proof.
  exact (@ControlsFacts.manual_refresh_lifts_protection refreshing (λ _, eq_refl)
           "job1" fast_record 100 0 0 0 (VNum 1) eq_refl fast_record_filled
           eq_refl eq_refl eq_refl eq_refl eq_refl eq_refl true (world_at 1000 [] [])
           eq_refl eq_refl).
Defined.

(** Three time units after the start, with no refresh stamped yet: the job
    without steps (depth 2, interval 2) is refreshed with a sleep of 3, the
    depth-1 job (interval 5) is not. *)
Example refresh_by_depth :
  (@display_static_progress_with_controls (stored bare_record) "job1" true true
     (world_at 3 [] [])).1.1 = Raise RerunException
  ∧ Sleep 3 ∈ (@display_static_progress_with_controls (stored bare_record) "job1" true true
                 (world_at 3 [] [])).2
  ∧ (@display_static_progress_with_controls (stored fast_record) "job1" true true
       (world_at 3 [] [])).1.1 = Ok false
  ∧ slept (@display_static_progress_with_controls (stored fast_record) "job1" true true
             (world_at 3 [] [])).2 = 0.
Proof.
  split; [vm_compute; reflexivity|].
  split; [vm_compute; repeat constructor|].
  split; vm_compute; reflexivity.
Qed.


(** Two jobs stored in both backends, Redis switched on: deleting the first
    issues both removals on its own file and key, which are gone afterwards
    while the second job's key stays; before the call both scans list the
    first job. *)
Lemma records_addressed_by_job_id_witness :
  OsRemove "./data/progress_job1.json"
    ∈ (@delete_analysis_record redis_env "job1"
         (world_at 1000 ["./data/progress_job1.json"; "./data/progress_job2.json"]
            ["progress:job1"; "progress:job2"])).2
  ∧ ("./data/progress_job1.json"
      ∉ files (@delete_analysis_record redis_env "job1"
                 (world_at 1000 ["./data/progress_job1.json"; "./data/progress_job2.json"]
                    ["progress:job1"; "progress:job2"])).1.2)
  ∧ RedisDelete "progress:job1"
      ∈ (@delete_analysis_record redis_env "job1"
           (world_at 1000 ["./data/progress_job1.json"; "./data/progress_job2.json"]
              ["progress:job1"; "progress:job2"])).2
  ∧ ("progress:job1"
      ∉ redis (@delete_analysis_record redis_env "job1"
                 (world_at 1000 ["./data/progress_job1.json"; "./data/progress_job2.json"]
                    ["progress:job1"; "progress:job2"])).1.2)
  ∧ "progress:job2"
      ∈ redis (@delete_analysis_record redis_env "job1"
                 (world_at 1000 ["./data/progress_job1.json"; "./data/progress_job2.json"]
                    ["progress:job1"; "progress:job2"])).1.2
  ∧ "progress:job1"
      ∈ Storage.progress_keys
          (world_at 1000 ["./data/progress_job1.json"; "./data/progress_job2.json"]
             ["progress:job1"; "progress:job2"])
  ∧ "./data/progress_job1.json"
      ∈ Storage.progress_files
          (world_at 1000 ["./data/progress_job1.json"; "./data/progress_job2.json"]
             ["progress:job1"; "progress:job2"]).
Proof.
  destruct (RoundTrips.records_addressed_by_job_id "job1")
    as (_ & _ & _ & _ & _ & _ & _ & _ & _ & _ & Hscans & Hdelete).
  destruct (Hscans (world_at 1000 ["./data/progress_job1.json"; "./data/progress_job2.json"]
                      ["progress:job1"; "progress:job2"]))
    as (Hkeys & Hfiles & _).
  destruct (Hdelete redis_env
              (world_at 1000 ["./data/progress_job1.json"; "./data/progress_job2.json"]
                 ["progress:job1"; "progress:job2"]))
    as (Hfile & Hkey & _ & Hothers).
  assert ("./data/progress_job1.json"
            ∈ files (world_at 1000 ["./data/progress_job1.json"; "./data/progress_job2.json"]
                       ["progress:job1"; "progress:job2"])) as Hf
    by (apply elem_of_list_to_set; left).
  assert ("progress:job1"
            ∈ redis (world_at 1000 ["./data/progress_job1.json"; "./data/progress_job2.json"]
                       ["progress:job1"; "progress:job2"])) as Hk
    by (apply elem_of_list_to_set; left).
  destruct (Hfile eq_refl Hf) as [Htried Hgone].
  destruct (Hkey eq_refl eq_refl (ex_intro _ 6379 eq_refl) (ex_intro _ 0 eq_refl))
    as [Htried' Hgone'].
  split; [exact Htried|]. split; [exact (Hgone eq_refl)|].
  split; [exact Htried'|]. split; [exact (Hgone' eq_refl)|].
  split; [apply Hothers; [discriminate|]; apply elem_of_list_to_set; right; left|].
  split; [by apply Hkeys | by apply Hfiles].
Defined.

End MoreInstances.
